(** * AbleDOOM: the Push hardware layer and the control mapper

    A shallow embedding of [abledoom.hpp] / [abledoom.cpp]: the MIDI input
    decoder, the LED driver, the pixel converter and blit, the USB display
    transfer pipeline, and the control mapper of [AbleDoom::onInput].

    Conventions.
    - C++ integers are [Z]; a narrowing conversion is written out
      ([uint8], [uint16]) and [int] arithmetic wraps ([int_wrap]).
    - [std::vector] and C arrays are [list]s; an access outside the
      container is undefined behaviour in the source and is [None] here.
    - The MIDI port, the USB stack and the event pump are the environment:
      what is sent is appended to a log kept in the state, what the
      environment answers is an argument of the operation. *)

From Stdlib Require Import ZArith List Bool Lia String.
Import ListNotations.
Local Open Scope Z_scope.

(** ** Machine integers *)

Definition uint8 (z : Z) : Z := z mod 256.
Definition uint16 (z : Z) : Z := z mod 65536.

Definition is_uint8 (z : Z) : Prop := 0 <= z < 256.
Definition is_uint32 (z : Z) : Prop := 0 <= z < 4294967296.

Definition INT_MIN : Z := -2147483648.
Definition INT_MAX : Z := 2147483647.
Definition is_int (z : Z) : Prop := INT_MIN <= z <= INT_MAX.

(** Two's complement wrap-around of a 32-bit [int]. *)
Definition int_wrap (z : Z) : Z := (z + 2147483648) mod 4294967296 - 2147483648.
Definition int_add (a b : Z) : Z := int_wrap (a + b).
Definition int_sub (a b : Z) : Z := int_wrap (a - b).
Definition int_mul (a b : Z) : Z := int_wrap (a * b).

(** The values [0, 1, ..., n-1] a [for (auto i = 0; i < n; ++i)] loop visits;
    none when [n <= 0]. *)
Definition loop_range (n : Z) : list Z := map Z.of_nat (seq 0 (Z.to_nat n)).

(** [std::find_if] over a table, returning the position and the element. *)
Fixpoint find_if_from {A : Type} (p : A -> bool) (l : list A) (i : nat)
  : option (nat * A) :=
  match l with
  | [] => None
  | a :: l' => if p a then Some (i, a) else find_if_from p l' (S i)
  end.

Definition find_if {A : Type} (p : A -> bool) (l : list A) : option (nat * A) :=
  find_if_from p l 0.

(** ** Data model (abledoom.hpp) *)

Definition PUSH_SCREEN_WIDTH : Z := 960.
Definition PUSH_SCREEN_HEIGHT : Z := 160.
Definition PUSH_SCREEN_STRIDE : Z := 1024.

(** [static_assert]s of doomgeneric_pushstandalone.cpp *)
Definition DOOMGENERIC_RESX : Z := 320.
Definition DOOMGENERIC_RESY : Z := 200.

Record DoomInputEvent := { key : Z; dPressed : bool }.

Record PadId := { padX : Z; padY : Z }.

Definition ButtonId := Z.

Inductive ControlId :=
| Pad (p : PadId)
| Button (b : ButtonId).

Record PushInputEvent := { id : ControlId; pressed : bool }.

Definition PadId_eqb (a b : PadId) : bool :=
  (padX a =? padX b) && (padY a =? padY b).

(** [operator==] of the variant: same alternative, equal value. *)
Definition ControlId_eqb (a b : ControlId) : bool :=
  match a, b with
  | Pad p, Pad q => PadId_eqb p q
  | Button m, Button n => m =? n
  | _, _ => false
  end.

(** ** Control-input decoder *)

(** Pad Y coordinate (with 0 = topmost row) to MIDI note number *)
Definition Y_TO_PAD_ROW_START : list Z := [92; 84; 76; 68; 60; 52; 44; 36].

Definition isPad (noteNumber : Z) : bool :=
  (noteNumber >=? 36) && (noteNumber <=? 99).

Definition noteNumberToPadCoordinate (noteNumber : Z) : Z * Z :=
  match find_if (fun value => noteNumber >=? value) Y_TO_PAD_ROW_START with
  | Some (i, rowStart) => (uint8 (noteNumber - rowStart), uint8 (Z.of_nat i))
  | None => (0, 0)
  end.

(** The lambda computing [oEvent] in [PushHardware::onMessage]. *)
Definition decodeEvent (type number value : Z) : option PushInputEvent :=
  if type =? 0x90 then
    if isPad number then
      let '(x, y) := noteNumberToPadCoordinate number in
      Some {| id := Pad {| padX := x; padY := y |}; pressed := true |}
    else None
  else if type =? 0x80 then
    if isPad number then
      let '(x, y) := noteNumberToPadCoordinate number in
      Some {| id := Pad {| padX := x; padY := y |}; pressed := false |}
    else None
  else if type =? 0xB0 then
    Some {| id := Button number; pressed := value =? 127 |}
  else None.

(** The event [PushHardware::onMessage] hands to the input callback, if any. *)
Definition onMessage_event (pMessage : list Z) : option PushInputEvent :=
  match pMessage with
  | [b0; b1; b2] => decodeEvent (Z.land b0 0xF0) b1 b2
  | _ => None
  end.

(** [PushHardware::onMessage]: [mInputCallback] runs on the receiver's state
    exactly when an event was decoded. *)
Definition onMessage {S : Type} (mInputCallback : PushInputEvent -> S -> S)
  (pMessage : list Z) (self : S) : S :=
  match onMessage_event pMessage with
  | Some e => mInputCallback e self
  | None => self
  end.

(** The high nibble of a byte, as the protocol document names it. *)
Definition highNibble (b : Z) : Z := Z.shiftr b 4.

(** ** Undefined behaviour as [None] *)

Definition bind {A B : Type} (m : option A) (f : A -> option B) : option B :=
  match m with
  | Some a => f a
  | None => None
  end.

Notation "x <- m ;; k" := (bind m (fun x => k))
  (at level 61, m at next level, right associativity).

(** A loop whose body may fail: the first failure ends the run. *)
Fixpoint for_each {A S : Type} (body : A -> S -> option S) (l : list A) (s : S)
  : option S :=
  match l with
  | [] => Some s
  | a :: l' => s' <- body a s ;; for_each body l' s'
  end.

(** [v[i] = x] on a [std::vector]; outside the vector the source has
    undefined behaviour. *)
Fixpoint store_nat {A : Type} (i : nat) (x : A) (v : list A) : option (list A) :=
  match v, i with
  | [], _ => None
  | _ :: v', O => Some (x :: v')
  | a :: v', S i' => v'' <- store_nat i' x v' ;; Some (a :: v'')
  end.

Definition vec_store {A : Type} (i : Z) (x : A) (v : list A) : option (list A) :=
  if i <? 0 then None else store_nat (Z.to_nat i) x v.

(** [a[i]] on a C array. *)
Definition array_load {A : Type} (i : Z) (a : list A) : option A :=
  if i <? 0 then None else nth_error a (Z.to_nat i).

(** ** State of the hardware facade *)

(** The two [libusb_transfer] objects [initDisplay] allocates; pointer
    comparison against [mpDataTransfer] is comparison of these names. *)
Inductive Transfer := HeaderTransfer | DataTransfer.

Definition Transfer_eqb (a b : Transfer) : bool :=
  match a, b with
  | HeaderTransfer, HeaderTransfer => true
  | DataTransfer, DataTransfer => true
  | _, _ => false
  end.

Record DisplayData := {
  mTransferFailed : bool;
  mDisplayError : Z;
  mUsbTransferBuffer : list Z;      (* bytes *)
  mTransferInProgress : bool
}.

Record PushHardware := {
  mMessageBuffer : list Z;          (* bytes; [resize(3)] in the constructor *)
  mScreenBuffer : list Z;           (* 16-bit pixels *)
  mDisplayData : DisplayData;
  (* environment, oldest first *)
  midiOut : list (list Z);          (* messages given to [mpMidiOut->sendMessage] *)
  usbSubmitted : list (Transfer * Z) (* [libusb_submit_transfer] calls and their results *)
}.

Definition set_mTransferFailed (b : bool) (d : DisplayData) : DisplayData :=
  {| mTransferFailed := b;
     mDisplayError := mDisplayError d;
     mUsbTransferBuffer := mUsbTransferBuffer d;
     mTransferInProgress := mTransferInProgress d |}.

Definition set_mDisplayError (e : Z) (d : DisplayData) : DisplayData :=
  {| mTransferFailed := mTransferFailed d;
     mDisplayError := e;
     mUsbTransferBuffer := mUsbTransferBuffer d;
     mTransferInProgress := mTransferInProgress d |}.

Definition set_mUsbTransferBuffer (buf : list Z) (d : DisplayData) : DisplayData :=
  {| mTransferFailed := mTransferFailed d;
     mDisplayError := mDisplayError d;
     mUsbTransferBuffer := buf;
     mTransferInProgress := mTransferInProgress d |}.

Definition set_mTransferInProgress (b : bool) (d : DisplayData) : DisplayData :=
  {| mTransferFailed := mTransferFailed d;
     mDisplayError := mDisplayError d;
     mUsbTransferBuffer := mUsbTransferBuffer d;
     mTransferInProgress := b |}.

Definition set_mMessageBuffer (m : list Z) (hw : PushHardware) : PushHardware :=
  {| mMessageBuffer := m;
     mScreenBuffer := mScreenBuffer hw;
     mDisplayData := mDisplayData hw;
     midiOut := midiOut hw;
     usbSubmitted := usbSubmitted hw |}.

Definition set_mScreenBuffer (s : list Z) (hw : PushHardware) : PushHardware :=
  {| mMessageBuffer := mMessageBuffer hw;
     mScreenBuffer := s;
     mDisplayData := mDisplayData hw;
     midiOut := midiOut hw;
     usbSubmitted := usbSubmitted hw |}.

Definition set_mDisplayData (d : DisplayData) (hw : PushHardware) : PushHardware :=
  {| mMessageBuffer := mMessageBuffer hw;
     mScreenBuffer := mScreenBuffer hw;
     mDisplayData := d;
     midiOut := midiOut hw;
     usbSubmitted := usbSubmitted hw |}.

Definition set_usbSubmitted (l : list (Transfer * Z)) (hw : PushHardware) : PushHardware :=
  {| mMessageBuffer := mMessageBuffer hw;
     mScreenBuffer := mScreenBuffer hw;
     mDisplayData := mDisplayData hw;
     midiOut := midiOut hw;
     usbSubmitted := l |}.

(** [mpMidiOut->sendMessage(&mMessageBuffer)] *)
Definition sendMessage (hw : PushHardware) : PushHardware :=
  {| mMessageBuffer := mMessageBuffer hw;
     mScreenBuffer := mScreenBuffer hw;
     mDisplayData := mDisplayData hw;
     midiOut := midiOut hw ++ [mMessageBuffer hw];
     usbSubmitted := usbSubmitted hw |}.

(** ** LED output driver *)

Definition storeMessage (b0 b1 b2 : Z) (hw : PushHardware) : option PushHardware :=
  m0 <- vec_store 0 b0 (mMessageBuffer hw) ;;
  m1 <- vec_store 1 b1 m0 ;;
  m2 <- vec_store 2 b2 m1 ;;
  Some (set_mMessageBuffer m2 hw).

Definition setButtonLight (number value : Z) (hw : PushHardware)
  : option PushHardware :=
  (* CC *)
  hw' <- storeMessage 0xB0 (uint8 number) (uint8 value) hw ;;
  Some (sendMessage hw').

(** [Y_TO_PAD_ROW_START[y] + x], the note number [setPadLight] computes. *)
Definition padNoteNumber (x y : Z) : option Z :=
  rowStart <- array_load y Y_TO_PAD_ROW_START ;;
  Some (int_add rowStart x).

Definition setPadLight (x y value : Z) (hw : PushHardware) : option PushHardware :=
  noteNumber <- padNoteNumber x y ;;
  hw' <- (if value =? 0
          then (* Note off *) storeMessage 0x80 (uint8 noteNumber) 0 hw
          else (* Note on *) storeMessage 0x90 (uint8 noteNumber) (uint8 value) hw) ;;
  Some (sendMessage hw').

Definition setLight (c : ControlId) (value : Z) (hw : PushHardware)
  : option PushHardware :=
  match c with
  | Pad p => setPadLight (padX p) (padY p) value hw
  | Button b => setButtonLight b value hw
  end.

(** The case labels of the [switch] in [resetLEDs]. *)
Definition isSkippedButton (value : Z) : bool :=
  (value =? 52) || (value =? 53) || (value =? 66) || (value =? 67)
  || (value =? 68) || (value =? 97) || (value =? 98) || (value =? 99)
  || (value =? 100) || (value =? 101).

(** One iteration of [for (uint8_t value = 20; value <= 119; ++value, ++index)]:
    the loop state is [(index, result)]. *)
Definition kAllButtons_step (st : Z * list Z) (value : Z) : option (Z * list Z) :=
  let '(index, result) := st in
  result' <- (if isSkippedButton value
              then Some result
              else vec_store index value result) ;;
  Some (index + 1, result').

(** [std::array<uint8_t, 102> result{3, 9}]: the remaining elements are
    value-initialised. *)
Definition kAllButtons_init : list Z := 3 :: 9 :: repeat 0 100.

Definition kAllButtons : option (list Z) :=
  st <- for_each (fun value st => kAllButtons_step st value)
          (map (fun i => 20 + i) (loop_range 100)) (2, kAllButtons_init) ;;
  Some (snd st).

Definition resetLEDs (hw : PushHardware) : option PushHardware :=
  buttons <- kAllButtons ;;
  hw1 <- for_each (fun button h => setButtonLight button 0 h) buttons hw ;;
  for_each
    (fun y h => for_each (fun x h' => setPadLight x y 0 h') (loop_range 8) h)
    (loop_range 8) hw1.

(** ** Pixel converter and blit *)

(** Pack color into the 16-bit format expected by the Push display.
    [color] is a [uint32_t]; the result is narrowed to [uint16_t]. *)
Definition toBGR565 (color : Z) : Z :=
  let r := Z.shiftr (Z.land color 0x00FF0000) 16 in
  let g := Z.shiftr (Z.land color 0x0000FF00) 8 in
  let b := Z.land color 0x000000FF in
  uint16 (Z.lor (Z.lor (Z.shiftl (Z.land b 0xF8) 8) (Z.shiftl (Z.land g 0xFC) 3))
                (Z.shiftr r 3)).

(** The three fields of a device pixel. *)
Definition blueField (pixel : Z) : Z := Z.land (Z.shiftr pixel 11) 0x1F.
Definition greenField (pixel : Z) : Z := Z.land (Z.shiftr pixel 5) 0x3F.
Definition redField (pixel : Z) : Z := Z.land pixel 0x1F.

(** The three colour bytes of a source pixel. *)
Definition redByte (color : Z) : Z := Z.shiftr color 16 mod 256.
Definition greenByte (color : Z) : Z := Z.shiftr color 8 mod 256.
Definition blueByte (color : Z) : Z := color mod 256.

(** "Clamp destination rectangle to screen size": one of the two [if]s of
    [copyToScreen], on [int]s. *)
Definition clampExtent (dest extent limit : Z) : Z :=
  if int_add dest extent >=? limit then int_sub limit dest else extent.

(** One assignment of the copy loop: the index written in [mScreenBuffer]
    and the index read from [srcBuffer]. *)
Record PixelCopy := { destIndex : Z; srcIndex : Z }.

Definition copyToScreen_pixel (srcX srcY destX destY x y : Z) : PixelCopy :=
  {| destIndex :=
       int_add (int_add destX x) (int_mul (int_add y destY) PUSH_SCREEN_STRIDE);
     srcIndex :=
       int_add (int_add x srcX) (int_mul (int_add y srcY) DOOMGENERIC_RESX) |}.

(** The assignments [copyToScreen] performs, in the order of its two nested
    loops, after clamping. *)
Definition copyToScreen_writes (srcX srcY srcWidth srcHeight destX destY : Z)
  : list PixelCopy :=
  let srcWidth' := clampExtent destX srcWidth PUSH_SCREEN_WIDTH in
  let srcHeight' := clampExtent destY srcHeight PUSH_SCREEN_HEIGHT in
  flat_map
    (fun y => map (fun x => copyToScreen_pixel srcX srcY destX destY x y)
                  (loop_range srcWidth'))
    (loop_range srcHeight').

(** [copyToScreen] with a source rectangle. [srcBuffer] is a pointer: the
    pixel at an offset is whatever memory holds there, so it is a function of
    the offset. A write outside [mScreenBuffer] is undefined behaviour. *)
Definition copyToScreen (srcBuffer : Z -> Z)
  (srcX srcY srcWidth srcHeight destX destY : Z) (hw : PushHardware)
  : option PushHardware :=
  screen <- for_each
              (fun w screen =>
                 vec_store (destIndex w) (toBGR565 (srcBuffer (srcIndex w))) screen)
              (copyToScreen_writes srcX srcY srcWidth srcHeight destX destY)
              (mScreenBuffer hw) ;;
  Some (set_mScreenBuffer screen hw).

(** [std::memcpy(dest, src, n)] on two buffers of at least [n] elements. *)
Definition memcpy {A : Type} (dest src : list A) (n : Z) : list A :=
  firstn (Z.to_nat n) src ++ skipn (Z.to_nat n) dest.

(** [copyToScreen(const uint16_t* data)]: copy raw data directly (must have
    the correct size). *)
Definition copyToScreen_raw (data : list Z) (hw : PushHardware) : PushHardware :=
  set_mScreenBuffer
    (memcpy (mScreenBuffer hw) data (Z.of_nat (List.length (mScreenBuffer hw)))) hw.

(** ** Display transfer pipeline *)

Definition PUSH_SCREEN_SIZE_BYTES : Z := PUSH_SCREEN_HEIGHT * PUSH_SCREEN_STRIDE * 2.

Definition DISPLAY_FRAME_HEADER : list Z :=
  [0xff; 0xcc; 0xaa; 0x88; 0; 0; 0; 0; 0; 0; 0; 0; 0; 0; 0; 0].

(** Object representation of the buffers on the little-endian target. *)
Definition uint16_bytes (p : Z) : list Z := [Z.land p 0xFF; Z.land (Z.shiftr p 8) 0xFF].

Definition uint32_of_bytes (b0 b1 b2 b3 : Z) : Z :=
  Z.lor (Z.lor b0 (Z.shiftl b1 8)) (Z.lor (Z.shiftl b2 16) (Z.shiftl b3 24)).

Definition uint32_bytes (w : Z) : list Z :=
  [Z.land w 0xFF; Z.land (Z.shiftr w 8) 0xFF;
   Z.land (Z.shiftr w 16) 0xFF; Z.land (Z.shiftr w 24) 0xFF].

(** [applySignalShapingPattern]: [words] is the loop bound
    [PUSH_SCREEN_SIZE_BYTES / sizeof(uint32_t)]. [pBuffer] is a bare pointer:
    the loop walks [words] words whatever lies there, so the buffer must hold
    at least [4 * words] bytes. The last case below is reached with words
    left only on a shorter buffer, where the source reads and writes past the
    end (undefined behaviour); like [memcpy], the function stands for the
    source on buffers of sufficient size only, and that size is a hypothesis
    wherever the shaping is reasoned about. Bytes after the first
    [4 * words] are not touched. *)
Fixpoint xorWords (words : nat) (pBuffer : list Z) : list Z :=
  match words, pBuffer with
  | S words', b0 :: b1 :: b2 :: b3 :: rest =>
      uint32_bytes (Z.lxor (uint32_of_bytes b0 b1 b2 b3) 0xffe7f3e7)
        ++ xorWords words' rest
  | _, _ => pBuffer
  end.

Definition applySignalShapingPattern (pBuffer : list Z) : list Z :=
  xorWords (Z.to_nat (PUSH_SCREEN_SIZE_BYTES / 4)) pBuffer.

(** Kick-off libusb transfers for a single frame of Push display data.
    [headerResult] and [dataResult] are what [libusb_submit_transfer]
    answers for the two transfers. *)
Definition submitDisplayFrameTransfer (headerResult dataResult : Z)
  (hw : PushHardware) : PushHardware :=
  let hw1 := set_usbSubmitted (usbSubmitted hw ++ [(HeaderTransfer, headerResult)]) hw in
  if headerResult <? 0 then
    set_mDisplayData (set_mDisplayError headerResult (mDisplayData hw1)) hw1
  else
    let hw2 := set_usbSubmitted (usbSubmitted hw1 ++ [(DataTransfer, dataResult)]) hw1 in
    if dataResult <? 0 then
      set_mDisplayData (set_mDisplayError dataResult (mDisplayData hw2)) hw2
    else
      (* Make sure we don't try to send another frame while this one is still
         being sent *)
      set_mDisplayData (set_mTransferInProgress true (mDisplayData hw2)) hw2.

Inductive libusb_transfer_status :=
| LIBUSB_TRANSFER_COMPLETED
| LIBUSB_TRANSFER_ERROR
| LIBUSB_TRANSFER_TIMED_OUT
| LIBUSB_TRANSFER_CANCELLED
| LIBUSB_TRANSFER_STALL
| LIBUSB_TRANSFER_NO_DEVICE
| LIBUSB_TRANSFER_OVERFLOW.

Definition is_completed (s : libusb_transfer_status) : bool :=
  match s with
  | LIBUSB_TRANSFER_COMPLETED => true
  | _ => false
  end.

(** What the completion callback sees of a [libusb_transfer]: which of the
    two transfers it is, whether [user_data] is set, and the outcome. *)
Record libusb_transfer := {
  transfer_id : Transfer;
  has_user_data : bool;
  status : libusb_transfer_status;
  length : Z;
  actual_length : Z
}.

(** [onTransferFinished]; [None] is a null [transfer]. *)
Definition onTransferFinished (transfer : option libusb_transfer)
  (pData : DisplayData) : DisplayData :=
  match transfer with
  | None => pData
  | Some t =>
      if negb (has_user_data t) then pData
      else if negb (is_completed (status t)) || negb (length t =? actual_length t)
      then
        (* just bail out if a transfer fails or can only be partially sent *)
        set_mTransferFailed true pData
      else if Transfer_eqb (transfer_id t) DataTransfer
      then set_mTransferInProgress false pData
      else pData
  end.

(** What one call of [libusb_handle_events_timeout] does: the completions it
    delivers to [onTransferFinished], in order, and the value it returns. *)
Record HandleEvents := {
  completions : list (option libusb_transfer);
  handleEventsResult : Z
}.

Definition deliver (ev : HandleEvents) (pData : DisplayData) : DisplayData :=
  fold_left (fun d t => onTransferFinished t d) (completions ev) pData.

(** How a call that may throw ends. *)
Inductive Outcome :=
| Returned
| ThrowLibUsbError (errorCode : Z)
| ThrowRuntimeError (what : string).

Definition threw (o : Outcome) : bool :=
  match o with
  | Returned => false
  | _ => true
  end.

(** [PushHardware::submitScreen]. [ev] is what the event pump does if it is
    called; [headerResult], [dataResult] are the answers to the two
    [libusb_submit_transfer] calls if they are made. *)
Definition submitScreen (ev : HandleEvents) (headerResult dataResult : Z)
  (hw : PushHardware) : Outcome * PushHardware :=
  let pump :=
    negb (mTransferFailed (mDisplayData hw)) && (mDisplayError (mDisplayData hw) >=? 0) in
  (* Service any pending libusb events, non-blocking. *)
  let hw1 := if pump then set_mDisplayData (deliver ev (mDisplayData hw)) hw else hw in
  if pump && (handleEventsResult ev <? 0) then
    (ThrowLibUsbError (handleEventsResult ev), hw1)
  else if mDisplayError (mDisplayData hw1) <? 0 then
    (ThrowLibUsbError (mDisplayError (mDisplayData hw1)), hw1)
  else if mTransferFailed (mDisplayData hw1) then
    (ThrowRuntimeError "Display USB transfer failed", hw1)
  else if mTransferInProgress (mDisplayData hw1) then
    (* the last transfer is still in progress: drop the frame *)
    (Returned, hw1)
  else
    (* Copy frame buffer into USB transfer buffer *)
    let copied :=
      memcpy (mUsbTransferBuffer (mDisplayData hw1))
             (flat_map uint16_bytes (mScreenBuffer hw1)) PUSH_SCREEN_SIZE_BYTES in
    (* Apply XOR pattern *)
    let shaped := applySignalShapingPattern copied in
    let hw2 := set_mDisplayData (set_mUsbTransferBuffer shaped (mDisplayData hw1)) hw1 in
    (* Kick-off USB transfers *)
    (Returned, submitDisplayFrameTransfer headerResult dataResult hw2).

(** ** Control mapper *)

(** The key codes of the engine's [doomkeys.h], which is not part of this
    layer: the mapper is written against their names only. *)
Class DoomKeys := {
  KEY_FIRE : Z;
  KEY_LALT : Z;
  KEY_USE : Z;
  KEY_RSHIFT : Z;
  KEY_UPARROW : Z;
  KEY_LEFTARROW : Z;
  KEY_DOWNARROW : Z;
  KEY_RIGHTARROW : Z;
  KEY_ENTER : Z;
  KEY_ESCAPE : Z;
  KEY_F6 : Z;
  KEY_F9 : Z
}.

(** Input mapping - Push control (button/pad) to keyboard key *)
Record InputMapping := {
  mId : ControlId;
  doomKey : Z;
  color : option Z
}.

Record AbleDoom := {
  mEventQueue : list DoomInputEvent;
  mHardware : PushHardware;
  mShiftHeld : bool
}.

(** A row of the table; [doomKey] is a [uint8_t] member initialised from an
    [int] constant. *)
Definition padMapping (x y k : Z) (c : option Z) : InputMapping :=
  {| mId := Pad {| padX := x; padY := y |}; doomKey := uint8 k; color := c |}.

Definition buttonMapping (b k : Z) : InputMapping :=
  {| mId := Button b; doomKey := uint8 k; color := None |}.

Section Mapper.
Context `{keys : DoomKeys}.

Definition INPUT_MAPPING_TABLE : list InputMapping := [
  padMapping 0 3 KEY_FIRE None;
  padMapping 1 3 KEY_LALT None;
  padMapping 2 3 KEY_USE None;
  padMapping 2 5 KEY_RSHIFT None;

  padMapping 6 2 KEY_UPARROW None;
  padMapping 5 3 KEY_LEFTARROW None;
  padMapping 6 3 KEY_DOWNARROW None;
  padMapping 7 3 KEY_RIGHTARROW None;

  buttonMapping 91 KEY_ENTER;
  buttonMapping 33 KEY_ESCAPE;
  buttonMapping 46 KEY_UPARROW;
  buttonMapping 47 KEY_DOWNARROW;

  buttonMapping 82 KEY_F6;

  (* Use a slightly less bright color (121) for the weapon switch pads;
     the keys are the characters '1' to '7' *)
  padMapping 0 0 49 (Some 121);
  padMapping 1 0 50 (Some 121);
  padMapping 2 0 51 (Some 121);
  padMapping 3 0 52 (Some 121);
  padMapping 4 0 53 (Some 121);
  padMapping 5 0 54 (Some 121);
  padMapping 6 0 55 (Some 121)
].

(** The [std::find_if] of [onInput]: the first row whose id equals the
    event's. *)
Definition findMapping (c : ControlId) : option InputMapping :=
  match find_if (fun mapping => ControlId_eqb (mId mapping) c) INPUT_MAPPING_TABLE with
  | Some (_, mapping) => Some mapping
  | None => None
  end.

Definition onInput (input : PushInputEvent) (self : AbleDoom) : AbleDoom :=
  let shiftHeld :=
    if ControlId_eqb (id input) (Button 49) then pressed input else mShiftHeld self in
  (* Map Push button to Doom key *)
  match findMapping (id input) with
  | Some iMapping =>
      (* Do quick load on Shift + Save *)
      let key' :=
        if (doomKey iMapping =? KEY_F6) && shiftHeld
        then uint8 KEY_F9 else doomKey iMapping in
      {| mEventQueue := mEventQueue self ++ [{| key := key'; dPressed := pressed input |}];
         mHardware := mHardware self;
         mShiftHeld := shiftHeld |}
  | None =>
      {| mEventQueue := mEventQueue self;
         mHardware := mHardware self;
         mShiftHeld := shiftHeld |}
  end.

(** [AbleDoom::fetchEvent] *)
Definition fetchEvent (self : AbleDoom) : option DoomInputEvent * AbleDoom :=
  match mEventQueue self with
  | [] => (None, self)
  | event :: rest =>
      (Some event,
       {| mEventQueue := rest;
          mHardware := mHardware self;
          mShiftHeld := mShiftHeld self |})
  end.

(** The input callback the constructor registers, driven by raw messages:
    [mHardware([this](const PushInputEvent& input) { onInput(input); })]. *)
Definition receive (pMessage : list Z) (self : AbleDoom) : AbleDoom :=
  onMessage onInput pMessage self.

(** The events of a run, delivered in order. *)
Definition onInputs (inputs : list PushInputEvent) (self : AbleDoom) : AbleDoom :=
  fold_left (fun a e => onInput e a) inputs self.

End Mapper.

(** Whether the modifier button (49) is held after a history of events that
    started with it released: its last event, if any, was a press. *)
Fixpoint modifierHeld (history : list PushInputEvent) (held : bool) : bool :=
  match history with
  | [] => held
  | e :: rest =>
      modifierHeld rest (if ControlId_eqb (id e) (Button 49) then pressed e else held)
  end.

(** The key codes as [doomkeys.h] of doomgeneric defines them. *)
Definition doomkeys_h : DoomKeys := {|
  KEY_FIRE := 0xa3;
  KEY_LALT := 0x80 + 0x38;
  KEY_USE := 0xa2;
  KEY_RSHIFT := 0x80 + 0x36;
  KEY_UPARROW := 0xad;
  KEY_LEFTARROW := 0xac;
  KEY_DOWNARROW := 0xaf;
  KEY_RIGHTARROW := 0xae;
  KEY_ENTER := 13;
  KEY_ESCAPE := 27;
  KEY_F6 := 0x80 + 0x40;
  KEY_F9 := 0x80 + 0x43
|}.

(** ** The protocol, in the specification's words *)

(** A raw message the decoder answers with an event: exactly three bytes, a
    kind nibble of 0x8, 0x9 or 0xB, and under 0x8 / 0x9 a number in the pad
    window. *)
Definition producesEvent (pMessage : list Z) : Prop :=
  List.length pMessage = 3%nat /\
  let b0 := nth 0 pMessage 0 in
  let b1 := nth 1 pMessage 0 in
  (highNibble b0 = 0x8 \/ highNibble b0 = 0x9 \/ highNibble b0 = 0xB) /\
  (highNibble b0 = 0x8 \/ highNibble b0 = 0x9 -> 36 <= b1 <= 99).

(** ** The LED protocol, in the specification's words *)

(** The button numbers the reset is to switch off: the low-range set {3, 9}
    and 20..119 without the exclusion list. *)
Definition exclusionList : list Z := [52; 53; 66; 67; 68; 97; 98; 99; 100; 101].

Definition validButton (n : Z) : Prop :=
  n = 3 \/ n = 9 \/ (20 <= n <= 119 /\ ~ In n exclusionList).

Definition validButtonb (n : Z) : bool :=
  (n =? 3) || (n =? 9)
  || ((20 <=? n) && (n <=? 119) && negb (existsb (Z.eqb n) exclusionList)).

(** Off-commands: a value change to 0 for a button, a control-off for a pad
    note. *)
Definition buttonOff (n : Z) : list Z := [0xB0; n; 0].
Definition padOff (note : Z) : list Z := [0x80; note; 0].

Fixpoint bytes_eqb (a b : list Z) : bool :=
  match a, b with
  | [], [] => true
  | x :: a', y :: b' => (x =? y) && bytes_eqb a' b'
  | _, _ => false
  end.

(** How often a message occurs among the messages sent. *)
Definition countMessage (m : list Z) (sent : list (list Z)) : nat :=
  List.length (filter (bytes_eqb m) sent).

(** An LED operation that, on a facade with its three-byte message buffer,
    succeeds and sends exactly [msgs], in order. *)
Definition sends (op : PushHardware -> option PushHardware) (msgs : list (list Z))
  : Prop :=
  forall hw, List.length (mMessageBuffer hw) = 3%nat ->
    exists hw', op hw = Some hw' /\
      midiOut hw' = midiOut hw ++ msgs /\
      List.length (mMessageBuffer hw') = 3%nat /\
      mScreenBuffer hw' = mScreenBuffer hw /\
      mDisplayData hw' = mDisplayData hw /\
      usbSubmitted hw' = usbSubmitted hw.

(** The contents of [kAllButtons], evaluated. *)
Definition kAllButtons_value : list Z :=
  Eval vm_compute in match kAllButtons with Some l => l | None => [] end.

(** The messages [resetLEDs] sends, read off its two loops. *)
Definition resetLEDs_messages : list (list Z) :=
  Eval vm_compute in
    flat_map (fun button => [[0xB0; uint8 button; uint8 0]]) kAllButtons_value
    ++ flat_map
         (fun y =>
            flat_map
              (fun x =>
                 match padNoteNumber x y with
                 | Some note => [[0x80; uint8 note; 0]]
                 | None => []
                 end)
              (loop_range 8))
         (loop_range 8).

(** ** The transfer pipeline, in the specification's words *)

(** The pipeline has recorded a failure. *)
Definition failedState (d : DisplayData) : Prop :=
  mTransferFailed d = true \/ mDisplayError d < 0.

(** A completion that reports success: completed, and as long as requested. *)
Definition completedOk (t : libusb_transfer) : Prop :=
  status t = LIBUSB_TRANSFER_COMPLETED /\ length t = actual_length t.

(** A completion that neither fails nor finishes the pixel payload: a null
    transfer, one without user data, or the header's success. *)
Definition quiet (transfer : option libusb_transfer) : Prop :=
  match transfer with
  | None => True
  | Some t =>
      has_user_data t = false \/ (completedOk t /\ transfer_id t = HeaderTransfer)
  end.

(** The operations that touch the transfer state: the submit operation, the
    completion callback, and the kick-off of the two transfers. *)
Inductive PipelineOp :=
| OpSubmitScreen (ev : HandleEvents) (headerResult dataResult : Z)
| OpTransferFinished (transfer : option libusb_transfer)
| OpSubmitDisplayFrameTransfer (headerResult dataResult : Z).

Definition runOp (op : PipelineOp) (hw : PushHardware) : Outcome * PushHardware :=
  match op with
  | OpSubmitScreen ev headerResult dataResult =>
      submitScreen ev headerResult dataResult hw
  | OpTransferFinished transfer =>
      (Returned, set_mDisplayData (onTransferFinished transfer (mDisplayData hw)) hw)
  | OpSubmitDisplayFrameTransfer headerResult dataResult =>
      (Returned, submitDisplayFrameTransfer headerResult dataResult hw)
  end.

(** A run of operations; a thrown exception is caught by the caller
    ([runGuarded]) and is recorded here, so that what later calls would do
    can be stated. *)
Fixpoint runOps (ops : list PipelineOp) (hw : PushHardware)
  : list Outcome * PushHardware :=
  match ops with
  | [] => ([], hw)
  | op :: rest =>
      let '(o, hw1) := runOp op hw in
      let '(os, hw2) := runOps rest hw1 in
      (o :: os, hw2)
  end.

(** The operations by which a failure is recorded: a completion with user
    data that is not a success, and a transfer submission that is refused. *)
Inductive recordsFailure : PipelineOp -> Prop :=
| failure_completion (t : libusb_transfer) :
    has_user_data t = true -> ~ completedOk t ->
    recordsFailure (OpTransferFinished (Some t))
| failure_header (headerResult dataResult : Z) :
    headerResult < 0 ->
    recordsFailure (OpSubmitDisplayFrameTransfer headerResult dataResult)
| failure_data (headerResult dataResult : Z) :
    0 <= headerResult -> dataResult < 0 ->
    recordsFailure (OpSubmitDisplayFrameTransfer headerResult dataResult).

(** The facade at the start of the constructor body, after
    [mMessageBuffer.resize(3)]. *)
Definition powerOn : PushHardware :=
  {| mMessageBuffer := [0; 0; 0];
     mScreenBuffer := [];
     mDisplayData := {| mTransferFailed := false;
                        mDisplayError := 0;
                        mUsbTransferBuffer := [];
                        mTransferInProgress := false |};
     midiOut := [];
     usbSubmitted := [] |}.

(** [initDisplay], once the display device is open: both buffers are
    allocated and zeroed. *)
Definition initDisplay (hw : PushHardware) : PushHardware :=
  set_mDisplayData
    (set_mUsbTransferBuffer (repeat 0 (Z.to_nat PUSH_SCREEN_SIZE_BYTES))
       (mDisplayData hw))
    (set_mScreenBuffer
       (repeat 0 (Z.to_nat (PUSH_SCREEN_HEIGHT * PUSH_SCREEN_STRIDE))) hw).

(** The constructor: [resetLEDs(); initDisplay();]. *)
Definition construct : option PushHardware :=
  hw <- resetLEDs powerOn ;; Some (initDisplay hw).

(** The facade after [resetLEDs] in the constructor, evaluated. *)
Definition ledsOff : PushHardware :=
  Eval vm_compute in match resetLEDs powerOn with Some hw => hw | None => powerOn end.

(** The constructed facade, and the facade after its first frame was
    submitted and before any completion was delivered. *)
Definition constructed : PushHardware := initDisplay ledsOff.

Definition firstFrameInFlight : PushHardware :=
  snd (submitScreen {| completions := []; handleEventsResult := 0 |} 0 0 constructed).

(** A successful completion of either transfer. *)
Definition completion (which : Transfer) (len : Z) : option libusb_transfer :=
  Some {| transfer_id := which;
          has_user_data := true;
          status := LIBUSB_TRANSFER_COMPLETED;
          length := len;
          actual_length := len |}.

Definition noEvents : HandleEvents :=
  {| completions := []; handleEventsResult := 0 |}.

Definition frameSent : HandleEvents :=
  {| completions := [completion HeaderTransfer 16;
                     completion DataTransfer PUSH_SCREEN_SIZE_BYTES];
     handleEventsResult := 0 |}.

(** A completion that finishes the pixel payload: the data transfer, with
    user data, reporting success. *)
Definition finishesData (transfer : option libusb_transfer) : Prop :=
  exists t, transfer = Some t /\ has_user_data t = true /\
            completedOk t /\ transfer_id t = DataTransfer.

(** ** The blit, in the specification's words *)

(** The pixels of the screen buffer: [PUSH_SCREEN_HEIGHT] rows of
    [PUSH_SCREEN_STRIDE]. *)
Definition screenPixels : Z := PUSH_SCREEN_HEIGHT * PUSH_SCREEN_STRIDE.

(** An assignment that lands on the device screen: its index is that of a
    column below [PUSH_SCREEN_WIDTH] in a row below [PUSH_SCREEN_HEIGHT]. *)
Definition onScreen (w : PixelCopy) : Prop :=
  exists col row,
    0 <= col < PUSH_SCREEN_WIDTH /\ 0 <= row < PUSH_SCREEN_HEIGHT /\
    destIndex w = col + row * PUSH_SCREEN_STRIDE.

(** An index inside the screen buffer. *)
Definition inBuffer (i : Z) : Prop := 0 <= i < screenPixels.

(** ** Status lights *)

(** Light up up to 8 LEDs in a row, starting at a specific button. *)
Definition setButtonBarLights (numLitButtons firstButtonId : Z) (push : PushHardware)
  : option PushHardware :=
  let colorToUse :=
    if numLitButtons <? 3 then 127
    else if numLitButtons <? 6 then 7
    else 126 in
  for_each
    (fun i h =>
       setButtonLight (int_add firstButtonId i)
         (if i <? numLitButtons then colorToUse else 0) h)
    (loop_range 8) push.

(** The three members of [AbleDoom] that [updateHealthArmorDisplay] keeps. *)
Record StatusLights := {
  mLastHealthButtonCount : Z;
  mLastArmorButtonCount : Z;
  mLastAmmoButtonCount : Z
}.

(** [AbleDoom::updateHealthArmorDisplay]. Its first three lines compute the
    three counts with [valueToButtonCount] (floating point) from the
    player's health, armor and ammunition; the counts are arguments here. *)
Definition updateHealthArmorDisplay
  (healthButtonCount armorButtonCount ammoButtonCount : Z)
  (self : StatusLights) (hw : PushHardware) : option (StatusLights * PushHardware) :=
  (* Show health on screen top buttons *)
  st1 <- (if negb (healthButtonCount =? mLastHealthButtonCount self)
          then hw' <- setButtonBarLights healthButtonCount 102 hw ;;
               Some ({| mLastHealthButtonCount := healthButtonCount;
                        mLastArmorButtonCount := mLastArmorButtonCount self;
                        mLastAmmoButtonCount := mLastAmmoButtonCount self |}, hw')
          else Some (self, hw)) ;;
  (* Show armor on screen bottom buttons *)
  st2 <- (if negb (armorButtonCount =? mLastArmorButtonCount (fst st1))
          then hw' <- setButtonBarLights armorButtonCount 20 (snd st1) ;;
               Some ({| mLastHealthButtonCount := mLastHealthButtonCount (fst st1);
                        mLastArmorButtonCount := armorButtonCount;
                        mLastAmmoButtonCount := mLastAmmoButtonCount (fst st1) |}, hw')
          else Some st1) ;;
  (* Show ammo on scene launch buttons *)
  if negb (ammoButtonCount =? mLastAmmoButtonCount (fst st2))
  then hw' <- setButtonBarLights ammoButtonCount 36 (snd st2) ;;
       Some ({| mLastHealthButtonCount := mLastHealthButtonCount (fst st2);
                mLastArmorButtonCount := mLastArmorButtonCount (fst st2);
                mLastAmmoButtonCount := ammoButtonCount |}, hw')
  else Some st2.

(** The two blits of [AbleDoom::drawFrame]: the main region, then the bottom
    40 rows of the frame beside it. *)
Definition drawFrame_blits (pFrameBuffer : Z -> Z) (hw : PushHardware)
  : option PushHardware :=
  let mainCenter := Z.quot (PUSH_SCREEN_WIDTH - DOOMGENERIC_RESX) 2 in
  hw1 <- copyToScreen pFrameBuffer 0 0 DOOMGENERIC_RESX PUSH_SCREEN_HEIGHT
           mainCenter 0 hw ;;
  copyToScreen pFrameBuffer 0 PUSH_SCREEN_HEIGHT DOOMGENERIC_RESX
    (int_sub DOOMGENERIC_RESY PUSH_SCREEN_HEIGHT)
    (int_add mainCenter DOOMGENERIC_RESX) 0 hw1.


(** ** MIDI port selection *)

Section MidiPorts.
(** [isPushPort] matches the port name against a [std::regex]; the search
    below only uses its answer. *)
Variable isPushPort : string -> bool.

(** The search loop of [initializeMidiIo] over the port names, in port
    order: the number of the first Push port. *)
Definition findPushPort (portNames : list string) : option nat :=
  match find_if isPushPort portNames with
  | Some (i, _) => Some i
  | None => None
  end.

(** [initializeMidiIo]: the port numbers opened on [midiIn] and [midiOut],
    or the message of the [std::runtime_error] thrown. *)
Definition initializeMidiIo (inPortNames outPortNames : list string)
  : (nat * nat) + string :=
  match findPushPort inPortNames with
  | Some inPort =>
      match findPushPort outPortNames with
      | Some outPort => inl (inPort, outPort)
      | None => inr "Couldn't open MIDI out port"%string
      end
  | None => inr "Couldn't open MIDI in port"%string
  end.

End MidiPorts.

(** ** Opening the display device *)

(** What libusb answers about one entry of the device list. *)
Record UsbDeviceInfo := {
  descriptorResult : Z;   (* of [libusb_get_device_descriptor] *)
  idVendor : Z;
  idProduct : Z;
  bDeviceClass : Z;
  openResult : Z;         (* of [libusb_open] *)
  claimResult : Z         (* of [libusb_claim_interface] *)
}.

(** The libusb calls of [openPushDisplayUsbDevice], by device position. *)
Inductive UsbCall :=
| GetDeviceList
| FreeDeviceList
| GetDeviceDescriptor (i : nat)
| Open (i : nat)
| ClaimInterface (i : nat)
| Close (i : nat).

Definition LIBUSB_CLASS_MISCELLANEOUS : Z := 0xEF.

Definition isPushDisplay (d : UsbDeviceInfo) : bool :=
  (idVendor d =? 0x2982) && (idProduct d =? 0x1969)
  && (bDeviceClass d =? LIBUSB_CLASS_MISCELLANEOUS).

(** "Find Push 3 display device": the loop over the null-terminated list.
    The result is the device found and its position, if any, or the error
    thrown. *)
Fixpoint findPushDisplay (devices : list UsbDeviceInfo) (i : nat)
  : (option (nat * UsbDeviceInfo) + Z) * list UsbCall :=
  match devices with
  | [] => (inl None, [])
  | d :: rest =>
      if descriptorResult d <? 0
      then (inr (descriptorResult d), [GetDeviceDescriptor i])
      else if isPushDisplay d
      then (inl (Some (i, d)), [GetDeviceDescriptor i])
      else let '(r, calls) := findPushDisplay rest (S i) in
           (r, GetDeviceDescriptor i :: calls)
  end.

(** How [openPushDisplayUsbDevice] ends: with the handle of a device, or
    throwing. *)
Inductive OpenOutcome :=
| Opened (device : nat)
| OpenThrew (o : Outcome).

(** [openPushDisplayUsbDevice]. [count] is the answer of
    [libusb_get_device_list]. The [defer] guard frees the list when the
    scope is left, after everything else. *)
Definition openPushDisplayUsbDevice (count : Z) (devices : list UsbDeviceInfo)
  : OpenOutcome * list UsbCall :=
  if count <? 0
  then (OpenThrew (ThrowLibUsbError (int_wrap count)), [GetDeviceList])
  else
    let '(found, calls) := findPushDisplay devices 0 in
    let '(outcome, rest) :=
      match found with
      | inr result => (OpenThrew (ThrowLibUsbError result), [])
      | inl None =>
          (OpenThrew (ThrowRuntimeError "Push 3 display device not found!"), [])
      | inl (Some (i, d)) =>
          if openResult d <? 0
          then (OpenThrew (ThrowLibUsbError (openResult d)), [Open i])
          else if claimResult d <? 0
          then (OpenThrew (ThrowLibUsbError (claimResult d)),
                [Open i; ClaimInterface i; Close i])
          else (Opened i, [Open i; ClaimInterface i])
      end in
    (outcome, GetDeviceList :: calls ++ rest ++ [FreeDeviceList]).

(** ** Clock (doomgeneric_pushstandalone.cpp) *)

Record timespec := { tv_sec : Z; tv_nsec : Z }.

(** Two's complement wrap-around of a 64-bit [long]. *)
Definition long_wrap (z : Z) : Z :=
  (z + 9223372036854775808) mod 18446744073709551616 - 9223372036854775808.

Definition uint32 (z : Z) : Z := z mod 4294967296.

(** [DG_GetTicksMs], with [startTime] and the [now] read from the clock as
    arguments; [/] on [long] truncates towards zero. *)
Definition DG_GetTicksMs (startTime now : timespec) : Z :=
  let secsElapsed := long_wrap (tv_sec now - tv_sec startTime) in
  let nanosElapsed := long_wrap (tv_nsec now - tv_nsec startTime) in
  uint32 (long_wrap (long_wrap (secsElapsed * 1000) + Z.quot nanosElapsed 1000000)).

(** ** The signal shaping, byte by byte *)

(** The byte of the pattern 0xFFE7F3E7 that meets byte [i] of a
    little-endian buffer. *)
Definition shapingByte (i : nat) : Z := nth (i mod 4) [0xe7; 0xf3; 0xe7; 0xff] 0.

(** A buffer with every byte from position [i] on combined with its
    pattern byte. *)
Fixpoint shapeFrom (i : nat) (bytes : list Z) : list Z :=
  match bytes with
  | [] => []
  | b :: rest => Z.lxor b (shapingByte i) :: shapeFrom (S i) rest
  end.

(** Whether a count differs from the one last shown, as a number of bars. *)
Definition changed (a b : Z) : nat := if a =? b then 0 else 1.

(** ** The key-event queue, as its consumer sees it *)

(** Whether the mapping table has a row for the event's control. *)
Definition isMapped `{keys : DoomKeys} (input : PushInputEvent) : bool :=
  match findMapping (id input) with
  | Some _ => true
  | None => false
  end.

(** Pulling events with [fetchEvent] until it has none, at most [n] times:
    what a caller polling [DG_GetKey] receives. *)
Fixpoint drain (n : nat) (self : AbleDoom) : list DoomInputEvent * AbleDoom :=
  match n with
  | O => ([], self)
  | S n' =>
      match fetchEvent self with
      | (Some event, self') =>
          let '(events, self'') := drain n' self' in (event :: events, self'')
      | (None, self') => ([], self')
      end
  end.

(** [DG_GetKey] (doomgeneric_pushstandalone.cpp): result, and the values of
    [*pressed] and [*doomKey], which are only written when an event was
    fetched. *)
Definition DG_GetKey (pressed0 doomKey0 : Z) (ableDoom : AbleDoom)
  : (Z * Z * Z) * AbleDoom :=
  match fetchEvent ableDoom with
  | (Some oEvent, ableDoom') =>
      ((1, if dPressed oEvent then 1 else 0, key oEvent), ableDoom')
  | (None, ableDoom') => ((0, pressed0, doomKey0), ableDoom')
  end.

(** The first port of a list that is a Push port. *)
Definition firstMatch (isPushPort : string -> bool) (portNames : list string)
  (i : nat) : Prop :=
  (exists name, nth_error portNames i = Some name /\ isPushPort name = true) /\
  forall k name, (k < i)%nat -> nth_error portNames k = Some name ->
    isPushPort name = false.

(** The calls the device search makes: descriptor reads only. *)
Definition isDescriptorCall (c : UsbCall) : Prop :=
  match c with
  | GetDeviceDescriptor _ => True
  | _ => False
  end.

(** ** The clock, in plain arithmetic *)

(** A [timespec] as [clock_gettime] gives it. *)
Definition normalized (t : timespec) : Prop := 0 <= tv_nsec t < 1000000000.

(** Nanoseconds from [startTime] to [now]. *)
Definition elapsedNanos (startTime now : timespec) : Z :=
  (tv_sec now - tv_sec startTime) * 1000000000 + (tv_nsec now - tv_nsec startTime).

(** Seconds counts far from the ends of [long]. *)
Definition plausible (t : timespec) : Prop :=
  - 4611686018427387 <= tv_sec t <= 4611686018427387.

(** ** Pixels, in the specification's words *)

(** A colour with the given device fields in the top bits of its bytes. *)
Definition colorOfPixel (pixel : Z) : Z :=
  Z.lor (Z.lor (Z.shiftl (redField pixel) 19) (Z.shiftl (greenField pixel) 10))
        (Z.shiftl (blueField pixel) 3).

(** ** Start-up lights *)

Section StartupLights.
Context `{keys : DoomKeys}.

(** The lighting loop of the [AbleDoom] constructor: "turn button lights on
    for any button that's mapped to a key in the mapping table", then the
    Shift button's light. *)
Definition lightMappedControls (hw : PushHardware) : option PushHardware :=
  hw1 <- for_each
           (fun mapping h =>
              setLight (mId mapping)
                (match color mapping with Some c => c | None => 122 end) h)
           INPUT_MAPPING_TABLE hw ;;
  setButtonLight 49 122 hw1.

End StartupLights.

(** The message that lights the control of a table row at start-up. *)
Definition lightMessage (mapping : InputMapping) : list (list Z) :=
  let value := match color mapping with Some c => c | None => 122 end in
  match mId mapping with
  | Pad p =>
      match padNoteNumber (padX p) (padY p) with
      | Some note =>
          [[if value =? 0 then 0x80 else 0x90; uint8 note;
            if value =? 0 then 0 else uint8 value]]
      | None => []
      end
  | Button b => [[0xB0; uint8 b; uint8 value]]
  end.

(** ** Buffer sizes *)

(** The sizes the constructor gives the three buffers of the facade:
    [mMessageBuffer.resize(3)] and the two [resize] calls of [initDisplay]. *)
Definition sized (hw : PushHardware) : Prop :=
  List.length (mMessageBuffer hw) = 3%nat /\
  Z.of_nat (List.length (mScreenBuffer hw)) = screenPixels /\
  Z.of_nat (List.length (mUsbTransferBuffer (mDisplayData hw))) = PUSH_SCREEN_SIZE_BYTES.

(** The states of the facade a client can bring about: the constructor,
    followed by calls of the public member functions that run to their end.
    The raw [copyToScreen] is called as its comment asks, with data of at
    least the screen buffer's size; a [submitScreen] that throws leaves the
    object behind as well. *)
Inductive reachable : PushHardware -> Prop :=
| after_constructor (hw : PushHardware) :
    construct = Some hw -> reachable hw
| after_setButtonLight (number value : Z) (hw hw' : PushHardware) :
    reachable hw -> setButtonLight number value hw = Some hw' -> reachable hw'
| after_setPadLight (x y value : Z) (hw hw' : PushHardware) :
    reachable hw -> setPadLight x y value hw = Some hw' -> reachable hw'
| after_setLight (c : ControlId) (value : Z) (hw hw' : PushHardware) :
    reachable hw -> setLight c value hw = Some hw' -> reachable hw'
| after_resetLEDs (hw hw' : PushHardware) :
    reachable hw -> resetLEDs hw = Some hw' -> reachable hw'
| after_copyToScreen (srcBuffer : Z -> Z)
    (srcX srcY srcWidth srcHeight destX destY : Z) (hw hw' : PushHardware) :
    reachable hw ->
    copyToScreen srcBuffer srcX srcY srcWidth srcHeight destX destY hw = Some hw' ->
    reachable hw'
| after_copyToScreen_raw (data : list Z) (hw : PushHardware) :
    reachable hw ->
    (List.length (mScreenBuffer hw) <= List.length data)%nat ->
    reachable (copyToScreen_raw data hw)
| after_submitScreen (ev : HandleEvents) (headerResult dataResult : Z)
    (hw : PushHardware) :
    reachable hw -> reachable (snd (submitScreen ev headerResult dataResult hw)).


(** * Properties *)

(** ** Helper lemmas *)

(** A property of bytes holds of all of them once it is checked on the 256
    values. *)
Lemma byte_cases (P : Z -> bool) :
  forallb P (loop_range 256) = true ->
  forall b, is_uint8 b -> P b = true.
Proof.
  intros Hall b [Hlo Hhi].
  rewrite forallb_forall in Hall. apply Hall.
  unfold loop_range. apply in_map_iff. exists (Z.to_nat b). split.
  - apply Z2Nat.id; assumption.
  - apply in_seq. lia.
Qed.

Lemma uint8_small (z : Z) : is_uint8 z -> uint8 z = z.
Proof. intros H. apply Z.mod_small. exact H. Qed.

Lemma int_wrap_small (z : Z) : is_int z -> int_wrap z = z.
Proof.
  unfold is_int, INT_MIN, INT_MAX, int_wrap. intros H.
  rewrite Z.mod_small; lia.
Qed.

Lemma in_loop_range (n i : Z) : In i (loop_range n) <-> 0 <= i < n.
Proof.
  unfold loop_range. rewrite in_map_iff. split.
  - intros [k [Hk Hin]]. apply in_seq in Hin. lia.
  - intros H. exists (Z.to_nat i). split; [lia | apply in_seq; lia].
Qed.

Lemma find_if_from_some {A : Type} (p : A -> bool) (l : list A) :
  forall i j a, find_if_from p l i = Some (j, a) ->
    (i <= j)%nat /\ nth_error l (j - i) = Some a /\ p a = true.
Proof.
  induction l as [|x l IH]; intros i j a H; simpl in H.
  - discriminate.
  - destruct (p x) eqn:Hp.
    + inversion H; subst. rewrite Nat.sub_diag. auto.
    + apply IH in H. destruct H as [Hle [Hnth Hpa]].
      split; [lia|]. split; [|exact Hpa].
      replace (j - i)%nat with (S (j - S i)) by lia. exact Hnth.
Qed.

Lemma find_if_some {A : Type} (p : A -> bool) (l : list A) (j : nat) (a : A) :
  find_if p l = Some (j, a) -> nth_error l j = Some a /\ p a = true.
Proof.
  intros H. apply find_if_from_some in H. rewrite Nat.sub_0_r in H. tauto.
Qed.

Lemma find_if_from_exists {A : Type} (p : A -> bool) (l : list A) (a : A) :
  In a l -> p a = true -> forall i, find_if_from p l i <> None.
Proof.
  induction l as [|x l IH]; intros Hin Hp i; simpl.
  - contradiction.
  - destruct (p x) eqn:Hx; [discriminate|].
    destruct Hin as [->|Hin]; [congruence|]. apply IH; assumption.
Qed.

(** ** Control-input decoder *)

Lemma type_nibble (b : Z) (k : Z) :
  is_uint8 b -> In k [0x8; 0x9; 0xB] ->
  (Z.land b 0xF0 =? 16 * k) = (highNibble b =? k).
Proof.
  intros Hb Hk.
  apply Bool.eqb_prop.
  revert b Hb.
  simpl in Hk. destruct Hk as [<-|[<-|[<-|[]]]];
    apply (byte_cases (fun b => Bool.eqb (Z.land b 0xF0 =? _) (highNibble b =? _)));
    vm_compute; reflexivity.
Qed.

Lemma type_other (b : Z) :
  is_uint8 b ->
  highNibble b <> 0x8 -> highNibble b <> 0x9 -> highNibble b <> 0xB ->
  Z.land b 0xF0 <> 0x80 /\ Z.land b 0xF0 <> 0x90 /\ Z.land b 0xF0 <> 0xB0.
Proof.
  intros Hb H8 H9 HB.
  pose proof (type_nibble b 0x8 Hb ltac:(simpl; auto)) as E8.
  pose proof (type_nibble b 0x9 Hb ltac:(simpl; auto)) as E9.
  pose proof (type_nibble b 0xB Hb ltac:(simpl; auto)) as EB.
  apply Z.eqb_neq in H8, H9, HB. rewrite H8 in E8. rewrite H9 in E9. rewrite HB in EB.
  apply Z.eqb_neq in E8, E9, EB. change (16 * 8) with 0x80 in E8.
  change (16 * 9) with 0x90 in E9. change (16 * 11) with 0xB0 in EB. tauto.
Qed.

Lemma isPad_spec (n : Z) : isPad n = true <-> 36 <= n <= 99.
Proof. unfold isPad. rewrite andb_true_iff. lia. Qed.

Lemma decodeEvent_some (type number value : Z) :
  decodeEvent type number value <> None <->
  type = 0xB0 \/ ((type = 0x80 \/ type = 0x90) /\ 36 <= number <= 99).
Proof.
  unfold decodeEvent.
  destruct (Z.eqb_spec type 0x90) as [->|N9].
  - destruct (isPad number) eqn:Hp.
    + apply isPad_spec in Hp. destruct (noteNumberToPadCoordinate number).
      split; [intros _; right; auto | discriminate].
    + split; [congruence|]. intros [H|[_ H]]; [discriminate|].
      apply isPad_spec in H. congruence.
  - destruct (Z.eqb_spec type 0x80) as [->|N8].
    + destruct (isPad number) eqn:Hp.
      * apply isPad_spec in Hp. destruct (noteNumberToPadCoordinate number).
        split; [intros _; right; auto | discriminate].
      * split; [congruence|]. intros [H|[_ H]]; [discriminate|].
        apply isPad_spec in H. congruence.
    + destruct (Z.eqb_spec type 0xB0) as [->|NB].
      * split; [auto | discriminate].
      * split; [congruence|]. intros [H|[[H|H] _]]; congruence.
Qed.

(** C5: [onMessage] hands an event to the input callback exactly for the
    messages of three bytes whose kind nibble is 0x8, 0x9 or 0xB and, under
    0x8 / 0x9, whose number lies in the pad window 36..99; on every other
    message it returns without touching the receiver. *)
Theorem onMessage_event_iff (pMessage : list Z) :
  Forall is_uint8 pMessage ->
  ((exists e, onMessage_event pMessage = Some e /\
      forall (S : Type) (cb : PushInputEvent -> S -> S) (self : S),
        onMessage cb pMessage self = cb e self)
   <-> producesEvent pMessage)
  /\ (~ producesEvent pMessage ->
      onMessage_event pMessage = None /\
      forall (S : Type) (cb : PushInputEvent -> S -> S) (self : S),
        onMessage cb pMessage self = self).
Proof.
  intros Hbytes.
  assert (Hiff : onMessage_event pMessage <> None <-> producesEvent pMessage).
  { unfold producesEvent.
    destruct pMessage as [|b0 [|b1 [|b2 [|b3 rest]]]]; simpl;
      try (split; [congruence | intros [Hlen _]; discriminate]).
    inversion Hbytes as [|? ? Hb0 _]; subst.
    rewrite decodeEvent_some.
    destruct (Z.eq_dec (highNibble b0) 0x8) as [E8|N8];
      [|destruct (Z.eq_dec (highNibble b0) 0x9) as [E9|N9];
        [|destruct (Z.eq_dec (highNibble b0) 0xB) as [EB|NB]]].
    - pose proof (type_nibble b0 0x8 Hb0 ltac:(simpl; auto)) as T.
      rewrite E8, Z.eqb_refl in T. apply Z.eqb_eq in T. rewrite T.
      split.
      + intros [H|[_ H]]; [discriminate|]. split; [reflexivity|]. split; auto.
      + intros [_ [_ H]]. right. split; [left; reflexivity | auto].
    - pose proof (type_nibble b0 0x9 Hb0 ltac:(simpl; auto)) as T.
      rewrite E9, Z.eqb_refl in T. apply Z.eqb_eq in T. rewrite T.
      split.
      + intros [H|[_ H]]; [discriminate|]. split; [reflexivity|]. split; auto.
      + intros [_ [_ H]]. right. split; [right; reflexivity | auto].
    - pose proof (type_nibble b0 0xB Hb0 ltac:(simpl; auto)) as T.
      rewrite EB, Z.eqb_refl in T. apply Z.eqb_eq in T. rewrite T.
      split.
      + intros _. split; [reflexivity|]. split; auto. intros [H|H]; congruence.
      + intros _. left. reflexivity.
    - destruct (type_other b0 Hb0 N8 N9 NB) as [T8 [T9 TB]].
      split.
      + intros [H|[[H|H] _]]; congruence.
      + intros [_ [[H|[H|H]] _]]; congruence. }
  split; [split|].
  - intros [e [He _]]. apply Hiff. congruence.
  - intros Hp. apply Hiff in Hp.
    destruct (onMessage_event pMessage) as [e|] eqn:He; [|congruence].
    exists e. split; [reflexivity|]. intros S cb self.
    unfold onMessage. rewrite He. reflexivity.
  - intros Hn.
    destruct (onMessage_event pMessage) as [e|] eqn:He.
    + exfalso. apply Hn, Hiff. congruence.
    + split; [reflexivity|]. intros S cb self.
      unfold onMessage. rewrite He. reflexivity.
Qed.

Lemma onMessage_event_iff_witness :
  Forall is_uint8 [0x93; 40; 1] /\
  producesEvent [0x93; 40; 1] /\
  exists e, onMessage_event [0x93; 40; 1] = Some e.
Proof.
  assert (Hb : Forall is_uint8 [0x93; 40; 1])
    by (repeat constructor; unfold is_uint8; lia).
  assert (Hp : producesEvent [0x93; 40; 1]).
  { split; [reflexivity|]. simpl. split.
    - right; left; reflexivity.
    - intros _. lia. }
  split; [exact Hb|]. split; [exact Hp|].
  destruct (onMessage_event_iff [0x93; 40; 1] Hb) as [[_ H] _].
  destruct (H Hp) as [e [He _]]. exists e. exact He.
Defined.

(** C6: a three-byte message of kind 0xB decodes to the Button event whose
    id is byte 1 and whose pressed flag is true exactly when byte 2 is 127;
    {0xB0, 49, 127} is Button 49 pressed, and {0x90, 36, 100} is the pad at
    x = 0, y = 7 pressed. *)
Theorem control_change_decodes (b0 b1 b2 : Z) :
  is_uint8 b0 ->
  highNibble b0 = 0xB ->
  (exists p,
     onMessage_event [b0; b1; b2] = Some {| id := Button b1; pressed := p |} /\
     (p = true <-> b2 = 127))
  /\ onMessage_event [0xB0; 49; 127] = Some {| id := Button 49; pressed := true |}
  /\ onMessage_event [0x90; 36; 100]
     = Some {| id := Pad {| padX := 0; padY := 7 |}; pressed := true |}.
Proof.
  intros Hb0 HB. split; [|split; reflexivity].
  exists (b2 =? 127). split; [|apply Z.eqb_eq].
  pose proof (type_nibble b0 0xB Hb0 ltac:(simpl; auto)) as T.
  rewrite HB, Z.eqb_refl in T. apply Z.eqb_eq in T.
  unfold onMessage_event. rewrite T. reflexivity.
Qed.

Lemma control_change_decodes_witness :
  is_uint8 0xB5 /\ highNibble 0xB5 = 0xB /\
  exists p,
    onMessage_event [0xB5; 82; 0] = Some {| id := Button 82; pressed := p |} /\
    (p = true <-> 0 = 127).
Proof.
  assert (Hb : is_uint8 0xB5) by (unfold is_uint8; lia).
  split; [exact Hb|]. split; [reflexivity|].
  exact (proj1 (control_change_decodes 0xB5 82 0 Hb eq_refl)).
Defined.

(** ** Pad note numbers *)

Lemma row_start_bounds (j : nat) (a : Z) :
  nth_error Y_TO_PAD_ROW_START j = Some a -> 36 <= a <= 92 /\ (j < 8)%nat.
Proof.
  intros H.
  assert (Hj : (j < 8)%nat).
  { change 8%nat with (List.length Y_TO_PAD_ROW_START).
    apply nth_error_Some. rewrite H. discriminate. }
  split; [|exact Hj].
  do 8 (destruct j as [|j]; [inversion H; lia|]). lia.
Qed.

Lemma storeMessage_sent (b0 b1 b2 : Z) (hw : PushHardware) :
  List.length (mMessageBuffer hw) = 3%nat ->
  exists hw', storeMessage b0 b1 b2 hw = Some hw' /\
    mMessageBuffer hw' = [b0; b1; b2] /\
    midiOut hw' = midiOut hw /\
    mScreenBuffer hw' = mScreenBuffer hw /\
    mDisplayData hw' = mDisplayData hw /\
    usbSubmitted hw' = usbSubmitted hw.
Proof.
  intros Hlen. destruct hw as [m s d o u]. simpl in *.
  destruct m as [|m0 [|m1 [|m2 [|m3 rest]]]]; try discriminate.
  eexists. split; [reflexivity|]. simpl. auto.
Qed.

(** C4: for a note number of the pad window 36..99, the coordinate the
    decoder's row table gives, fed to the note-number computation of
    [setPadLight], is that note number again; it is byte 1 of the message
    [setPadLight] sends for that coordinate. *)
Theorem pad_note_roundtrip (n : Z) :
  36 <= n <= 99 ->
  let x := fst (noteNumberToPadCoordinate n) in
  let y := snd (noteNumberToPadCoordinate n) in
  padNoteNumber x y = Some n /\
  forall (value : Z) (hw : PushHardware),
    List.length (mMessageBuffer hw) = 3%nat ->
    exists hw' kind velocity,
      setPadLight x y value hw = Some hw' /\
      midiOut hw' = midiOut hw ++ [[kind; n; velocity]].
Proof.
  intros Hn x y.
  assert (Hnote : padNoteNumber x y = Some n).
  { subst x y. unfold noteNumberToPadCoordinate.
    destruct (find_if (fun value => n >=? value) Y_TO_PAD_ROW_START)
      as [[j a]|] eqn:Hfind.
    - apply find_if_some in Hfind. destruct Hfind as [Hnth Hge].
      destruct (row_start_bounds j a Hnth) as [Ha Hj].
      apply Z.geb_le in Hge. simpl fst. simpl snd.
      rewrite (uint8_small (n - a)) by (unfold is_uint8; lia).
      rewrite (uint8_small (Z.of_nat j)) by (unfold is_uint8; lia).
      unfold padNoteNumber, array_load.
      destruct (Z.ltb_spec (Z.of_nat j) 0); [lia|].
      rewrite Nat2Z.id, Hnth. simpl. unfold int_add.
      rewrite int_wrap_small by (unfold is_int, INT_MIN, INT_MAX; lia).
      f_equal. lia.
    - exfalso. revert Hfind. apply (find_if_from_exists _ _ 36).
      + simpl. tauto.
      + apply Z.geb_le. lia. }
  split; [exact Hnote|].
  intros value hw Hlen. unfold setPadLight. rewrite Hnote. simpl bind.
  rewrite (uint8_small n) by (unfold is_uint8; lia).
  destruct (value =? 0).
  - destruct (storeMessage_sent 0x80 n 0 hw Hlen) as [hw' [Hs [Hm [Ho _]]]].
    exists (sendMessage hw'), 0x80, 0. rewrite Hs. simpl.
    rewrite Hm, Ho. auto.
  - destruct (storeMessage_sent 0x90 n (uint8 value) hw Hlen)
      as [hw' [Hs [Hm [Ho _]]]].
    exists (sendMessage hw'), 0x90, (uint8 value). rewrite Hs. simpl.
    rewrite Hm, Ho. auto.
Qed.

Lemma pad_note_roundtrip_witness :
  36 <= 67 <= 99 /\
  noteNumberToPadCoordinate 67 = (7, 4) /\
  padNoteNumber 7 4 = Some 67.
Proof.
  split; [lia|]. split; [reflexivity|].
  exact (proj1 (pad_note_roundtrip 67 ltac:(lia))).
Defined.

(** ** Pixel converter *)

(** Proves a closed equation between bit operations on one byte by checking
    the 256 bytes. *)
Ltac by_byte_cases b Hb :=
  revert b Hb;
  match goal with
  | |- forall b, is_uint8 b -> @?l b = @?r b =>
      intros b Hb; apply Z.eqb_eq;
      apply (byte_cases (fun b => l b =? r b)); [vm_compute; reflexivity | exact Hb]
  end.

Lemma blue_part (b : Z) (Hb : is_uint8 b) :
  let X := Z.shiftl (Z.land b 0xF8) 8 in
  Z.land X 0xFFFF = X /\
  Z.land (Z.shiftr X 11) 0x1F = Z.shiftr b 3 /\
  Z.land (Z.shiftr X 5) 0x3F = 0 /\
  Z.land X 0x1F = 0.
Proof. cbv zeta. repeat split; by_byte_cases b Hb. Qed.

Lemma green_part (g : Z) (Hg : is_uint8 g) :
  let Y := Z.shiftl (Z.land g 0xFC) 3 in
  Z.land Y 0xFFFF = Y /\
  Z.land (Z.shiftr Y 11) 0x1F = 0 /\
  Z.land (Z.shiftr Y 5) 0x3F = Z.shiftr g 2 /\
  Z.land Y 0x1F = 0.
Proof. cbv zeta. repeat split; by_byte_cases g Hg. Qed.

Lemma red_part (r : Z) (Hr : is_uint8 r) :
  let W := Z.shiftr r 3 in
  Z.land W 0xFFFF = W /\
  Z.land (Z.shiftr W 11) 0x1F = 0 /\
  Z.land (Z.shiftr W 5) 0x3F = 0 /\
  Z.land W 0x1F = Z.shiftr r 3.
Proof. cbv zeta. repeat split; by_byte_cases r Hr. Qed.

Lemma color_bytes (color : Z) :
  Z.shiftr (Z.land color 0x00FF0000) 16 = redByte color /\
  Z.shiftr (Z.land color 0x0000FF00) 8 = greenByte color /\
  Z.land color 0x000000FF = blueByte color.
Proof.
  unfold redByte, greenByte, blueByte.
  rewrite !Z.shiftr_land.
  change (Z.shiftr 0x00FF0000 16) with (Z.ones 8).
  change (Z.shiftr 0x0000FF00 8) with (Z.ones 8).
  change 0x000000FF with (Z.ones 8).
  rewrite !Z.land_ones by lia. auto.
Qed.

Lemma byte_is_uint8 (z : Z) : is_uint8 (z mod 256).
Proof. unfold is_uint8. apply Z.mod_pos_bound. lia. Qed.

(** C7: [toBGR565] is a total function of the colour that puts the top five
    bits of the blue byte in bits 15..11, the top six bits of the green byte
    in bits 10..5 and the top five bits of the red byte in bits 4..0, and
    nothing else; pure red, green and blue give the fields 0x1F, 0x3F and
    0x1F with the other two fields zero. *)
Theorem toBGR565_fields (color : Z) :
  (0 <= toBGR565 color < 65536 /\
   blueField (toBGR565 color) = Z.shiftr (blueByte color) 3 /\
   greenField (toBGR565 color) = Z.shiftr (greenByte color) 2 /\
   redField (toBGR565 color) = Z.shiftr (redByte color) 3 /\
   toBGR565 color
   = 2048 * blueField (toBGR565 color) + 32 * greenField (toBGR565 color)
     + redField (toBGR565 color))
  /\ (redField (toBGR565 0xFF0000) = 0x1F /\
      greenField (toBGR565 0xFF0000) = 0 /\ blueField (toBGR565 0xFF0000) = 0)
  /\ (greenField (toBGR565 0x00FF00) = 0x3F /\
      redField (toBGR565 0x00FF00) = 0 /\ blueField (toBGR565 0x00FF00) = 0)
  /\ (blueField (toBGR565 0x0000FF) = 0x1F /\
      redField (toBGR565 0x0000FF) = 0 /\ greenField (toBGR565 0x0000FF) = 0).
Proof.
  split; [|repeat split; reflexivity].
  assert (Hrange : 0 <= toBGR565 color < 65536).
  { unfold toBGR565, uint16. apply Z.mod_pos_bound. lia. }
  assert (Hpacked :
    toBGR565 color
    = Z.lor (Z.lor (Z.shiftl (Z.land (blueByte color) 0xF8) 8)
                   (Z.shiftl (Z.land (greenByte color) 0xFC) 3))
            (Z.shiftr (redByte color) 3)).
  { unfold toBGR565. cbv zeta.
    destruct (color_bytes color) as [-> [-> ->]].
    destruct (blue_part _ (byte_is_uint8 color)) as [HX _].
    destruct (green_part _ (byte_is_uint8 (Z.shiftr color 8))) as [HY _].
    destruct (red_part _ (byte_is_uint8 (Z.shiftr color 16))) as [HW _].
    fold (blueByte color) in HX. fold (greenByte color) in HY.
    fold (redByte color) in HW.
    unfold uint16. change 65536 with (2 ^ 16).
    rewrite <- Z.land_ones by lia. change (Z.ones 16) with 0xFFFF.
    rewrite !Z.land_lor_distr_l, HX, HY, HW. reflexivity. }
  destruct (blue_part _ (byte_is_uint8 color)) as [_ [Xb [Xg Xr]]].
  destruct (green_part _ (byte_is_uint8 (Z.shiftr color 8))) as [_ [Yb [Yg Yr]]].
  destruct (red_part _ (byte_is_uint8 (Z.shiftr color 16))) as [_ [Wb [Wg Wr]]].
  fold (blueByte color) in Xb, Xg, Xr. fold (greenByte color) in Yb, Yg, Yr.
  fold (redByte color) in Wb, Wg, Wr.
  assert (Hblue : blueField (toBGR565 color) = Z.shiftr (blueByte color) 3).
  { unfold blueField. rewrite Hpacked, !Z.shiftr_lor, !Z.land_lor_distr_l.
    rewrite Xb, Yb, Wb, !Z.lor_0_r. reflexivity. }
  assert (Hgreen : greenField (toBGR565 color) = Z.shiftr (greenByte color) 2).
  { unfold greenField. rewrite Hpacked, !Z.shiftr_lor, !Z.land_lor_distr_l.
    rewrite Xg, Yg, Wg, Z.lor_0_l, Z.lor_0_r. reflexivity. }
  assert (Hred : redField (toBGR565 color) = Z.shiftr (redByte color) 3).
  { unfold redField. rewrite Hpacked, !Z.land_lor_distr_l.
    rewrite Xr, Yr, Wr, !Z.lor_0_l. reflexivity. }
  repeat split; try assumption; try apply Hrange.
  clear Hpacked Hblue Hgreen Hred Xb Xg Xr Yb Yg Yr Wb Wg Wr.
  unfold blueField, greenField, redField.
  change 0x1F with (Z.ones 5). change 0x3F with (Z.ones 6).
  rewrite !Z.land_ones, !Z.shiftr_div_pow2 by lia.
  change (2 ^ 5) with 32. change (2 ^ 6) with 64. change (2 ^ 11) with 2048.
  generalize dependent (toBGR565 color). intros p Hp.
  Z.div_mod_to_equations. lia.
Qed.

(** ** LED output driver *)

Lemma sends_setButtonLight (number value : Z) :
  sends (setButtonLight number value) [[0xB0; uint8 number; uint8 value]].
Proof.
  intros hw Hlen. unfold setButtonLight.
  destruct (storeMessage_sent 0xB0 (uint8 number) (uint8 value) hw Hlen)
    as [hw' [Hs [Hm [Ho [Hsc [Hd Hu]]]]]].
  exists (sendMessage hw'). rewrite Hs. simpl. rewrite Hm, Ho. auto 6.
Qed.

Lemma sends_setPadLight_off (x y note : Z) :
  padNoteNumber x y = Some note ->
  sends (setPadLight x y 0) [[0x80; uint8 note; 0]].
Proof.
  intros Hnote hw Hlen. unfold setPadLight. rewrite Hnote. simpl.
  destruct (storeMessage_sent 0x80 (uint8 note) 0 hw Hlen)
    as [hw' [Hs [Hm [Ho [Hsc [Hd Hu]]]]]].
  exists (sendMessage hw'). rewrite Hs. simpl. rewrite Hm, Ho. auto 6.
Qed.

Lemma sends_for_each {A : Type} (body : A -> PushHardware -> option PushHardware)
  (msgs : A -> list (list Z)) (l : list A) :
  (forall a, In a l -> sends (body a) (msgs a)) ->
  sends (for_each body l) (flat_map msgs l).
Proof.
  induction l as [|a l IH]; intros Hbody hw Hlen; simpl.
  - exists hw. rewrite app_nil_r. auto 6.
  - destruct (Hbody a (or_introl eq_refl) hw Hlen)
      as [hw1 [H1 [Ho1 [Hl1 [Hs1 [Hd1 Hu1]]]]]].
    destruct (IH (fun b Hb => Hbody b (or_intror Hb)) hw1 Hl1)
      as [hw2 [H2 [Ho2 [Hl2 [Hs2 [Hd2 Hu2]]]]]].
    exists hw2. rewrite H1. simpl. rewrite H2.
    rewrite Ho2, Ho1, <- app_assoc. split; [reflexivity|].
    split; [reflexivity|]. split; [exact Hl2|]. repeat split; congruence.
Qed.

Lemma sends_seq (op1 op2 : PushHardware -> option PushHardware)
  (m1 m2 : list (list Z)) :
  sends op1 m1 -> sends op2 m2 ->
  sends (fun hw => hw1 <- op1 hw ;; op2 hw1) (m1 ++ m2).
Proof.
  intros S1 S2 hw Hlen.
  destruct (S1 hw Hlen) as [hw1 [H1 [Ho1 [Hl1 [Hs1 [Hd1 Hu1]]]]]].
  destruct (S2 hw1 Hl1) as [hw2 [H2 [Ho2 [Hl2 [Hs2 [Hd2 Hu2]]]]]].
  exists hw2. rewrite H1. simpl. rewrite H2, Ho2, Ho1, app_assoc.
  repeat split; congruence.
Qed.

Lemma kAllButtons_eq : kAllButtons = Some kAllButtons_value.
Proof. vm_compute. reflexivity. Qed.

Lemma padNoteNumber_grid (x y : Z) :
  In x (loop_range 8) -> In y (loop_range 8) ->
  exists note, padNoteNumber x y = Some note.
Proof.
  rewrite !in_loop_range. intros Hx Hy.
  unfold padNoteNumber, array_load.
  destruct (Z.ltb_spec y 0); [lia|].
  destruct (nth_error Y_TO_PAD_ROW_START (Z.to_nat y)) as [rowStart|] eqn:Hnth.
  - eexists. reflexivity.
  - apply nth_error_None in Hnth. simpl in Hnth. lia.
Qed.

Lemma resetLEDs_sends : sends resetLEDs resetLEDs_messages.
Proof.
  set (buttonLoop := for_each (fun button h => setButtonLight button 0 h)
                       kAllButtons_value).
  set (padLoop := for_each
                    (fun y h => for_each (fun x h' => setPadLight x y 0 h')
                                  (loop_range 8) h)
                    (loop_range 8)).
  assert (Hbuttons : sends buttonLoop
            (flat_map (fun button => [[0xB0; uint8 button; uint8 0]])
               kAllButtons_value)).
  { apply sends_for_each. intros button _. apply sends_setButtonLight. }
  assert (Hpads : sends padLoop
            (flat_map
               (fun y =>
                  flat_map
                    (fun x =>
                       match padNoteNumber x y with
                       | Some note => [[0x80; uint8 note; 0]]
                       | None => []
                       end)
                    (loop_range 8))
               (loop_range 8))).
  { apply sends_for_each. intros y Hy.
    apply sends_for_each. intros x Hx.
    destruct (padNoteNumber_grid x y Hx Hy) as [note Hnote].
    rewrite Hnote. apply sends_setPadLight_off. exact Hnote. }
  pose proof (sends_seq _ _ _ _ Hbuttons Hpads) as Hboth.
  intros hw Hlen.
  replace (resetLEDs hw) with (hw1 <- buttonLoop hw ;; padLoop hw1)
    by (unfold resetLEDs; rewrite kAllButtons_eq; reflexivity).
  exact (Hboth hw Hlen).
Qed.

Lemma validButtonb_spec (n : Z) : validButtonb n = true <-> validButton n.
Proof.
  unfold validButtonb, validButton.
  rewrite !orb_true_iff, !andb_true_iff, negb_true_iff, !Z.eqb_eq, !Z.leb_le.
  assert (Hex : existsb (Z.eqb n) exclusionList = false <-> ~ In n exclusionList).
  { rewrite <- not_true_iff_false, existsb_exists. split.
    - intros H Hin. apply H. exists n. split; [exact Hin | apply Z.eqb_refl].
    - intros H [m [Hin Hm]]. apply Z.eqb_eq in Hm. subst. auto. }
  rewrite Hex. tauto.
Qed.

Lemma button_counts :
  forallb (fun n => negb (validButtonb n)
                    || (countMessage (buttonOff n) resetLEDs_messages =? 1)%nat)
          (loop_range 256) = true.
Proof. vm_compute. reflexivity. Qed.

Lemma pad_counts :
  forallb (fun n => negb ((36 <=? n) && (n <=? 99))
                    || (countMessage (padOff n) resetLEDs_messages =? 1)%nat)
          (loop_range 256) = true.
Proof. vm_compute. reflexivity. Qed.

Lemma valid_button_once (n : Z) :
  validButton n -> countMessage (buttonOff n) resetLEDs_messages = 1%nat.
Proof.
  intros Hn.
  assert (Hb : is_uint8 n).
  { unfold validButton in Hn. unfold is_uint8. lia. }
  apply validButtonb_spec in Hn. apply Nat.eqb_eq.
  pose proof (byte_cases _ button_counts n Hb) as Hall.
  cbv beta in Hall. rewrite Hn in Hall.
  change (negb true) with false in Hall.
  rewrite orb_false_l in Hall. exact Hall.
Qed.

Lemma pad_note_once (note : Z) :
  36 <= note <= 99 -> countMessage (padOff note) resetLEDs_messages = 1%nat.
Proof.
  intros Hnote.
  assert (Hb : is_uint8 note) by (unfold is_uint8; lia).
  assert (Hw : (36 <=? note) && (note <=? 99) = true)
    by (apply andb_true_iff; split; apply Z.leb_le; lia).
  apply Nat.eqb_eq.
  pose proof (byte_cases _ pad_counts note Hb) as Hall.
  cbv beta in Hall. rewrite Hw in Hall.
  change (negb true) with false in Hall.
  rewrite orb_false_l in Hall. exact Hall.
Qed.

Lemma message_totals :
  List.length (filter (fun m => nth 0 m 0 =? 0x80) resetLEDs_messages) = 64%nat /\
  List.length (filter (fun m => nth 0 m 0 =? 0xB0) resetLEDs_messages) = 102%nat /\
  countMessage (buttonOff 0) resetLEDs_messages = 10%nat.
Proof. repeat split; vm_compute; reflexivity. Qed.

(** C1, as the code has it: [resetLEDs] sends one off-command for every
    valid button number and one pad off-command for every note of the 8x8
    grid, 64 in all; but it also sends ten off-commands for button number 0,
    which is no valid button number: the ten skipped slots of [kAllButtons]
    keep their initial 0 and are sent like the others. *)
Theorem resetLEDs_sends_button_zero (hw : PushHardware) :
  List.length (mMessageBuffer hw) = 3%nat ->
  exists hw' sent,
    resetLEDs hw = Some hw' /\
    midiOut hw' = midiOut hw ++ sent /\
    (forall n, validButton n -> countMessage (buttonOff n) sent = 1%nat) /\
    (forall note, 36 <= note <= 99 -> countMessage (padOff note) sent = 1%nat) /\
    List.length (filter (fun m => nth 0 m 0 =? 0x80) sent) = 64%nat /\
    List.length (filter (fun m => nth 0 m 0 =? 0xB0) sent) = 102%nat /\
    ~ validButton 0 /\
    countMessage (buttonOff 0) sent = 10%nat.
Proof.
  intros Hlen.
  destruct (resetLEDs_sends hw Hlen) as [hw' [Hr [Ho _]]].
  destruct message_totals as [Hpads [Hbuttons Hzero]].
  exists hw', resetLEDs_messages.
  split; [exact Hr|]. split; [exact Ho|].
  split; [exact valid_button_once|]. split; [exact pad_note_once|].
  split; [exact Hpads|]. split; [exact Hbuttons|]. split; [|exact Hzero].
  intros Hv. apply validButtonb_spec in Hv. discriminate.
Qed.

Lemma resetLEDs_sends_button_zero_witness :
  exists hw' sent,
    resetLEDs {| mMessageBuffer := [0; 0; 0];
                 mScreenBuffer := [];
                 mDisplayData := {| mTransferFailed := false;
                                    mDisplayError := 0;
                                    mUsbTransferBuffer := [];
                                    mTransferInProgress := false |};
                 midiOut := [];
                 usbSubmitted := [] |} = Some hw' /\
    midiOut hw' = sent /\
    countMessage (buttonOff 0) sent = 10%nat.
Proof.
  destruct (resetLEDs_sends_button_zero
              {| mMessageBuffer := [0; 0; 0];
                 mScreenBuffer := [];
                 mDisplayData := {| mTransferFailed := false;
                                    mDisplayError := 0;
                                    mUsbTransferBuffer := [];
                                    mTransferInProgress := false |};
                 midiOut := [];
                 usbSubmitted := [] |} eq_refl)
    as [hw' [sent [Hr [Ho [_ [_ [_ [_ [_ Hz]]]]]]]]].
  exists hw', sent. simpl in Ho. auto.
Defined.

(** ** Display transfer pipeline *)

Lemma set_mDisplayData_same (hw : PushHardware) :
  set_mDisplayData (mDisplayData hw) hw = hw.
Proof. destruct hw. reflexivity. Qed.

Lemma completedOk_dec (t : libusb_transfer) :
  negb (is_completed (status t)) || negb (length t =? actual_length t) = false
  <-> completedOk t.
Proof.
  unfold completedOk. rewrite orb_false_iff, !negb_false_iff, Z.eqb_eq.
  destruct (status t); simpl; intuition congruence.
Qed.

Lemma not_completedOk_dec (t : libusb_transfer) :
  negb (is_completed (status t)) || negb (length t =? actual_length t) = true
  <-> ~ completedOk t.
Proof.
  rewrite <- completedOk_dec.
  destruct (negb (is_completed (status t)) || negb (length t =? actual_length t));
    intuition congruence.
Qed.

Lemma onTransferFinished_quiet (transfer : option libusb_transfer) (d : DisplayData) :
  quiet transfer -> onTransferFinished transfer d = d.
Proof.
  destruct transfer as [t|]; simpl; [|reflexivity].
  intros [Hu|[Hok Hid]].
  - rewrite Hu. reflexivity.
  - destruct (has_user_data t); [|reflexivity]. simpl.
    apply completedOk_dec in Hok. rewrite Hok, Hid. reflexivity.
Qed.

Lemma deliver_quiet (ev : HandleEvents) (d : DisplayData) :
  Forall quiet (completions ev) -> deliver ev d = d.
Proof.
  unfold deliver. induction (completions ev) as [|t l IH]; intros H; simpl.
  - reflexivity.
  - inversion H; subst. rewrite onTransferFinished_quiet by assumption. auto.
Qed.

Lemma onTransferFinished_failed (transfer : option libusb_transfer) (d : DisplayData) :
  failedState d -> failedState (onTransferFinished transfer d).
Proof.
  unfold failedState, onTransferFinished. intros H.
  destruct transfer as [t|]; [|exact H].
  destruct (negb (has_user_data t)); [exact H|].
  destruct (negb (is_completed (status t)) || negb (length t =? actual_length t));
    [left; reflexivity|].
  destruct (Transfer_eqb (transfer_id t) DataTransfer); exact H.
Qed.

Lemma submitDisplayFrameTransfer_failed (headerResult dataResult : Z)
  (hw : PushHardware) :
  failedState (mDisplayData hw) ->
  failedState (mDisplayData (submitDisplayFrameTransfer headerResult dataResult hw)).
Proof.
  unfold failedState, submitDisplayFrameTransfer. intros H.
  destruct (Z.ltb_spec headerResult 0); simpl; [right; assumption|].
  destruct (Z.ltb_spec dataResult 0); simpl; [right; assumption|exact H].
Qed.

Lemma submitScreen_failed (ev : HandleEvents) (headerResult dataResult : Z)
  (hw : PushHardware) :
  failedState (mDisplayData hw) ->
  threw (fst (submitScreen ev headerResult dataResult hw)) = true /\
  snd (submitScreen ev headerResult dataResult hw) = hw.
Proof.
  unfold failedState, submitScreen. intros H.
  assert (Hpump : negb (mTransferFailed (mDisplayData hw))
                  && (mDisplayError (mDisplayData hw) >=? 0) = false).
  { destruct H as [H|H].
    - rewrite H. reflexivity.
    - apply andb_false_iff. right. rewrite Z.geb_leb. apply Z.leb_gt. exact H. }
  rewrite Hpump. simpl andb. cbv iota.
  destruct (Z.ltb_spec (mDisplayError (mDisplayData hw)) 0) as [Hneg|Hpos].
  - split; reflexivity.
  - destruct H as [H|H]; [|lia]. rewrite H. split; reflexivity.
Qed.

Lemma runOp_failed (op : PipelineOp) (hw : PushHardware) :
  failedState (mDisplayData hw) -> failedState (mDisplayData (snd (runOp op hw))).
Proof.
  intros H. destruct op as [ev hr dr|transfer|hr dr]; simpl.
  - destruct (submitScreen_failed ev hr dr hw H) as [_ ->]. exact H.
  - apply onTransferFinished_failed. exact H.
  - apply submitDisplayFrameTransfer_failed. exact H.
Qed.

Lemma recordsFailure_failed (op : PipelineOp) (hw : PushHardware) :
  recordsFailure op -> failedState (mDisplayData (snd (runOp op hw))).
Proof.
  intros [t Hu Hnok|hr dr Hh|hr dr Hh Hd]; simpl.
  - left. rewrite Hu. simpl. apply not_completedOk_dec in Hnok.
    rewrite Hnok. reflexivity.
  - right. unfold submitDisplayFrameTransfer.
    destruct (Z.ltb_spec hr 0); [simpl; assumption | lia].
  - right. unfold submitDisplayFrameTransfer.
    destruct (Z.ltb_spec hr 0); [lia|].
    destruct (Z.ltb_spec dr 0); [simpl; assumption | lia].
Qed.

Lemma runOps_failed (ops : list PipelineOp) :
  forall hw, failedState (mDisplayData hw) ->
    failedState (mDisplayData (snd (runOps ops hw))) /\
    List.length (fst (runOps ops hw)) = List.length ops /\
    forall i ev headerResult dataResult,
      nth_error ops i = Some (OpSubmitScreen ev headerResult dataResult) ->
      exists o, nth_error (fst (runOps ops hw)) i = Some o /\ threw o = true.
Proof.
  induction ops as [|op rest IH]; intros hw Hf; simpl.
  - split; [exact Hf|]. split; [reflexivity|].
    intros [|i] ev hr dr H; discriminate.
  - destruct (runOp op hw) as [o hw1] eqn:Hop.
    assert (Hf1 : failedState (mDisplayData hw1)).
    { replace hw1 with (snd (runOp op hw)) by (rewrite Hop; reflexivity).
      apply runOp_failed. exact Hf. }
    destruct (IH hw1 Hf1) as [Hend [Hlen Hsub]].
    destruct (runOps rest hw1) as [os hw2]. simpl in *.
    split; [exact Hend|]. split; [congruence|].
    intros [|i] ev hr dr H; simpl in *.
    + inversion H; subst. exists o. split; [reflexivity|].
      simpl in Hop.
      replace o with (fst (submitScreen ev hr dr hw)) by (rewrite Hop; reflexivity).
      apply submitScreen_failed. exact Hf.
    + eapply Hsub. exact H.
Qed.

(** C3: once a failure is recorded - [mTransferFailed] set, or a negative
    [mDisplayError], whether found in the state or just recorded by a failed
    completion or a refused submission - every later [submitScreen] throws,
    whatever the pump and the USB stack would answer, and no run of pipeline
    operations leaves the failed state. *)
Theorem failure_is_sticky (hw : PushHardware) (ops : list PipelineOp) :
  failedState (mDisplayData hw)
  \/ (exists hw0 op, recordsFailure op /\ hw = snd (runOp op hw0)) ->
  failedState (mDisplayData (snd (runOps ops hw))) /\
  List.length (fst (runOps ops hw)) = List.length ops /\
  (forall i ev headerResult dataResult,
     nth_error ops i = Some (OpSubmitScreen ev headerResult dataResult) ->
     exists o, nth_error (fst (runOps ops hw)) i = Some o /\ threw o = true) /\
  (forall ev headerResult dataResult,
     threw (fst (submitScreen ev headerResult dataResult hw)) = true /\
     snd (submitScreen ev headerResult dataResult hw) = hw).
Proof.
  intros H.
  assert (Hf : failedState (mDisplayData hw)).
  { destruct H as [H|[hw0 [op [Hrec ->]]]]; [exact H|].
    apply recordsFailure_failed. exact Hrec. }
  destruct (runOps_failed ops hw Hf) as [Hend [Hlen Hsub]].
  split; [exact Hend|]. split; [exact Hlen|]. split; [exact Hsub|].
  intros ev hr dr. apply submitScreen_failed. exact Hf.
Qed.

Lemma failure_is_sticky_witness :
  let short := {| transfer_id := DataTransfer;
                  has_user_data := true;
                  status := LIBUSB_TRANSFER_COMPLETED;
                  length := 327680;
                  actual_length := 512 |} in
  let hw := snd (runOp (OpTransferFinished (Some short)) powerOn) in
  recordsFailure (OpTransferFinished (Some short)) /\
  fst (runOps [OpSubmitScreen frameSent 0 0; OpSubmitScreen noEvents 0 0] hw)
  = [ThrowRuntimeError "Display USB transfer failed";
     ThrowRuntimeError "Display USB transfer failed"] /\
  failedState
    (mDisplayData
       (snd (runOps [OpSubmitScreen frameSent 0 0; OpSubmitScreen noEvents 0 0] hw))).
Proof.
  intros short hw.
  assert (Hrec : recordsFailure (OpTransferFinished (Some short))).
  { apply failure_completion; [reflexivity|].
    intros [_ Hl]. discriminate Hl. }
  split; [exact Hrec|]. split; [reflexivity|].
  exact (proj1 (failure_is_sticky hw
                  [OpSubmitScreen frameSent 0 0; OpSubmitScreen noEvents 0 0]
                  (or_intror (ex_intro _ powerOn (ex_intro _ _ (conj Hrec eq_refl)))))).
Defined.

Lemma deliver_clears (l : list (option libusb_transfer)) :
  forall d, mTransferInProgress d = true ->
    mTransferInProgress (fold_left (fun d t => onTransferFinished t d) l d) = false ->
    exists transfer, In transfer l /\ finishesData transfer.
Proof.
  induction l as [|transfer l IH]; intros d Hin Hout; simpl in Hout.
  - congruence.
  - destruct (mTransferInProgress (onTransferFinished transfer d)) eqn:Hstep.
    + destruct (IH _ Hstep Hout) as [t' [Ht' Hfin]].
      exists t'. split; [right; exact Ht' | exact Hfin].
    + exists transfer. split; [left; reflexivity|].
      unfold onTransferFinished in Hstep.
      destruct transfer as [t|]; [|congruence].
      destruct (has_user_data t) eqn:Hu; simpl in Hstep; [|congruence].
      destruct (negb (is_completed (status t)) || negb (length t =? actual_length t))
        eqn:Hok; [simpl in Hstep; congruence|].
      apply completedOk_dec in Hok.
      destruct (transfer_id t) eqn:Hid; simpl in Hstep; [congruence|].
      exists t. auto.
Qed.

(** C10: with a transfer in flight, the completion handler clears the
    in-flight flag exactly when the finished transfer is the data transfer
    reporting success; a successful completion of the header transfer
    changes nothing; a failed completion of either transfer sets the failed
    flag and leaves the in-flight flag set; and the other pipeline
    operations clear the flag only by delivering such a data completion. *)
Theorem only_data_completion_clears (transfer : option libusb_transfer)
  (pData : DisplayData) :
  mTransferInProgress pData = true ->
  (mTransferInProgress (onTransferFinished transfer pData) = false
   <-> finishesData transfer) /\
  (forall t, transfer = Some t -> completedOk t -> transfer_id t = HeaderTransfer ->
     onTransferFinished transfer pData = pData) /\
  (forall t, transfer = Some t -> has_user_data t = true -> ~ completedOk t ->
     mTransferFailed (onTransferFinished transfer pData) = true /\
     mTransferInProgress (onTransferFinished transfer pData) = true) /\
  (forall hw ev headerResult dataResult,
     mDisplayData hw = pData ->
     mTransferInProgress
       (mDisplayData (snd (submitScreen ev headerResult dataResult hw))) = false ->
     exists finished, In finished (completions ev) /\ finishesData finished) /\
  (forall hw headerResult dataResult,
     mDisplayData hw = pData ->
     mTransferInProgress
       (mDisplayData (submitDisplayFrameTransfer headerResult dataResult hw)) = true).
Proof.
  intros Hin. split; [|split; [|split; [|split]]].
  - split.
    + intros Hout.
      destruct (deliver_clears [transfer] pData Hin Hout) as [t' [[<-|[]] Hfin]].
      exact Hfin.
    + intros [t [-> [Hu [Hok Hid]]]]. simpl. rewrite Hu. simpl.
      apply completedOk_dec in Hok. rewrite Hok, Hid. reflexivity.
  - intros t -> Hok Hid. apply onTransferFinished_quiet. right. auto.
  - intros t -> Hu Hnok. simpl. rewrite Hu. simpl.
    apply not_completedOk_dec in Hnok. rewrite Hnok. simpl. auto.
  - intros hw ev hr dr <- Hout. unfold submitScreen in Hout.
    destruct (negb (mTransferFailed (mDisplayData hw))
              && (mDisplayError (mDisplayData hw) >=? 0)) eqn:Hpump.
    + assert (Hd : mTransferInProgress (deliver ev (mDisplayData hw)) = false).
      { simpl in Hout.
        destruct (handleEventsResult ev <? 0); [exact Hout|].
        destruct (mDisplayError (deliver ev (mDisplayData hw)) <? 0); [exact Hout|].
        destruct (mTransferFailed (deliver ev (mDisplayData hw))); [exact Hout|].
        destruct (mTransferInProgress (deliver ev (mDisplayData hw))) eqn:E;
          [simpl in Hout; congruence | reflexivity]. }
      apply (deliver_clears _ _ Hin Hd).
    + simpl in Hout.
      destruct (mDisplayError (mDisplayData hw) <? 0); [simpl in Hout; congruence|].
      destruct (mTransferFailed (mDisplayData hw)); [simpl in Hout; congruence|].
      rewrite Hin in Hout. simpl in Hout. congruence.
  - intros hw hr dr <-. unfold submitDisplayFrameTransfer.
    destruct (hr <? 0); [simpl; exact Hin|].
    destruct (dr <? 0); simpl; [exact Hin | reflexivity].
Qed.

Lemma only_data_completion_clears_witness :
  let inFlight := {| mTransferFailed := false;
                     mDisplayError := 0;
                     mUsbTransferBuffer := [];
                     mTransferInProgress := true |} in
  mTransferInProgress inFlight = true /\
  onTransferFinished (completion HeaderTransfer 16) inFlight = inFlight /\
  mTransferInProgress
    (onTransferFinished (completion DataTransfer 327680) inFlight) = false.
Proof.
  intros inFlight.
  pose proof (only_data_completion_clears (completion HeaderTransfer 16)
                inFlight eq_refl) as [_ [Hheader _]].
  pose proof (only_data_completion_clears (completion DataTransfer 327680)
                inFlight eq_refl) as [[_ Hdata] _].
  split; [reflexivity|]. split.
  - apply (Hheader _ eq_refl); [split|]; reflexivity.
  - apply Hdata. eexists. split; [reflexivity|].
    split; [reflexivity|]. split; [split|]; reflexivity.
Defined.

(** C2, amended: with a transfer in flight and no failure recorded,
    [submitScreen] is a no-op - it returns normally and leaves the transfer
    state, the transfer buffer and the list of submitted transfers as they
    were - provided the event pump it runs first reports no error and
    delivers no completion that fails or that finishes the data transfer. *)
Theorem submitScreen_in_flight_noop (hw : PushHardware) (ev : HandleEvents)
  (headerResult dataResult : Z) :
  mTransferInProgress (mDisplayData hw) = true ->
  mTransferFailed (mDisplayData hw) = false ->
  0 <= mDisplayError (mDisplayData hw) ->
  0 <= handleEventsResult ev ->
  Forall quiet (completions ev) ->
  submitScreen ev headerResult dataResult hw = (Returned, hw).
Proof.
  intros Hin Hnf Herr Hres Hquiet. unfold submitScreen.
  rewrite Hnf.
  replace (mDisplayError (mDisplayData hw) >=? 0) with true
    by (symmetry; rewrite Z.geb_leb; apply Z.leb_le; exact Herr).
  simpl negb. simpl andb. cbv iota.
  rewrite (deliver_quiet ev _ Hquiet), set_mDisplayData_same.
  replace (handleEventsResult ev <? 0) with false
    by (symmetry; apply Z.ltb_ge; exact Hres).
  replace (mDisplayError (mDisplayData hw) <? 0) with false
    by (symmetry; apply Z.ltb_ge; exact Herr).
  rewrite Hnf, Hin. reflexivity.
Qed.

Lemma submitScreen_in_flight_noop_witness :
  mTransferInProgress (mDisplayData firstFrameInFlight) = true /\
  submitScreen {| completions := [completion HeaderTransfer 16];
                  handleEventsResult := 0 |} 0 0 firstFrameInFlight
  = (Returned, firstFrameInFlight).
Proof.
  split; [reflexivity|].
  apply submitScreen_in_flight_noop.
  - reflexivity.
  - reflexivity.
  - lazy. discriminate.
  - simpl. lia.
  - constructor; [|constructor]. right. split; [split|]; reflexivity.
Defined.

(** C2 as stated fails: the facade with its first frame in flight and no
    failure recorded is in such a state, and when the pump of the next
    [submitScreen] delivers the two successful completions, that call is no
    no-op: it submits two further transfers; when the pump delivers a short
    data completion instead, the call throws and sets the failed flag. *)
Lemma submitScreen_in_flight_counterexample :
  construct = Some constructed /\
  mTransferInProgress (mDisplayData firstFrameInFlight) = true /\
  mTransferFailed (mDisplayData firstFrameInFlight) = false /\
  mDisplayError (mDisplayData firstFrameInFlight) = 0 /\
  usbSubmitted firstFrameInFlight = [(HeaderTransfer, 0); (DataTransfer, 0)] /\
  snd (submitScreen frameSent 0 0 firstFrameInFlight) <> firstFrameInFlight /\
  usbSubmitted (snd (submitScreen frameSent 0 0 firstFrameInFlight))
  = [(HeaderTransfer, 0); (DataTransfer, 0); (HeaderTransfer, 0); (DataTransfer, 0)] /\
  (let short := {| completions :=
                     [Some {| transfer_id := DataTransfer;
                              has_user_data := true;
                              status := LIBUSB_TRANSFER_COMPLETED;
                              length := 327680;
                              actual_length := 512 |}];
                   handleEventsResult := 0 |} in
   fst (submitScreen short 0 0 firstFrameInFlight)
   = ThrowRuntimeError "Display USB transfer failed" /\
   mTransferFailed (mDisplayData (snd (submitScreen short 0 0 firstFrameInFlight)))
   = true).
Proof.
  assert (Hsub : usbSubmitted (snd (submitScreen frameSent 0 0 firstFrameInFlight))
                 = [(HeaderTransfer, 0); (DataTransfer, 0);
                    (HeaderTransfer, 0); (DataTransfer, 0)])
    by (lazy; reflexivity).
  assert (Hbefore : usbSubmitted firstFrameInFlight
                    = [(HeaderTransfer, 0); (DataTransfer, 0)])
    by (lazy; reflexivity).
  split.
  { unfold construct.
    replace (resetLEDs powerOn) with (Some ledsOff) by (vm_compute; reflexivity).
    reflexivity. }
  do 3 (split; [lazy; reflexivity|]).
  split; [exact Hbefore|]. split.
  { intros Heq. rewrite Heq, Hbefore in Hsub. discriminate Hsub. }
  split; [exact Hsub|]. split; lazy; reflexivity.
Qed.

(** ** Blit *)

Lemma clampExtent_bound (dest extent limit i : Z) :
  is_int extent -> 0 <= limit <= INT_MAX -> is_int dest ->
  0 <= dest -> dest + extent <= INT_MAX ->
  0 <= i < clampExtent dest extent limit ->
  dest + i < limit.
Proof.
  unfold clampExtent, int_add, int_sub, is_int, INT_MIN, INT_MAX.
  intros He Hl Hdi Hd Hsum Hi.
  rewrite int_wrap_small in Hi by (unfold is_int, INT_MIN, INT_MAX; lia).
  destruct (Z.geb_spec (dest + extent) limit) as [Hge|Hlt].
  - rewrite int_wrap_small in Hi by (unfold is_int, INT_MIN, INT_MAX; lia). lia.
  - lia.
Qed.

Lemma in_copyToScreen_writes (srcX srcY srcWidth srcHeight destX destY : Z)
  (w : PixelCopy) :
  In w (copyToScreen_writes srcX srcY srcWidth srcHeight destX destY) <->
  exists x y,
    0 <= y < clampExtent destY srcHeight PUSH_SCREEN_HEIGHT /\
    0 <= x < clampExtent destX srcWidth PUSH_SCREEN_WIDTH /\
    w = copyToScreen_pixel srcX srcY destX destY x y.
Proof.
  unfold copyToScreen_writes. cbv zeta. rewrite in_flat_map. split.
  - intros [y [Hy Hin]]. apply in_map_iff in Hin. destruct Hin as [x [Hw Hx]].
    apply in_loop_range in Hy, Hx. exists x, y. auto.
  - intros [x [y [Hy [Hx Hw]]]]. exists y. split; [apply in_loop_range; exact Hy|].
    apply in_map_iff. exists x. split; [auto | apply in_loop_range; exact Hx].
Qed.

Lemma onScreen_inBuffer (w : PixelCopy) : onScreen w -> inBuffer (destIndex w).
Proof.
  unfold onScreen, inBuffer, screenPixels, PUSH_SCREEN_WIDTH, PUSH_SCREEN_HEIGHT,
    PUSH_SCREEN_STRIDE.
  intros [col [row [Hc [Hr ->]]]]. lia.
Qed.

Lemma store_nat_some {A : Type} (x : A) (v : list A) :
  forall i, (i < List.length v)%nat ->
    exists v', store_nat i x v = Some v' /\ List.length v' = List.length v.
Proof.
  induction v as [|a v IH]; intros i Hi; simpl in Hi; [lia|].
  destruct i as [|i]; simpl.
  - eexists. split; reflexivity.
  - destruct (IH i ltac:(lia)) as [v' [Hs Hl]]. rewrite Hs. simpl.
    eexists. split; [reflexivity|]. simpl. congruence.
Qed.

Lemma store_nat_inv {A : Type} (x : A) (v : list A) :
  forall i v', store_nat i x v = Some v' ->
    (i < List.length v)%nat /\ List.length v' = List.length v.
Proof.
  induction v as [|a v IH]; intros i v' H; [destruct i; discriminate|].
  destruct i as [|i]; simpl in H.
  - inversion H; subst. simpl. split; [lia | reflexivity].
  - destruct (store_nat i x v) as [v''|] eqn:Hs; simpl in H; [|discriminate].
    inversion H; subst. destruct (IH i v'' Hs) as [Hi Hl]. simpl. split; lia.
Qed.

Lemma vec_store_some {A : Type} (i : Z) (x : A) (v : list A) :
  0 <= i < Z.of_nat (List.length v) ->
  exists v', vec_store i x v = Some v' /\ List.length v' = List.length v.
Proof.
  intros Hi. unfold vec_store. destruct (Z.ltb_spec i 0) as [Hneg|Hpos]; [lia|].
  apply store_nat_some. lia.
Qed.

Lemma vec_store_inv {A : Type} (i : Z) (x : A) (v v' : list A) :
  vec_store i x v = Some v' ->
  0 <= i < Z.of_nat (List.length v) /\ List.length v' = List.length v.
Proof.
  unfold vec_store. destruct (Z.ltb_spec i 0) as [Hneg|Hpos]; [discriminate|].
  intros Hs. apply store_nat_inv in Hs. lia.
Qed.

Lemma bind_none {A B : Type} (m : option A) (f : A -> option B) :
  m = None -> bind m f = None.
Proof. intros ->. reflexivity. Qed.

Lemma stores_succeed (value : PixelCopy -> Z) (writes : list PixelCopy) :
  forall screen,
    Forall (fun w => 0 <= destIndex w < Z.of_nat (List.length screen)) writes ->
    exists screen',
      for_each (fun w s => vec_store (destIndex w) (value w) s) writes screen
      = Some screen' /\
      List.length screen' = List.length screen.
Proof.
  induction writes as [|w writes IH]; intros screen Hall; simpl.
  - exists screen. auto.
  - inversion Hall as [|? ? Hw Hrest]; subst.
    destruct (vec_store_some (destIndex w) (value w) screen Hw) as [s1 [Hs1 Hl1]].
    rewrite Hs1. simpl. rewrite <- Hl1 in Hrest.
    destruct (IH s1 Hrest) as [s2 [Hs2 Hl2]]. exists s2. split; congruence.
Qed.

Lemma stores_fail (value : PixelCopy -> Z) (writes : list PixelCopy) :
  forall screen w,
    In w writes -> ~ 0 <= destIndex w < Z.of_nat (List.length screen) ->
    for_each (fun w s => vec_store (destIndex w) (value w) s) writes screen = None.
Proof.
  induction writes as [|a writes IH]; intros screen w Hin Hout; simpl.
  - contradiction.
  - destruct (vec_store (destIndex a) (value a) screen) as [s1|] eqn:Hs;
      [|reflexivity].
    simpl. apply vec_store_inv in Hs. destruct Hs as [Ha Hl].
    destruct Hin as [->|Hin]; [contradiction|].
    apply (IH s1 w Hin). rewrite Hl. exact Hout.
Qed.

Lemma copyToScreen_pixel_onScreen (srcX srcY destX destY x y : Z) :
  0 <= destX -> 0 <= destY -> 0 <= x -> 0 <= y ->
  destX + x < PUSH_SCREEN_WIDTH -> destY + y < PUSH_SCREEN_HEIGHT ->
  onScreen (copyToScreen_pixel srcX srcY destX destY x y).
Proof.
  unfold PUSH_SCREEN_WIDTH, PUSH_SCREEN_HEIGHT. intros HdX HdY Hx Hy Hcol Hrow.
  exists (destX + x), (destY + y).
  unfold PUSH_SCREEN_WIDTH, PUSH_SCREEN_HEIGHT.
  split; [lia|]. split; [lia|].
  unfold copyToScreen_pixel, destIndex, int_add, int_mul, PUSH_SCREEN_STRIDE.
  rewrite (int_wrap_small (destX + x)) by (unfold is_int, INT_MIN, INT_MAX; lia).
  rewrite (int_wrap_small (y + destY)) by (unfold is_int, INT_MIN, INT_MAX; lia).
  rewrite (int_wrap_small ((y + destY) * 1024))
    by (unfold is_int, INT_MIN, INT_MAX; lia).
  rewrite int_wrap_small by (unfold is_int, INT_MIN, INT_MAX; lia).
  lia.
Qed.

(** C9, amended: for [destX >= 0] and [destY >= 0], and a width and height
    for which the sums [destX + srcWidth] and [destY + srcHeight] of the two
    clamping tests do not overflow an [int], every assignment of the blit
    lands on the device screen - column below 960, row below 160 - so every
    index written is inside the 1024 x 160 screen buffer, and the blit runs
    to its end without a write outside the buffer. *)
Theorem copyToScreen_in_bounds (srcBuffer : Z -> Z)
  (srcX srcY srcWidth srcHeight destX destY : Z) (hw : PushHardware) :
  is_int srcWidth -> is_int srcHeight -> is_int destX -> is_int destY ->
  0 <= destX -> 0 <= destY ->
  destX + srcWidth <= INT_MAX -> destY + srcHeight <= INT_MAX ->
  Z.of_nat (List.length (mScreenBuffer hw)) = screenPixels ->
  Forall (fun w => onScreen w /\ inBuffer (destIndex w))
    (copyToScreen_writes srcX srcY srcWidth srcHeight destX destY) /\
  exists hw',
    copyToScreen srcBuffer srcX srcY srcWidth srcHeight destX destY hw = Some hw' /\
    List.length (mScreenBuffer hw') = List.length (mScreenBuffer hw).
Proof.
  intros Hw Hh HdXi HdYi HdX HdY HsumX HsumY Hlen.
  assert (Hall : Forall (fun w => onScreen w /\ inBuffer (destIndex w))
                   (copyToScreen_writes srcX srcY srcWidth srcHeight destX destY)).
  { apply Forall_forall. intros w Hin.
    apply in_copyToScreen_writes in Hin. destruct Hin as [x [y [Hy [Hx ->]]]].
    assert (Hon : onScreen (copyToScreen_pixel srcX srcY destX destY x y)).
    { apply copyToScreen_pixel_onScreen; try lia.
      - apply (clampExtent_bound destX srcWidth); try assumption.
        unfold PUSH_SCREEN_WIDTH, INT_MAX. lia.
      - apply (clampExtent_bound destY srcHeight); try assumption.
        unfold PUSH_SCREEN_HEIGHT, INT_MAX. lia. }
    split; [exact Hon | apply onScreen_inBuffer; exact Hon]. }
  split; [exact Hall|].
  unfold copyToScreen.
  destruct (stores_succeed (fun w => toBGR565 (srcBuffer (srcIndex w)))
              (copyToScreen_writes srcX srcY srcWidth srcHeight destX destY)
              (mScreenBuffer hw)) as [screen' [Hs Hl]].
  { eapply Forall_impl; [|exact Hall]. intros w [_ Hb].
    rewrite Hlen. exact Hb. }
  rewrite Hs. simpl. eexists. split; [reflexivity|]. simpl. exact Hl.
Qed.

Lemma screenBuffer_initDisplay (hw : PushHardware) :
  Z.of_nat (List.length (mScreenBuffer (initDisplay hw))) = screenPixels.
Proof.
  unfold initDisplay, set_mDisplayData, set_mScreenBuffer, mScreenBuffer.
  rewrite repeat_length, Z2Nat.id; [reflexivity|].
  unfold PUSH_SCREEN_HEIGHT, PUSH_SCREEN_STRIDE. lia.
Qed.

Lemma screenBuffer_constructed :
  Z.of_nat (List.length (mScreenBuffer constructed)) = screenPixels.
Proof. unfold constructed. apply screenBuffer_initDisplay. Qed.

(** The first blit of [drawFrame]: the 320 x 160 main region at column 320. *)
Lemma copyToScreen_in_bounds_witness :
  (is_int 320 /\ is_int 160 /\ 320 + 320 <= INT_MAX /\ 0 + 160 <= INT_MAX) /\
  Forall (fun w => onScreen w /\ inBuffer (destIndex w))
    (copyToScreen_writes 0 0 DOOMGENERIC_RESX PUSH_SCREEN_HEIGHT 320 0).
Proof.
  assert (H320 : is_int 320) by (unfold is_int, INT_MIN, INT_MAX; lia).
  assert (H160 : is_int 160) by (unfold is_int, INT_MIN, INT_MAX; lia).
  assert (H0 : is_int 0) by (unfold is_int, INT_MIN, INT_MAX; lia).
  assert (HX : 320 + 320 <= INT_MAX) by (unfold INT_MAX; lia).
  assert (HY : 0 + 160 <= INT_MAX) by (unfold INT_MAX; lia).
  split; [auto|].
  exact (proj1 (copyToScreen_in_bounds (fun _ => 0) 0 0 320 160 320 0 constructed
                  H320 H160 H320 H0 ltac:(lia) ltac:(lia) HX HY
                  screenBuffer_constructed)).
Defined.

(** C9 as stated fails for an arbitrary width: with [destX = 1] and
    [srcWidth = INT_MAX] the sum of the clamping test wraps to [INT_MIN],
    the width is not clamped, and the first row of the copy reaches index
    163840, the first one past the 1024 x 160 buffer. *)
Lemma copyToScreen_overflow_counterexample :
  is_int 2147483647 /\ 0 <= 1 /\ 0 <= 0 /\
  clampExtent 1 2147483647 PUSH_SCREEN_WIDTH = 2147483647 /\
  In {| destIndex := 163840; srcIndex := 163839 |}
     (copyToScreen_writes 0 0 2147483647 1 1 0) /\
  ~ inBuffer 163840 /\
  forall srcBuffer,
    copyToScreen srcBuffer 0 0 2147483647 1 1 0 constructed = None.
Proof.
  assert (Hclamp : clampExtent 1 2147483647 PUSH_SCREEN_WIDTH = 2147483647)
    by reflexivity.
  assert (Hrow : clampExtent 0 1 PUSH_SCREEN_HEIGHT = 1) by reflexivity.
  assert (Hin : In {| destIndex := 163840; srcIndex := 163839 |}
                   (copyToScreen_writes 0 0 2147483647 1 1 0)).
  { apply in_copyToScreen_writes. exists 163839, 0.
    rewrite Hclamp, Hrow. split; [lia|]. split; [lia|]. reflexivity. }
  assert (Hout : ~ inBuffer 163840).
  { unfold inBuffer, screenPixels, PUSH_SCREEN_HEIGHT, PUSH_SCREEN_STRIDE. lia. }
  split; [unfold is_int, INT_MIN, INT_MAX; lia|].
  split; [lia|]. split; [lia|]. split; [exact Hclamp|].
  split; [exact Hin|]. split; [exact Hout|].
  intros srcBuffer. unfold copyToScreen. apply bind_none.
  refine (stores_fail (fun w => toBGR565 (srcBuffer (srcIndex w)))
            (copyToScreen_writes 0 0 2147483647 1 1 0) (mScreenBuffer constructed)
            {| destIndex := 163840; srcIndex := 163839 |} Hin _).
  unfold destIndex. rewrite screenBuffer_constructed. exact Hout.
Qed.

(** ** Control mapper *)

Section MapperProperties.
Context `{keys : DoomKeys}.

Lemma ControlId_eqb_eq (a b : ControlId) : ControlId_eqb a b = true -> a = b.
Proof.
  destruct a as [[ax ay]|m], b as [[bx by']|n]; simpl; try discriminate.
  - unfold PadId_eqb. simpl. rewrite andb_true_iff, !Z.eqb_eq.
    intros [-> ->]. reflexivity.
  - rewrite Z.eqb_eq. intros ->. reflexivity.
Qed.

Lemma findMapping_modifier : findMapping (Button 49) = None.
Proof. reflexivity. Qed.

Lemma mapped_not_modifier (c : ControlId) (m : InputMapping) :
  findMapping c = Some m -> ControlId_eqb c (Button 49) = false.
Proof.
  intros Hm. destruct (ControlId_eqb c (Button 49)) eqn:E; [|reflexivity].
  apply ControlId_eqb_eq in E. subst c.
  rewrite findMapping_modifier in Hm. discriminate.
Qed.

Lemma onInput_shift (input : PushInputEvent) (self : AbleDoom) :
  mShiftHeld (onInput input self)
  = if ControlId_eqb (id input) (Button 49) then pressed input else mShiftHeld self.
Proof. unfold onInput. destruct (findMapping (id input)); reflexivity. Qed.

Lemma onInputs_shift (history : list PushInputEvent) :
  forall self,
    mShiftHeld (onInputs history self) = modifierHeld history (mShiftHeld self).
Proof.
  induction history as [|e rest IH]; intros self; simpl.
  - reflexivity.
  - unfold onInputs in *. simpl. rewrite IH, onInput_shift. reflexivity.
Qed.

Lemma onInput_mapped (input : PushInputEvent) (self : AbleDoom) (m : InputMapping) :
  findMapping (id input) = Some m ->
  mEventQueue (onInput input self)
  = mEventQueue self
    ++ [{| key := if (doomKey m =? KEY_F6) && mShiftHeld self
                  then uint8 KEY_F9 else doomKey m;
           dPressed := pressed input |}].
Proof.
  intros Hm. unfold onInput.
  rewrite (mapped_not_modifier _ _ Hm), Hm. reflexivity.
Qed.

End MapperProperties.

(** C8: when the modifier button 49 is held - its last event in the history
    was a press - an input whose table row carries [KEY_F6] enqueues
    [KEY_F9]; when it is not held, the same input enqueues [KEY_F6]; an
    input whose row carries any other key enqueues that key whatever the
    modifier state. The row carrying [KEY_F6] is that of button 82, so
    shift down, save, shift up, save enqueues [KEY_F9] and then [KEY_F6]. *)
Theorem save_load_chord {keys : DoomKeys} (history : list PushInputEvent)
  (self : AbleDoom) (input : PushInputEvent) (m : InputMapping) :
  is_uint8 KEY_F6 -> is_uint8 KEY_F9 ->
  findMapping (id input) = Some m ->
  let before := onInputs history self in
  let held := modifierHeld history (mShiftHeld self) in
  let enqueues k :=
    mEventQueue (onInput input before)
    = mEventQueue before ++ [{| key := k; dPressed := pressed input |}] in
  (doomKey m = KEY_F6 -> held = true -> enqueues KEY_F9) /\
  (doomKey m = KEY_F6 -> held = false -> enqueues KEY_F6) /\
  (doomKey m <> KEY_F6 -> enqueues (doomKey m)) /\
  findMapping (Button 82) = Some (buttonMapping 82 KEY_F6) /\
  (let shift p := {| id := Button 49; pressed := p |} in
   let save := {| id := Button 82; pressed := true |} in
   mEventQueue (onInputs [shift true; save; shift false; save] self)
   = mEventQueue self ++ [{| key := KEY_F9; dPressed := true |};
                          {| key := KEY_F6; dPressed := true |}]).
Proof.
  intros H6 H9 Hm before held enqueues.
  assert (Hq : mEventQueue (onInput input before)
               = mEventQueue before
                 ++ [{| key := if (doomKey m =? KEY_F6) && held
                               then uint8 KEY_F9 else doomKey m;
                        dPressed := pressed input |}]).
  { rewrite (onInput_mapped input before m Hm). unfold before, held.
    rewrite onInputs_shift. reflexivity. }
  split; [|split; [|split; [|split]]].
  - intros Hk Hheld. unfold enqueues. rewrite Hq, Hk, Hheld, Z.eqb_refl.
    simpl. rewrite (uint8_small _ H9). reflexivity.
  - intros Hk Hheld. unfold enqueues. rewrite Hq, Hk, Hheld, Z.eqb_refl.
    reflexivity.
  - intros Hk. unfold enqueues. rewrite Hq.
    apply Z.eqb_neq in Hk. rewrite Hk. reflexivity.
  - reflexivity.
  - intros shift save. unfold onInputs. simpl fold_left.
    assert (Hsave : findMapping (id save) = Some (buttonMapping 82 KEY_F6))
      by reflexivity.
    assert (Hshift : forall p a, mEventQueue (onInput (shift p) a) = mEventQueue a)
      by reflexivity.
    rewrite (onInput_mapped save _ _ Hsave), !onInput_shift, Hshift.
    rewrite (onInput_mapped save _ _ Hsave), !onInput_shift, Hshift.
    simpl. rewrite (uint8_small _ H6), (uint8_small _ H9), Z.eqb_refl.
    simpl. rewrite <- app_assoc. reflexivity.
Qed.

Lemma save_load_chord_witness :
  let app := {| mEventQueue := []; mHardware := powerOn; mShiftHeld := false |} in
  let shiftDown := {| id := Button 49; pressed := true |} in
  let save := {| id := Button 82; pressed := true |} in
  @is_uint8 (@KEY_F6 doomkeys_h) /\ @is_uint8 (@KEY_F9 doomkeys_h) /\
  @findMapping doomkeys_h (id save) = Some (buttonMapping 82 (@KEY_F6 doomkeys_h)) /\
  mEventQueue (@onInput doomkeys_h save (@onInputs doomkeys_h [shiftDown] app))
  = [{| key := 0xc3; dPressed := true |}].
Proof.
  intros app shiftDown save.
  assert (H6 : @is_uint8 (@KEY_F6 doomkeys_h)) by (unfold is_uint8; simpl; lia).
  assert (H9 : @is_uint8 (@KEY_F9 doomkeys_h)) by (unfold is_uint8; simpl; lia).
  split; [exact H6|]. split; [exact H9|]. split; [reflexivity|].
  exact (proj1 (@save_load_chord doomkeys_h [shiftDown] app save
                  (buttonMapping 82 (@KEY_F6 doomkeys_h)) H6 H9 eq_refl)
           eq_refl eq_refl).
Defined.

(** ** Signal shaping *)

Lemma land_lxor_distr (a b c : Z) :
  Z.land (Z.lxor a b) c = Z.lxor (Z.land a c) (Z.land b c).
Proof.
  apply Z.bits_inj'. intros n Hn.
  rewrite Z.land_spec, !Z.lxor_spec, !Z.land_spec.
  destruct (Z.testbit a n), (Z.testbit b n), (Z.testbit c n); reflexivity.
Qed.

Lemma byte_of_word_0 (b0 b1 b2 b3 : Z) :
  is_uint8 b0 -> is_uint8 b1 -> is_uint8 b2 -> is_uint8 b3 ->
  Z.land (uint32_of_bytes b0 b1 b2 b3) 0xFF = b0.
Proof.
  intros H0 H1 H2 H3. unfold uint32_of_bytes.
  rewrite !Z.land_lor_distr_l.
  replace (Z.land b0 0xFF) with b0 by (symmetry; by_byte_cases b0 H0).
  replace (Z.land (Z.shiftl b1 8) 0xFF) with 0 by (symmetry; by_byte_cases b1 H1).
  replace (Z.land (Z.shiftl b2 16) 0xFF) with 0 by (symmetry; by_byte_cases b2 H2).
  replace (Z.land (Z.shiftl b3 24) 0xFF) with 0 by (symmetry; by_byte_cases b3 H3).
  rewrite !Z.lor_0_r. reflexivity.
Qed.

Lemma byte_of_word_1 (b0 b1 b2 b3 : Z) :
  is_uint8 b0 -> is_uint8 b1 -> is_uint8 b2 -> is_uint8 b3 ->
  Z.land (Z.shiftr (uint32_of_bytes b0 b1 b2 b3) 8) 0xFF = b1.
Proof.
  intros H0 H1 H2 H3. unfold uint32_of_bytes.
  rewrite !Z.shiftr_lor, !Z.land_lor_distr_l.
  replace (Z.land (Z.shiftr b0 8) 0xFF) with 0 by (symmetry; by_byte_cases b0 H0).
  replace (Z.land (Z.shiftr (Z.shiftl b1 8) 8) 0xFF) with b1
    by (symmetry; by_byte_cases b1 H1).
  replace (Z.land (Z.shiftr (Z.shiftl b2 16) 8) 0xFF) with 0
    by (symmetry; by_byte_cases b2 H2).
  replace (Z.land (Z.shiftr (Z.shiftl b3 24) 8) 0xFF) with 0
    by (symmetry; by_byte_cases b3 H3).
  rewrite Z.lor_0_l, !Z.lor_0_r. reflexivity.
Qed.

Lemma byte_of_word_2 (b0 b1 b2 b3 : Z) :
  is_uint8 b0 -> is_uint8 b1 -> is_uint8 b2 -> is_uint8 b3 ->
  Z.land (Z.shiftr (uint32_of_bytes b0 b1 b2 b3) 16) 0xFF = b2.
Proof.
  intros H0 H1 H2 H3. unfold uint32_of_bytes.
  rewrite !Z.shiftr_lor, !Z.land_lor_distr_l.
  replace (Z.land (Z.shiftr b0 16) 0xFF) with 0 by (symmetry; by_byte_cases b0 H0).
  replace (Z.land (Z.shiftr (Z.shiftl b1 8) 16) 0xFF) with 0
    by (symmetry; by_byte_cases b1 H1).
  replace (Z.land (Z.shiftr (Z.shiftl b2 16) 16) 0xFF) with b2
    by (symmetry; by_byte_cases b2 H2).
  replace (Z.land (Z.shiftr (Z.shiftl b3 24) 16) 0xFF) with 0
    by (symmetry; by_byte_cases b3 H3).
  rewrite !Z.lor_0_l, !Z.lor_0_r. reflexivity.
Qed.

Lemma byte_of_word_3 (b0 b1 b2 b3 : Z) :
  is_uint8 b0 -> is_uint8 b1 -> is_uint8 b2 -> is_uint8 b3 ->
  Z.land (Z.shiftr (uint32_of_bytes b0 b1 b2 b3) 24) 0xFF = b3.
Proof.
  intros H0 H1 H2 H3. unfold uint32_of_bytes.
  rewrite !Z.shiftr_lor, !Z.land_lor_distr_l.
  replace (Z.land (Z.shiftr b0 24) 0xFF) with 0 by (symmetry; by_byte_cases b0 H0).
  replace (Z.land (Z.shiftr (Z.shiftl b1 8) 24) 0xFF) with 0
    by (symmetry; by_byte_cases b1 H1).
  replace (Z.land (Z.shiftr (Z.shiftl b2 16) 24) 0xFF) with 0
    by (symmetry; by_byte_cases b2 H2).
  replace (Z.land (Z.shiftr (Z.shiftl b3 24) 24) 0xFF) with b3
    by (symmetry; by_byte_cases b3 H3).
  rewrite !Z.lor_0_l. reflexivity.
Qed.

Lemma shaped_word (b0 b1 b2 b3 : Z) :
  is_uint8 b0 -> is_uint8 b1 -> is_uint8 b2 -> is_uint8 b3 ->
  uint32_bytes (Z.lxor (uint32_of_bytes b0 b1 b2 b3) 0xffe7f3e7)
  = [Z.lxor b0 0xe7; Z.lxor b1 0xf3; Z.lxor b2 0xe7; Z.lxor b3 0xff].
Proof.
  intros H0 H1 H2 H3. unfold uint32_bytes.
  rewrite !Z.shiftr_lxor, !land_lxor_distr.
  rewrite byte_of_word_0, byte_of_word_1, byte_of_word_2, byte_of_word_3
    by assumption.
  reflexivity.
Qed.

Lemma lxor_byte (b k : Z) : is_uint8 b -> is_uint8 k -> is_uint8 (Z.lxor b k).
Proof.
  intros Hb Hk. unfold is_uint8.
  assert (Hlo : 0 <= Z.lxor b k) by (apply Z.lxor_nonneg; unfold is_uint8 in *; lia).
  split; [exact Hlo|].
  destruct (Z.eq_dec (Z.lxor b k) 0) as [->|Hnz]; [lia|].
  apply (Z.log2_lt_cancel _ 256). change (Z.log2 256) with 8.
  assert (Hmax : Z.log2 (Z.lxor b k) <= Z.max (Z.log2 b) (Z.log2 k))
    by (apply Z.log2_lxor; unfold is_uint8 in *; lia).
  assert (Hb8 : Z.log2 b < 8).
  { destruct (Z.eq_dec b 0) as [->|]; [simpl; lia|].
    apply Z.log2_lt_pow2; unfold is_uint8 in *; simpl; lia. }
  assert (Hk8 : Z.log2 k < 8).
  { destruct (Z.eq_dec k 0) as [->|]; [simpl; lia|].
    apply Z.log2_lt_pow2; unfold is_uint8 in *; simpl; lia. }
  lia.
Qed.

Lemma lxor_twice (b k : Z) : Z.lxor (Z.lxor b k) k = b.
Proof. rewrite Z.lxor_assoc, Z.lxor_nilpotent, Z.lxor_0_r. reflexivity. Qed.

Lemma xorWords_involutive (words : nat) :
  forall pBuffer, Forall is_uint8 pBuffer ->
    xorWords words (xorWords words pBuffer) = pBuffer.
Proof.
  induction words as [|words IH]; intros pBuffer Hbytes.
  - destruct pBuffer; reflexivity.
  - destruct pBuffer as [|b0 [|b1 [|b2 [|b3 rest]]]]; try reflexivity.
    inversion Hbytes as [|? ? H0 Hb1]; subst.
    inversion Hb1 as [|? ? H1 Hb2]; subst.
    inversion Hb2 as [|? ? H2 Hb3]; subst.
    inversion Hb3 as [|? ? H3 Hrest]; subst.
    assert (Hk : is_uint8 0xe7 /\ is_uint8 0xf3 /\ is_uint8 0xff)
      by (unfold is_uint8; lia).
    destruct Hk as [K0 [K1 K3]].
    cbn [xorWords]. rewrite shaped_word by assumption.
    cbn [app xorWords].
    rewrite shaped_word by (apply lxor_byte; assumption).
    rewrite !lxor_twice, IH by assumption. reflexivity.
Qed.

Lemma shapingByte_at (i : nat) :
  (i mod 4 = 0)%nat ->
  shapingByte i = 0xe7 /\ shapingByte (S i) = 0xf3 /\
  shapingByte (S (S i)) = 0xe7 /\ shapingByte (S (S (S i))) = 0xff /\
  (S (S (S (S i))) mod 4 = 0)%nat.
Proof.
  intros Hi. unfold shapingByte.
  assert (Hk : forall k, (k < 4)%nat -> ((k + i) mod 4 = k)%nat).
  { intros k Hk. pose proof (Nat.div_mod_eq i 4) as E. rewrite Hi in E.
    replace (k + i)%nat with (k + (i / 4) * 4)%nat by lia.
    rewrite Nat.Div0.mod_add. apply Nat.mod_small. exact Hk. }
  assert (H1 : (S i mod 4 = 1)%nat) by (apply (Hk 1%nat); lia).
  assert (H2 : (S (S i) mod 4 = 2)%nat) by (apply (Hk 2%nat); lia).
  assert (H3 : (S (S (S i)) mod 4 = 3)%nat) by (apply (Hk 3%nat); lia).
  assert (H4 : (S (S (S (S i))) mod 4 = 0)%nat).
  { pose proof (Nat.div_mod_eq i 4) as E. rewrite Hi in E.
    replace (S (S (S (S i)))) with (0 + (S (i / 4)) * 4)%nat by lia.
    rewrite Nat.Div0.mod_add. reflexivity. }
  rewrite Hi, H1, H2, H3. auto.
Qed.

Lemma xorWords_bytewise (words : nat) :
  forall pBuffer i,
    Forall is_uint8 pBuffer -> (i mod 4 = 0)%nat ->
    List.length pBuffer = (4 * words)%nat ->
    xorWords words pBuffer = shapeFrom i pBuffer.
Proof.
  induction words as [|words IH]; intros pBuffer i Hbytes Hi Hlen.
  - destruct pBuffer; [reflexivity | discriminate].
  - destruct pBuffer as [|b0 [|b1 [|b2 [|b3 rest]]]]; simpl in Hlen; try lia.
    inversion Hbytes as [|? ? H0 Hb1]; subst.
    inversion Hb1 as [|? ? H1 Hb2]; subst.
    inversion Hb2 as [|? ? H2 Hb3]; subst.
    inversion Hb3 as [|? ? H3 Hrest]; subst.
    destruct (shapingByte_at i Hi) as [P0 [P1 [P2 [P3 Hnext]]]].
    cbn [xorWords shapeFrom]. rewrite shaped_word by assumption.
    rewrite P0, P1, P2, P3. cbn [app].
    rewrite (IH rest (S (S (S (S i)))) Hrest Hnext) by lia. reflexivity.
Qed.

Lemma shapeFrom_length (bytes : list Z) :
  forall i, List.length (shapeFrom i bytes) = List.length bytes.
Proof. induction bytes as [|b rest IH]; intros i; simpl; [|rewrite IH]; reflexivity. Qed.

Lemma shapeFrom_nth (bytes : list Z) :
  forall i j b, nth_error bytes j = Some b ->
    nth_error (shapeFrom i bytes) j = Some (Z.lxor b (shapingByte (i + j))).
Proof.
  induction bytes as [|a rest IH]; intros i j b Hj.
  - destruct j; discriminate.
  - destruct j as [|j]; simpl in *.
    + inversion Hj; subst. rewrite Nat.add_0_r. reflexivity.
    + rewrite (IH (S i) j b Hj). do 3 f_equal. lia.
Qed.

Lemma repeat_byte (b : Z) (n : nat) : is_uint8 b -> Forall is_uint8 (repeat b n).
Proof.
  intros Hb. apply Forall_forall. intros x Hx. apply repeat_spec in Hx. subst. exact Hb.
Qed.

(** X1: the signal shaping undoes itself: applied twice to a buffer of
    bytes that holds at least the [PUSH_SCREEN_SIZE_BYTES] bytes the loop
    walks, it gives the buffer back. *)
Theorem applySignalShapingPattern_involutive (pBuffer : list Z) :
  Forall is_uint8 pBuffer ->
  PUSH_SCREEN_SIZE_BYTES <= Z.of_nat (List.length pBuffer) ->
  applySignalShapingPattern (applySignalShapingPattern pBuffer) = pBuffer.
Proof.
  intros Hbytes _. unfold applySignalShapingPattern.
  apply xorWords_involutive. exact Hbytes.
Qed.

Lemma applySignalShapingPattern_involutive_witness :
  let frame := repeat 0x5a (Z.to_nat PUSH_SCREEN_SIZE_BYTES) in
  Forall is_uint8 frame /\
  PUSH_SCREEN_SIZE_BYTES <= Z.of_nat (List.length frame) /\
  applySignalShapingPattern (applySignalShapingPattern frame) = frame.
Proof.
  intros frame.
  assert (Hb : Forall is_uint8 frame)
    by (apply repeat_byte; unfold is_uint8; lia).
  assert (Hl : PUSH_SCREEN_SIZE_BYTES <= Z.of_nat (List.length frame)).
  { unfold frame. rewrite repeat_length, Z2Nat.id; [lia|].
    unfold PUSH_SCREEN_SIZE_BYTES, PUSH_SCREEN_HEIGHT, PUSH_SCREEN_STRIDE. lia. }
  split; [exact Hb|]. split; [exact Hl|].
  exact (applySignalShapingPattern_involutive frame Hb Hl).
Defined.

(** X2: on a buffer of [PUSH_SCREEN_SIZE_BYTES] bytes the signal shaping
    keeps the length and changes byte [j] to its exclusive-or with byte
    [j mod 4] of E7 F3 E7 FF, the little-endian bytes of 0xFFE7F3E7. *)
Theorem applySignalShapingPattern_bytewise (pBuffer : list Z) (j : nat) (b : Z) :
  Forall is_uint8 pBuffer ->
  Z.of_nat (List.length pBuffer) = PUSH_SCREEN_SIZE_BYTES ->
  nth_error pBuffer j = Some b ->
  List.length (applySignalShapingPattern pBuffer) = List.length pBuffer /\
  nth_error (applySignalShapingPattern pBuffer) j = Some (Z.lxor b (shapingByte j)).
Proof.
  intros Hbytes Hlen Hj.
  assert (E : applySignalShapingPattern pBuffer = shapeFrom 0 pBuffer).
  { unfold applySignalShapingPattern. apply xorWords_bytewise.
    - exact Hbytes.
    - reflexivity.
    - unfold PUSH_SCREEN_SIZE_BYTES, PUSH_SCREEN_HEIGHT, PUSH_SCREEN_STRIDE in *.
      change (160 * 1024 * 2 / 4) with 81920. lia. }
  rewrite E. split; [apply shapeFrom_length|].
  apply (shapeFrom_nth pBuffer 0 j b Hj).
Qed.

Lemma repeat_bytes (n : nat) : Forall is_uint8 (repeat 0 n).
Proof.
  apply Forall_forall. intros x Hx. apply repeat_spec in Hx. subst.
  unfold is_uint8. lia.
Qed.

Lemma applySignalShapingPattern_bytewise_witness :
  let blank := repeat 0 (Z.to_nat PUSH_SCREEN_SIZE_BYTES) in
  Forall is_uint8 blank /\
  Z.of_nat (List.length blank) = PUSH_SCREEN_SIZE_BYTES /\
  nth_error (applySignalShapingPattern blank) 5 = Some 0xf3.
Proof.
  intros blank.
  assert (Hb : Forall is_uint8 blank) by apply repeat_bytes.
  assert (Hl : Z.of_nat (List.length blank) = PUSH_SCREEN_SIZE_BYTES).
  { unfold blank. rewrite repeat_length. apply Z2Nat.id.
    unfold PUSH_SCREEN_SIZE_BYTES, PUSH_SCREEN_HEIGHT, PUSH_SCREEN_STRIDE. lia. }
  split; [exact Hb|]. split; [exact Hl|].
  exact (proj2 (applySignalShapingPattern_bytewise blank 5 0 Hb Hl eq_refl)).
Defined.

(** ** Display transfer pipeline: submitting *)

Lemma onTransferFinished_keeps (transfer : option libusb_transfer) (d : DisplayData) :
  mDisplayError (onTransferFinished transfer d) = mDisplayError d /\
  mUsbTransferBuffer (onTransferFinished transfer d) = mUsbTransferBuffer d /\
  (mTransferFailed d = true -> mTransferFailed (onTransferFinished transfer d) = true).
Proof.
  unfold onTransferFinished. destruct transfer as [t|]; [|auto].
  destruct (negb (has_user_data t)); [auto|].
  destruct (negb (is_completed (status t)) || negb (length t =? actual_length t));
    [simpl; auto|].
  destruct (Transfer_eqb (transfer_id t) DataTransfer); simpl; auto.
Qed.

Lemma deliver_keeps (ev : HandleEvents) (d : DisplayData) :
  mDisplayError (deliver ev d) = mDisplayError d /\
  mUsbTransferBuffer (deliver ev d) = mUsbTransferBuffer d /\
  (mTransferFailed d = true -> mTransferFailed (deliver ev d) = true).
Proof.
  unfold deliver. revert d.
  induction (completions ev) as [|t l IH]; intros d; simpl; [auto|].
  destruct (onTransferFinished_keeps t d) as [He [Hb Hf]].
  destruct (IH (onTransferFinished t d)) as [He' [Hb' Hf']].
  rewrite He', Hb', He, Hb. auto.
Qed.

Lemma deliver_failure (l : list (option libusb_transfer)) :
  forall d t, In (Some t) l -> has_user_data t = true -> ~ completedOk t ->
    mTransferFailed (fold_left (fun d t => onTransferFinished t d) l d) = true.
Proof.
  induction l as [|a l IH]; intros d t Hin Hu Hnok; simpl.
  - contradiction.
  - destruct Hin as [->|Hin].
    + assert (Hf : mTransferFailed (onTransferFinished (Some t) d) = true).
      { simpl. rewrite Hu. simpl. apply not_completedOk_dec in Hnok.
        rewrite Hnok. reflexivity. }
      pose proof (deliver_keeps {| completions := l; handleEventsResult := 0 |}
                    (onTransferFinished (Some t) d)) as [_ [_ Hkeep]].
      apply Hkeep. exact Hf.
    + apply (IH _ t Hin Hu Hnok).
Qed.

Lemma uint16_bytes_are_bytes (screen : list Z) :
  Forall is_uint8 (flat_map uint16_bytes screen).
Proof.
  induction screen as [|p rest IH]; simpl; [constructor|].
  assert (Hb : forall z, is_uint8 (Z.land z 0xFF)).
  { intros z. change 0xFF with (Z.ones 8). rewrite Z.land_ones by lia.
    apply byte_is_uint8. }
  constructor; [apply Hb|]. constructor; [apply Hb | exact IH].
Qed.

Lemma uint16_bytes_length (screen : list Z) :
  List.length (flat_map uint16_bytes screen) = (2 * List.length screen)%nat.
Proof. induction screen as [|p rest IH]; simpl; [reflexivity | rewrite IH; lia]. Qed.

Lemma memcpy_all {A : Type} (dest src : list A) (n : Z) :
  Z.of_nat (List.length src) = n -> Z.of_nat (List.length dest) = n ->
  memcpy dest src n = src.
Proof.
  intros Hs Hd. unfold memcpy.
  rewrite firstn_all2 by lia. rewrite skipn_all2 by lia. apply app_nil_r.
Qed.

(** X3: a [submitScreen] whose pump reports no error and leaves the pipeline
    neither failed nor in flight, and whose two submissions are accepted,
    returns normally with the frame in flight: the header and then the data
    transfer were submitted, the screen buffer is as it was, and the
    transfer buffer holds the little-endian bytes of the screen buffer, each
    combined with its pattern byte - shaping it once more gives those bytes
    back. *)
Theorem submitScreen_sends_frame (hw : PushHardware) (ev : HandleEvents)
  (headerResult dataResult : Z) :
  mTransferFailed (mDisplayData hw) = false ->
  0 <= mDisplayError (mDisplayData hw) ->
  0 <= handleEventsResult ev ->
  mTransferFailed (deliver ev (mDisplayData hw)) = false ->
  mTransferInProgress (deliver ev (mDisplayData hw)) = false ->
  0 <= headerResult -> 0 <= dataResult ->
  Z.of_nat (List.length (mScreenBuffer hw)) = screenPixels ->
  Z.of_nat (List.length (mUsbTransferBuffer (mDisplayData hw))) = PUSH_SCREEN_SIZE_BYTES ->
  let after := snd (submitScreen ev headerResult dataResult hw) in
  fst (submitScreen ev headerResult dataResult hw) = Returned /\
  mTransferInProgress (mDisplayData after) = true /\
  mTransferFailed (mDisplayData after) = false /\
  usbSubmitted after
  = usbSubmitted hw ++ [(HeaderTransfer, headerResult); (DataTransfer, dataResult)] /\
  mScreenBuffer after = mScreenBuffer hw /\
  midiOut after = midiOut hw /\
  mUsbTransferBuffer (mDisplayData after)
  = shapeFrom 0 (flat_map uint16_bytes (mScreenBuffer hw)) /\
  applySignalShapingPattern (mUsbTransferBuffer (mDisplayData after))
  = flat_map uint16_bytes (mScreenBuffer hw).
Proof.
  intros Hnf Herr Hres Hnf' Hidle Hh Hd Hscreen Husb after.
  destruct (deliver_keeps ev (mDisplayData hw)) as [Ke [Kb _]].
  assert (Hbytes : Z.of_nat (List.length (flat_map uint16_bytes (mScreenBuffer hw)))
                   = PUSH_SCREEN_SIZE_BYTES).
  { rewrite uint16_bytes_length.
    unfold screenPixels, PUSH_SCREEN_SIZE_BYTES in *. lia. }
  assert (Hshaped : applySignalShapingPattern (flat_map uint16_bytes (mScreenBuffer hw))
                    = shapeFrom 0 (flat_map uint16_bytes (mScreenBuffer hw))).
  { unfold applySignalShapingPattern. apply xorWords_bytewise.
    - apply uint16_bytes_are_bytes.
    - reflexivity.
    - unfold PUSH_SCREEN_SIZE_BYTES, PUSH_SCREEN_HEIGHT, PUSH_SCREEN_STRIDE in *.
      change (160 * 1024 * 2 / 4) with 81920. lia. }
  assert (E : submitScreen ev headerResult dataResult hw
              = (Returned,
                 submitDisplayFrameTransfer headerResult dataResult
                   (set_mDisplayData
                      (set_mUsbTransferBuffer
                         (applySignalShapingPattern
                            (flat_map uint16_bytes (mScreenBuffer hw)))
                         (deliver ev (mDisplayData hw)))
                      (set_mDisplayData (deliver ev (mDisplayData hw)) hw)))).
  { unfold submitScreen. rewrite Hnf.
    replace (mDisplayError (mDisplayData hw) >=? 0) with true
      by (symmetry; rewrite Z.geb_leb; apply Z.leb_le; exact Herr).
    simpl negb. simpl andb. cbv iota.
    replace (handleEventsResult ev <? 0) with false
      by (symmetry; apply Z.ltb_ge; exact Hres).
    cbn [mDisplayData set_mDisplayData mScreenBuffer].
    rewrite Ke, Hnf', Hidle, Kb.
    replace (mDisplayError (mDisplayData hw) <? 0) with false
      by (symmetry; apply Z.ltb_ge; exact Herr).
    rewrite (memcpy_all _ _ _ Hbytes Husb). reflexivity. }
  unfold after. rewrite E. unfold submitDisplayFrameTransfer.
  replace (headerResult <? 0) with false by (symmetry; apply Z.ltb_ge; exact Hh).
  replace (dataResult <? 0) with false by (symmetry; apply Z.ltb_ge; exact Hd).
  cbn [fst snd mDisplayData mTransferInProgress mTransferFailed usbSubmitted
       mScreenBuffer midiOut mUsbTransferBuffer set_mDisplayData set_usbSubmitted
       set_mTransferInProgress set_mUsbTransferBuffer].
  rewrite Hnf', <- app_assoc.
  split; [reflexivity|]. split; [reflexivity|]. split; [reflexivity|].
  split; [reflexivity|]. split; [reflexivity|]. split; [reflexivity|].
  split; [exact Hshaped|].
  apply xorWords_involutive. apply uint16_bytes_are_bytes.
Qed.

Lemma usbBuffer_initDisplay (hw : PushHardware) :
  Z.of_nat (List.length (mUsbTransferBuffer (mDisplayData (initDisplay hw))))
  = PUSH_SCREEN_SIZE_BYTES.
Proof.
  unfold initDisplay, set_mDisplayData, set_mUsbTransferBuffer, mDisplayData,
    mUsbTransferBuffer.
  rewrite repeat_length, Z2Nat.id; [reflexivity|].
  unfold PUSH_SCREEN_SIZE_BYTES, PUSH_SCREEN_HEIGHT, PUSH_SCREEN_STRIDE. lia.
Qed.

Lemma submitScreen_sends_frame_witness :
  mTransferInProgress (mDisplayData constructed) = false /\
  fst (submitScreen noEvents 0 0 constructed) = Returned /\
  mTransferInProgress (mDisplayData (snd (submitScreen noEvents 0 0 constructed)))
  = true /\
  usbSubmitted (snd (submitScreen noEvents 0 0 constructed))
  = usbSubmitted constructed ++ [(HeaderTransfer, 0); (DataTransfer, 0)].
Proof.
  pose proof (submitScreen_sends_frame constructed noEvents 0 0
                eq_refl ltac:(simpl; lia) ltac:(simpl; lia) eq_refl eq_refl
                ltac:(lia) ltac:(lia)
                screenBuffer_constructed (usbBuffer_initDisplay ledsOff))
    as [Hret [Hin [_ [Hsub _]]]].
  split; [reflexivity|]. split; [exact Hret|]. split; [exact Hin | exact Hsub].
Defined.

Lemma submitScreen_error (ev : HandleEvents) (headerResult dataResult : Z)
  (hw : PushHardware) :
  mDisplayError (mDisplayData hw) < 0 ->
  submitScreen ev headerResult dataResult hw
  = (ThrowLibUsbError (mDisplayError (mDisplayData hw)), hw).
Proof.
  intros Herr. unfold submitScreen.
  replace (mDisplayError (mDisplayData hw) >=? 0) with false
    by (symmetry; rewrite Z.geb_leb; apply Z.leb_gt; exact Herr).
  rewrite andb_false_r. simpl andb. cbv iota.
  replace (mDisplayError (mDisplayData hw) <? 0) with true
    by (symmetry; apply Z.ltb_lt; exact Herr).
  reflexivity.
Qed.

Lemma submitScreen_idle (ev : HandleEvents) (headerResult dataResult : Z)
  (hw : PushHardware) :
  mTransferFailed (mDisplayData hw) = false ->
  0 <= mDisplayError (mDisplayData hw) ->
  0 <= handleEventsResult ev ->
  mTransferFailed (deliver ev (mDisplayData hw)) = false ->
  mTransferInProgress (deliver ev (mDisplayData hw)) = false ->
  exists hw2,
    submitScreen ev headerResult dataResult hw
    = (Returned, submitDisplayFrameTransfer headerResult dataResult hw2) /\
    usbSubmitted hw2 = usbSubmitted hw /\
    mTransferInProgress (mDisplayData hw2) = false /\
    mTransferFailed (mDisplayData hw2) = false.
Proof.
  intros Hnf Herr Hres Hnf' Hidle.
  destruct (deliver_keeps ev (mDisplayData hw)) as [Ke [Kb _]].
  eexists. split.
  - unfold submitScreen. rewrite Hnf.
    replace (mDisplayError (mDisplayData hw) >=? 0) with true
      by (symmetry; rewrite Z.geb_leb; apply Z.leb_le; exact Herr).
    simpl negb. simpl andb. cbv iota.
    replace (handleEventsResult ev <? 0) with false
      by (symmetry; apply Z.ltb_ge; exact Hres).
    cbn [mDisplayData set_mDisplayData mScreenBuffer].
    rewrite Ke, Hnf', Hidle.
    replace (mDisplayError (mDisplayData hw) <? 0) with false
      by (symmetry; apply Z.ltb_ge; exact Herr).
    reflexivity.
  - cbn [usbSubmitted mDisplayData set_mDisplayData set_mUsbTransferBuffer
         mTransferInProgress mTransferFailed].
    auto.
Qed.

(** X4: a refused submission is reported one call late. When
    [libusb_submit_transfer] refuses the header, or accepts it and refuses
    the data transfer, the [submitScreen] that made the call still returns
    normally, with no frame in flight (after a refused data transfer the
    header stays submitted on its own); it is the next [submitScreen],
    whatever its pump and submissions would answer, that throws the libusb
    error with the refusal's code and does nothing else. *)
Theorem refused_submission_throws_next (hw : PushHardware) (ev ev' : HandleEvents)
  (headerResult dataResult headerResult' dataResult' : Z) :
  mTransferFailed (mDisplayData hw) = false ->
  0 <= mDisplayError (mDisplayData hw) ->
  0 <= handleEventsResult ev ->
  mTransferFailed (deliver ev (mDisplayData hw)) = false ->
  mTransferInProgress (deliver ev (mDisplayData hw)) = false ->
  headerResult < 0 \/ dataResult < 0 ->
  let first := submitScreen ev headerResult dataResult hw in
  let code := if headerResult <? 0 then headerResult else dataResult in
  fst first = Returned /\
  mTransferInProgress (mDisplayData (snd first)) = false /\
  usbSubmitted (snd first)
  = usbSubmitted hw
    ++ (if headerResult <? 0 then [(HeaderTransfer, headerResult)]
        else [(HeaderTransfer, headerResult); (DataTransfer, dataResult)]) /\
  submitScreen ev' headerResult' dataResult' (snd first)
  = (ThrowLibUsbError code, snd first).
Proof.
  intros Hnf Herr Hres Hnf' Hidle Href first code.
  destruct (submitScreen_idle ev headerResult dataResult hw Hnf Herr Hres Hnf' Hidle)
    as [hw2 [E [Hsub [Hin Hf]]]].
  unfold first. rewrite E. cbn [fst snd].
  assert (Hstate :
    mTransferInProgress
      (mDisplayData (submitDisplayFrameTransfer headerResult dataResult hw2)) = false /\
    usbSubmitted (submitDisplayFrameTransfer headerResult dataResult hw2)
    = usbSubmitted hw
      ++ (if headerResult <? 0 then [(HeaderTransfer, headerResult)]
          else [(HeaderTransfer, headerResult); (DataTransfer, dataResult)]) /\
    mDisplayError (mDisplayData (submitDisplayFrameTransfer headerResult dataResult hw2))
    = code /\ code < 0).
  { unfold submitDisplayFrameTransfer, code.
    destruct (Z.ltb_spec headerResult 0) as [Hh|Hh].
    - cbn. rewrite Hin, Hsub. auto.
    - destruct (Z.ltb_spec dataResult 0) as [Hd|Hd]; [|lia].
      cbn. rewrite Hin, Hsub, <- app_assoc. auto. }
  destruct Hstate as [Hin' [Hsub' [Hcode Hneg]]].
  split; [reflexivity|]. split; [exact Hin'|]. split; [exact Hsub'|].
  rewrite submitScreen_error by (rewrite Hcode; exact Hneg).
  rewrite Hcode. reflexivity.
Qed.

Lemma refused_submission_throws_next_witness :
  let first := submitScreen noEvents 0 (-4) constructed in
  fst first = Returned /\
  usbSubmitted (snd first)
  = usbSubmitted constructed ++ [(HeaderTransfer, 0); (DataTransfer, -4)] /\
  submitScreen frameSent 0 0 (snd first) = (ThrowLibUsbError (-4), snd first).
Proof.
  pose proof (refused_submission_throws_next constructed noEvents frameSent
                0 (-4) 0 0 eq_refl ltac:(simpl; lia) ltac:(simpl; lia)
                eq_refl eq_refl ltac:(right; lia))
    as [Hret [_ [Hsub Hnext]]].
  intros first. split; [exact Hret|]. split; [exact Hsub | exact Hnext].
Defined.

(** X5: a failed completion is reported by the [submitScreen] whose pump
    delivers it: with no failure recorded before and a pump that reports no
    error, if any delivered completion carries user data and is not a
    success, the call throws "Display USB transfer failed", sets the failed
    flag, submits nothing and leaves the transfer buffer alone, in flight or
    not. *)
Theorem failed_completion_throws (hw : PushHardware) (ev : HandleEvents)
  (headerResult dataResult : Z) (t : libusb_transfer) :
  mTransferFailed (mDisplayData hw) = false ->
  0 <= mDisplayError (mDisplayData hw) ->
  0 <= handleEventsResult ev ->
  In (Some t) (completions ev) -> has_user_data t = true -> ~ completedOk t ->
  let after := snd (submitScreen ev headerResult dataResult hw) in
  fst (submitScreen ev headerResult dataResult hw)
  = ThrowRuntimeError "Display USB transfer failed" /\
  mTransferFailed (mDisplayData after) = true /\
  usbSubmitted after = usbSubmitted hw /\
  mUsbTransferBuffer (mDisplayData after) = mUsbTransferBuffer (mDisplayData hw).
Proof.
  intros Hnf Herr Hres Hin Hu Hnok after.
  destruct (deliver_keeps ev (mDisplayData hw)) as [Ke [Kb _]].
  assert (Hf : mTransferFailed (deliver ev (mDisplayData hw)) = true)
    by (apply (deliver_failure _ _ t Hin Hu Hnok)).
  assert (E : submitScreen ev headerResult dataResult hw
              = (ThrowRuntimeError "Display USB transfer failed",
                 set_mDisplayData (deliver ev (mDisplayData hw)) hw)).
  { unfold submitScreen. rewrite Hnf.
    replace (mDisplayError (mDisplayData hw) >=? 0) with true
      by (symmetry; rewrite Z.geb_leb; apply Z.leb_le; exact Herr).
    simpl negb. simpl andb. cbv iota.
    replace (handleEventsResult ev <? 0) with false
      by (symmetry; apply Z.ltb_ge; exact Hres).
    cbn [mDisplayData set_mDisplayData].
    rewrite Ke, Hf.
    replace (mDisplayError (mDisplayData hw) <? 0) with false
      by (symmetry; apply Z.ltb_ge; exact Herr).
    reflexivity. }
  unfold after. rewrite E. cbn [fst snd mDisplayData set_mDisplayData usbSubmitted].
  auto.
Qed.

Lemma failed_completion_throws_witness :
  let stalled := {| transfer_id := HeaderTransfer;
                    has_user_data := true;
                    status := LIBUSB_TRANSFER_STALL;
                    length := 16;
                    actual_length := 16 |} in
  let ev := {| completions := [Some stalled; completion DataTransfer 327680];
               handleEventsResult := 0 |} in
  ~ completedOk stalled /\
  fst (submitScreen ev 0 0 firstFrameInFlight)
  = ThrowRuntimeError "Display USB transfer failed" /\
  usbSubmitted (snd (submitScreen ev 0 0 firstFrameInFlight))
  = usbSubmitted firstFrameInFlight.
Proof.
  intros stalled ev.
  assert (Hnok : ~ completedOk stalled) by (intros [Hs _]; discriminate Hs).
  pose proof (failed_completion_throws firstFrameInFlight ev 0 0 stalled
                eq_refl ltac:(lazy; discriminate) ltac:(simpl; lia)
                (or_introl eq_refl) eq_refl Hnok)
    as [Hthrow [_ [Hsub _]]].
  split; [exact Hnok|]. split; [exact Hthrow | exact Hsub].
Defined.

(** X6: an error of the event pump is thrown but not recorded. When the
    pump reports an error and delivers nothing that changes the state,
    [submitScreen] throws the libusb error with the pump's code and leaves
    the facade exactly as it was - not failed - so that the next call pumps
    again; unlike a transfer failure, it is not sticky. *)
Theorem pump_error_not_sticky (hw : PushHardware) (ev : HandleEvents)
  (headerResult dataResult : Z) :
  mTransferFailed (mDisplayData hw) = false ->
  0 <= mDisplayError (mDisplayData hw) ->
  handleEventsResult ev < 0 ->
  Forall quiet (completions ev) ->
  submitScreen ev headerResult dataResult hw
  = (ThrowLibUsbError (handleEventsResult ev), hw) /\
  ~ failedState (mDisplayData (snd (submitScreen ev headerResult dataResult hw))).
Proof.
  intros Hnf Herr Hres Hquiet.
  assert (E : submitScreen ev headerResult dataResult hw
              = (ThrowLibUsbError (handleEventsResult ev), hw)).
  { unfold submitScreen. rewrite Hnf.
    replace (mDisplayError (mDisplayData hw) >=? 0) with true
      by (symmetry; rewrite Z.geb_leb; apply Z.leb_le; exact Herr).
    simpl negb. simpl andb. cbv iota.
    rewrite (deliver_quiet ev _ Hquiet), set_mDisplayData_same.
    replace (handleEventsResult ev <? 0) with true
      by (symmetry; apply Z.ltb_lt; exact Hres).
    reflexivity. }
  split; [exact E|]. rewrite E. cbn [snd].
  unfold failedState. intros [Hf|He]; [congruence | lia].
Qed.

Lemma pump_error_not_sticky_witness :
  let broken := {| completions := []; handleEventsResult := -1 |} in
  submitScreen broken 0 0 firstFrameInFlight
  = (ThrowLibUsbError (-1), firstFrameInFlight) /\
  fst (submitScreen frameSent 0 0 (snd (submitScreen broken 0 0 firstFrameInFlight)))
  = Returned.
Proof.
  intros broken.
  pose proof (pump_error_not_sticky firstFrameInFlight broken 0 0
                eq_refl ltac:(lazy; discriminate) ltac:(simpl; lia)
                (Forall_nil _)) as [E _].
  split; [exact E|]. rewrite E. lazy. reflexivity.
Defined.

(** ** LED output driver: what the messages address *)

Lemma grid_cases (P : Z -> Prop) :
  P 0 -> P 1 -> P 2 -> P 3 -> P 4 -> P 5 -> P 6 -> P 7 ->
  forall i, 0 <= i < 8 -> P i.
Proof.
  intros P0 P1 P2 P3 P4 P5 P6 P7 i Hi.
  assert (H : i = 0 \/ i = 1 \/ i = 2 \/ i = 3 \/ i = 4 \/ i = 5 \/ i = 6 \/ i = 7)
    by lia.
  destruct H as [->|[->|[->|[->|[->|[->|[->| ->]]]]]]]; assumption.
Qed.

Lemma padNoteNumber_decodes (x y : Z) :
  0 <= x < 8 -> 0 <= y < 8 ->
  exists note,
    padNoteNumber x y = Some note /\ 36 <= note <= 99 /\
    noteNumberToPadCoordinate note = (x, y).
Proof.
  intros Hx Hy. revert x Hx. revert y Hy.
  apply (grid_cases
           (fun y => forall x, 0 <= x < 8 ->
              exists note, padNoteNumber x y = Some note /\ 36 <= note <= 99 /\
                           noteNumberToPadCoordinate note = (x, y)));
    apply grid_cases; eexists; (split; [reflexivity|]);
      (split; [vm_compute; split; discriminate | reflexivity]).
Qed.

(** X7: the message [setPadLight] sends for a pad of the 8x8 grid decodes,
    by the input decoder, to that same pad: as a release when the value is
    0 (control-off), as a press otherwise (control-on). *)
Theorem setPadLight_decodes_to_pad (x y value : Z) (hw : PushHardware) :
  0 <= x < 8 -> 0 <= y < 8 ->
  List.length (mMessageBuffer hw) = 3%nat ->
  exists hw' message,
    setPadLight x y value hw = Some hw' /\
    midiOut hw' = midiOut hw ++ [message] /\
    onMessage_event message
    = Some {| id := Pad {| padX := x; padY := y |};
              pressed := negb (value =? 0) |}.
Proof.
  intros Hx Hy Hlen.
  destruct (padNoteNumber_decodes x y Hx Hy) as [note [Hnote [Hwin Hdec]]].
  assert (Hpad : isPad note = true) by (apply isPad_spec; exact Hwin).
  unfold setPadLight. rewrite Hnote. cbn [bind].
  rewrite (uint8_small note) by (unfold is_uint8; lia).
  destruct (value =? 0).
  - destruct (storeMessage_sent 0x80 note 0 hw Hlen) as [hw' [Hs [Hm [Ho _]]]].
    exists (sendMessage hw'), [0x80; note; 0]. rewrite Hs. cbn [bind].
    split; [reflexivity|]. split; [simpl; rewrite Hm, Ho; reflexivity|].
    unfold onMessage_event, decodeEvent.
    change (Z.land 0x80 0xF0 =? 0x90) with false.
    change (Z.land 0x80 0xF0 =? 0x80) with true.
    cbv iota. rewrite Hpad, Hdec. reflexivity.
  - destruct (storeMessage_sent 0x90 note (uint8 value) hw Hlen)
      as [hw' [Hs [Hm [Ho _]]]].
    exists (sendMessage hw'), [0x90; note; uint8 value]. rewrite Hs. cbn [bind].
    split; [reflexivity|]. split; [simpl; rewrite Hm, Ho; reflexivity|].
    unfold onMessage_event, decodeEvent.
    change (Z.land 0x90 0xF0 =? 0x90) with true.
    cbv iota. rewrite Hpad, Hdec. reflexivity.
Qed.

Lemma setPadLight_decodes_to_pad_witness :
  exists hw' message,
    setPadLight 6 2 122 powerOn = Some hw' /\
    midiOut hw' = midiOut powerOn ++ [message] /\
    onMessage_event message
    = Some {| id := Pad {| padX := 6; padY := 2 |}; pressed := true |}.
Proof.
  exact (setPadLight_decodes_to_pad 6 2 122 powerOn
           ltac:(lia) ltac:(lia) eq_refl).
Defined.

(** X8: the message [setButtonLight] sends decodes, by the input decoder,
    to the button it addresses (the number narrowed to a byte), as a press
    exactly when the value byte is 127. *)
Theorem setButtonLight_decodes_to_button (number value : Z) (hw : PushHardware) :
  List.length (mMessageBuffer hw) = 3%nat ->
  exists hw' message,
    setButtonLight number value hw = Some hw' /\
    midiOut hw' = midiOut hw ++ [message] /\
    onMessage_event message
    = Some {| id := Button (uint8 number); pressed := uint8 value =? 127 |}.
Proof.
  intros Hlen.
  destruct (sends_setButtonLight number value hw Hlen) as [hw' [Hs [Ho _]]].
  exists hw', [0xB0; uint8 number; uint8 value].
  split; [exact Hs|]. split; [exact Ho|]. reflexivity.
Qed.

Lemma setButtonLight_decodes_to_button_witness :
  exists hw' message,
    setButtonLight 102 127 powerOn = Some hw' /\
    midiOut hw' = midiOut powerOn ++ [message] /\
    onMessage_event message = Some {| id := Button 102; pressed := true |}.
Proof.
  exact (setButtonLight_decodes_to_button 102 127 powerOn eq_refl).
Defined.

Lemma array_load_row (y : Z) :
  array_load y Y_TO_PAD_ROW_START <> None <-> 0 <= y < 8.
Proof.
  unfold array_load. destruct (Z.ltb_spec y 0) as [Hneg|Hpos].
  - split; [congruence | lia].
  - rewrite nth_error_Some. simpl List.length. lia.
Qed.

Lemma row_step (y : Z) :
  0 <= y < 7 ->
  exists rowStart,
    array_load y Y_TO_PAD_ROW_START = Some rowStart /\
    array_load (y + 1) Y_TO_PAD_ROW_START = Some (rowStart - 8).
Proof.
  intros Hy.
  assert (Hc : y = 0 \/ y = 1 \/ y = 2 \/ y = 3 \/ y = 4 \/ y = 5 \/ y = 6) by lia.
  destruct Hc as [->|[->|[->|[->|[->|[->| ->]]]]]];
    eexists; split; reflexivity.
Qed.

(** X9: [setPadLight] checks neither coordinate. A row outside 0..7 reads
    outside [Y_TO_PAD_ROW_START] (undefined behaviour), and that is its only
    failure; a column is simply added to the row start, so that column
    [x + 8] of row [y + 1] is the pad at column [x] of row [y]. *)
Theorem setPadLight_unchecked (x y value : Z) (hw : PushHardware) :
  List.length (mMessageBuffer hw) = 3%nat ->
  (setPadLight x y value hw = None <-> ~ 0 <= y < 8) /\
  (0 <= y < 7 ->
   setPadLight (x + 8) (y + 1) value hw = setPadLight x y value hw).
Proof.
  intros Hlen. split.
  - unfold setPadLight, padNoteNumber.
    pose proof (array_load_row y) as Hrow.
    destruct (array_load y Y_TO_PAD_ROW_START) as [rowStart|]; cbn [bind].
    + assert (Hy : 0 <= y < 8) by (apply Hrow; discriminate).
      split; [|tauto]. intros Hnone. exfalso.
      destruct (value =? 0).
      * destruct (storeMessage_sent 0x80 (uint8 (int_add rowStart x)) 0 hw Hlen)
          as [hw' [Hs _]].
        rewrite Hs in Hnone. discriminate.
      * destruct (storeMessage_sent 0x90 (uint8 (int_add rowStart x)) (uint8 value)
                    hw Hlen) as [hw' [Hs _]].
        rewrite Hs in Hnone. discriminate.
    + split; [|reflexivity]. intros _ Hy. apply Hrow in Hy. congruence.
  - intros Hy.
    assert (E : padNoteNumber (x + 8) (y + 1) = padNoteNumber x y).
    { destruct (row_step y Hy) as [rowStart [Hrow Hnext]].
      unfold padNoteNumber. rewrite Hrow, Hnext. cbn [bind].
      unfold int_add. do 2 f_equal. lia. }
    unfold setPadLight. rewrite E. reflexivity.
Qed.

Lemma setPadLight_unchecked_witness :
  setPadLight 0 8 1 powerOn = None /\
  setPadLight 8 1 5 powerOn = setPadLight 0 0 5 powerOn.
Proof.
  pose proof (setPadLight_unchecked 0 8 1 powerOn eq_refl) as [[_ Hnone] _].
  pose proof (setPadLight_unchecked 0 0 5 powerOn eq_refl) as [_ Halias].
  split; [apply Hnone; lia | apply Halias; lia].
Defined.

(** ** Status lights *)

Lemma map_as_flat_map {A B : Type} (f : A -> B) (l : list A) :
  map f l = flat_map (fun a => [f a]) l.
Proof. induction l as [|a l IH]; simpl; [|rewrite IH]; reflexivity. Qed.

Lemma setButtonBarLights_sends (numLitButtons firstButtonId : Z) :
  sends (setButtonBarLights numLitButtons firstButtonId)
    (map (fun i =>
            [0xB0; uint8 (int_add firstButtonId i);
             uint8 (if i <? numLitButtons
                    then if numLitButtons <? 3 then 127
                         else if numLitButtons <? 6 then 7 else 126
                    else 0)])
       (loop_range 8)).
Proof.
  unfold setButtonBarLights. cbv zeta.
  rewrite map_as_flat_map.
  apply (sends_for_each
           (fun i h =>
              setButtonLight (int_add firstButtonId i)
                (if i <? numLitButtons
                 then if numLitButtons <? 3 then 127
                      else if numLitButtons <? 6 then 7 else 126
                 else 0) h)
           (fun i =>
              [[0xB0; uint8 (int_add firstButtonId i);
                uint8 (if i <? numLitButtons
                       then if numLitButtons <? 3 then 127
                            else if numLitButtons <? 6 then 7 else 126
                       else 0)]])).
  intros i _. apply sends_setButtonLight.
Qed.

Lemma loop_range_nth (i : Z) :
  0 <= i < 8 -> nth_error (loop_range 8) (Z.to_nat i) = Some i.
Proof. revert i. apply grid_cases; reflexivity. Qed.

(** X10: [setButtonBarLights] sends eight value-change messages, to the
    buttons [firstButtonId], ..., [firstButtonId + 7] in this order. Button
    [i] of the run is lit exactly when [i < numLitButtons], and all lit
    buttons get one colour: 127 below three lit buttons, 7 below six, 126
    from six on; the others get 0. *)
Theorem setButtonBarLights_bar (numLitButtons firstButtonId i : Z)
  (hw : PushHardware) :
  List.length (mMessageBuffer hw) = 3%nat ->
  0 <= firstButtonId -> firstButtonId + 7 < 256 ->
  0 <= i < 8 ->
  exists hw' messages value,
    setButtonBarLights numLitButtons firstButtonId hw = Some hw' /\
    midiOut hw' = midiOut hw ++ messages /\
    List.length messages = 8%nat /\
    nth_error messages (Z.to_nat i) = Some [0xB0; firstButtonId + i; value] /\
    (numLitButtons <= i -> value = 0) /\
    (i < numLitButtons ->
     (numLitButtons < 3 -> value = 127) /\
     (3 <= numLitButtons < 6 -> value = 7) /\
     (6 <= numLitButtons -> value = 126)).
Proof.
  intros Hlen Hfirst Hlast Hi.
  destruct (setButtonBarLights_sends numLitButtons firstButtonId hw Hlen)
    as [hw' [Hs [Ho _]]].
  set (value := if i <? numLitButtons
                then if numLitButtons <? 3 then 127
                     else if numLitButtons <? 6 then 7 else 126
                else 0).
  exists hw'. eexists. exists value.
  split; [exact Hs|]. split; [exact Ho|]. split; [reflexivity|]. split.
  - rewrite nth_error_map, (loop_range_nth i Hi). cbn [option_map].
    fold value. unfold int_add.
    rewrite int_wrap_small by (unfold is_int, INT_MIN, INT_MAX; lia).
    rewrite (uint8_small (firstButtonId + i)) by (unfold is_uint8; lia).
    rewrite (uint8_small value); [reflexivity|].
    unfold value, is_uint8.
    destruct (i <? numLitButtons); [|lia].
    destruct (numLitButtons <? 3); [lia|].
    destruct (numLitButtons <? 6); lia.
  - unfold value. split.
    + intros Hoff. destruct (Z.ltb_spec i numLitButtons); [lia | reflexivity].
    + intros Hon. destruct (Z.ltb_spec i numLitButtons); [|lia].
      destruct (Z.ltb_spec numLitButtons 3); [repeat split; lia|].
      destruct (Z.ltb_spec numLitButtons 6); repeat split; lia.
Qed.

Lemma setButtonBarLights_bar_witness :
  exists hw' messages value,
    setButtonBarLights 4 102 powerOn = Some hw' /\
    midiOut hw' = midiOut powerOn ++ messages /\
    List.length messages = 8%nat /\
    nth_error messages (Z.to_nat 3) = Some [0xB0; 102 + 3; value] /\
    value = 7.
Proof.
  destruct (setButtonBarLights_bar 4 102 3 powerOn eq_refl
              ltac:(lia) ltac:(lia) ltac:(lia))
    as [hw' [messages [value [Hs [Ho [Hl [Hn [_ Hon]]]]]]]].
  exists hw', messages, value.
  split; [exact Hs|]. split; [exact Ho|]. split; [exact Hl|]. split; [exact Hn|].
  apply (Hon ltac:(lia)). lia.
Defined.

Lemma setButtonBarLights_eight (numLitButtons firstButtonId : Z) (hw : PushHardware) :
  List.length (mMessageBuffer hw) = 3%nat ->
  exists hw',
    setButtonBarLights numLitButtons firstButtonId hw = Some hw' /\
    List.length (mMessageBuffer hw') = 3%nat /\
    List.length (midiOut hw') = (List.length (midiOut hw) + 8)%nat /\
    mScreenBuffer hw' = mScreenBuffer hw /\
    mDisplayData hw' = mDisplayData hw /\
    usbSubmitted hw' = usbSubmitted hw.
Proof.
  intros Hlen.
  destruct (setButtonBarLights_sends numLitButtons firstButtonId hw Hlen)
    as [hw' [Hs [Ho [Hl [Hsc [Hd Hu]]]]]].
  exists hw'. split; [exact Hs|]. split; [exact Hl|]. split; [|auto].
  rewrite Ho, length_app. reflexivity.
Qed.

Lemma updateHealthArmorDisplay_bars
  (healthButtonCount armorButtonCount ammoButtonCount : Z)
  (self : StatusLights) (hw : PushHardware) :
  List.length (mMessageBuffer hw) = 3%nat ->
  exists self' hw',
    updateHealthArmorDisplay healthButtonCount armorButtonCount ammoButtonCount
      self hw = Some (self', hw') /\
    self' = {| mLastHealthButtonCount := healthButtonCount;
               mLastArmorButtonCount := armorButtonCount;
               mLastAmmoButtonCount := ammoButtonCount |} /\
    List.length (midiOut hw')
    = (List.length (midiOut hw)
       + 8 * (changed healthButtonCount (mLastHealthButtonCount self)
              + changed armorButtonCount (mLastArmorButtonCount self)
              + changed ammoButtonCount (mLastAmmoButtonCount self)))%nat /\
    (self' = self -> hw' = hw) /\
    updateHealthArmorDisplay healthButtonCount armorButtonCount ammoButtonCount
      self' hw' = Some (self', hw') /\
    mScreenBuffer hw' = mScreenBuffer hw /\
    mDisplayData hw' = mDisplayData hw /\
    usbSubmitted hw' = usbSubmitted hw.
Proof.
  intros Hlen. destruct self as [lastH lastA lastM].
  unfold updateHealthArmorDisplay, changed. cbn [mLastHealthButtonCount
    mLastArmorButtonCount mLastAmmoButtonCount].
  destruct (setButtonBarLights_eight healthButtonCount 102 hw Hlen)
    as [hwH [EH [LH [OH [SH [DH UH]]]]]].
  set (hw1 := if healthButtonCount =? lastH then hw else hwH).
  assert (L1 : List.length (mMessageBuffer hw1) = 3%nat)
    by (unfold hw1; destruct (healthButtonCount =? lastH); assumption).
  destruct (setButtonBarLights_eight armorButtonCount 20 hw1 L1)
    as [hwA [EA [LA [OA [SA [DA UA]]]]]].
  set (hw2 := if armorButtonCount =? lastA then hw1 else hwA).
  assert (L2 : List.length (mMessageBuffer hw2) = 3%nat)
    by (unfold hw2; destruct (armorButtonCount =? lastA); assumption).
  destruct (setButtonBarLights_eight ammoButtonCount 36 hw2 L2)
    as [hwM [EM [LM [OM [SM [DM UM]]]]]].
  exists {| mLastHealthButtonCount := healthButtonCount;
            mLastArmorButtonCount := armorButtonCount;
            mLastAmmoButtonCount := ammoButtonCount |},
         (if ammoButtonCount =? lastM then hw2 else hwM).
  unfold hw2, hw1 in *.
  rewrite !Z.eqb_refl. cbn [negb bind fst snd].
  destruct (Z.eqb_spec healthButtonCount lastH) as [->|NH];
    destruct (Z.eqb_spec armorButtonCount lastA) as [->|NA];
    destruct (Z.eqb_spec ammoButtonCount lastM) as [->|NM];
    cbn [negb bind fst snd mLastHealthButtonCount mLastArmorButtonCount
         mLastAmmoButtonCount];
    rewrite ?EH; cbn [bind fst snd mLastHealthButtonCount mLastArmorButtonCount
                      mLastAmmoButtonCount];
    rewrite ?Z.eqb_refl;
    try match goal with
        | |- context [lastA =? lastA] => rewrite Z.eqb_refl
        end;
    repeat match goal with
           | N : ?a <> ?b |- context [?a =? ?b] =>
               replace (a =? b) with false by (symmetry; apply Z.eqb_neq; exact N)
           end;
    cbn [negb bind fst snd mLastHealthButtonCount mLastArmorButtonCount
         mLastAmmoButtonCount];
    rewrite ?EA; cbn [bind fst snd mLastHealthButtonCount mLastArmorButtonCount
                      mLastAmmoButtonCount];
    rewrite ?Z.eqb_refl;
    repeat match goal with
           | N : ?a <> ?b |- context [?a =? ?b] =>
               replace (a =? b) with false by (symmetry; apply Z.eqb_neq; exact N)
           end;
    cbn [negb bind fst snd mLastHealthButtonCount mLastArmorButtonCount
         mLastAmmoButtonCount];
    rewrite ?EM; cbn [bind];
    (split; [reflexivity|]); (split; [reflexivity|]);
    (split; [rewrite ?OM, ?OA, ?OH; lia|]);
    (split; [intros Heq; inversion Heq; congruence|]);
    (split; [reflexivity|]);
    (split; [congruence|]); (split; congruence).
Qed.


(** X11: [updateHealthArmorDisplay] sends LED messages only for the bars
    whose count differs from the one last shown - eight messages for each -
    and none when all three counts are unchanged; it remembers the counts it
    was given, so that calling it again with the same counts sends nothing;
    it leaves the screen buffer and the transfer state alone. *)
Theorem updateHealthArmorDisplay_debounced
  (healthButtonCount armorButtonCount ammoButtonCount : Z)
  (self : StatusLights) (hw : PushHardware) :
  List.length (mMessageBuffer hw) = 3%nat ->
  exists self' hw',
    updateHealthArmorDisplay healthButtonCount armorButtonCount ammoButtonCount
      self hw = Some (self', hw') /\
    self' = {| mLastHealthButtonCount := healthButtonCount;
               mLastArmorButtonCount := armorButtonCount;
               mLastAmmoButtonCount := ammoButtonCount |} /\
    List.length (midiOut hw')
    = (List.length (midiOut hw)
       + 8 * (changed healthButtonCount (mLastHealthButtonCount self)
              + changed armorButtonCount (mLastArmorButtonCount self)
              + changed ammoButtonCount (mLastAmmoButtonCount self)))%nat /\
    (self' = self -> hw' = hw) /\
    updateHealthArmorDisplay healthButtonCount armorButtonCount ammoButtonCount
      self' hw' = Some (self', hw') /\
    mScreenBuffer hw' = mScreenBuffer hw /\
    mDisplayData hw' = mDisplayData hw /\
    usbSubmitted hw' = usbSubmitted hw.
Proof. apply updateHealthArmorDisplay_bars. Qed.

Lemma updateHealthArmorDisplay_debounced_witness :
  let shown := {| mLastHealthButtonCount := 8;
                  mLastArmorButtonCount := 8;
                  mLastAmmoButtonCount := 4 |} in
  exists self' hw',
    updateHealthArmorDisplay 8 5 4 shown powerOn = Some (self', hw') /\
    List.length (midiOut hw') = 8%nat /\
    updateHealthArmorDisplay 8 5 4 self' hw' = Some (self', hw').
Proof.
  intros shown.
  destruct (updateHealthArmorDisplay_debounced 8 5 4 shown powerOn eq_refl)
    as [self' [hw' [Hu [_ [Hl [_ [Hagain _]]]]]]].
  exists self', hw'. split; [exact Hu|]. split; [exact Hl | exact Hagain].
Defined.

(** ** Blit: what is written where *)

Lemma store_nat_nth {A : Type} (x : A) (v : list A) :
  forall i v', store_nat i x v = Some v' ->
    forall j, nth_error v' j = if Nat.eqb j i then Some x else nth_error v j.
Proof.
  induction v as [|a v IH]; intros i v' H j; [destruct i; discriminate|].
  destruct i as [|i]; simpl in H.
  - inversion H; subst. destruct j; reflexivity.
  - destruct (store_nat i x v) as [v''|] eqn:Hs; simpl in H; [|discriminate].
    inversion H; subst. destruct j as [|j]; [reflexivity|].
    simpl. apply (IH i v'' Hs j).
Qed.

Lemma vec_store_nth {A : Type} (i : Z) (x : A) (v v' : list A) :
  vec_store i x v = Some v' ->
  forall j, nth_error v' j = if Z.of_nat j =? i then Some x else nth_error v j.
Proof.
  unfold vec_store. destruct (Z.ltb_spec i 0) as [Hneg|Hpos]; [discriminate|].
  intros Hs j. rewrite (store_nat_nth x v _ _ Hs j).
  destruct (Nat.eqb_spec j (Z.to_nat i)), (Z.eqb_spec (Z.of_nat j) i);
    try reflexivity; lia.
Qed.

Lemma stores_frame (value : PixelCopy -> Z) (writes : list PixelCopy) :
  forall screen screen',
    for_each (fun w s => vec_store (destIndex w) (value w) s) writes screen
    = Some screen' ->
    forall j, (forall w, In w writes -> destIndex w <> Z.of_nat j) ->
      nth_error screen' j = nth_error screen j.
Proof.
  induction writes as [|a writes IH]; intros screen screen' H j Hout; simpl in H.
  - inversion H. reflexivity.
  - destruct (vec_store (destIndex a) (value a) screen) as [s1|] eqn:Hs;
      simpl in H; [|discriminate].
    rewrite (IH s1 screen' H j (fun w Hw => Hout w (or_intror Hw))).
    rewrite (vec_store_nth _ _ _ _ Hs j).
    destruct (Z.eqb_spec (Z.of_nat j) (destIndex a)) as [E|_]; [|reflexivity].
    exfalso. apply (Hout a (or_introl eq_refl)). auto.
Qed.

Lemma stores_content (value : PixelCopy -> Z) (writes : list PixelCopy) :
  forall screen screen' w,
    for_each (fun w s => vec_store (destIndex w) (value w) s) writes screen
    = Some screen' ->
    In w writes ->
    (forall w', In w' writes -> destIndex w' = destIndex w -> value w' = value w) ->
    nth_error screen' (Z.to_nat (destIndex w)) = Some (value w).
Proof.
  induction writes as [|a writes IH]; intros screen screen' w H Hin Hsame;
    simpl in H; [contradiction|].
  destruct (vec_store (destIndex a) (value a) screen) as [s1|] eqn:Hs;
    simpl in H; [|discriminate].
  destruct (existsb (fun w' => destIndex w' =? destIndex w) writes) eqn:Hlater.
  - apply existsb_exists in Hlater. destruct Hlater as [w' [Hw' Heq]].
    apply Z.eqb_eq in Heq.
    rewrite <- Heq, <- (Hsame w' (or_intror Hw') Heq).
    apply (IH s1 screen' w' H Hw').
    intros w'' Hw'' Heq''.
    rewrite (Hsame w'' (or_intror Hw'') ltac:(congruence)).
    symmetry. apply (Hsame w' (or_intror Hw') Heq).
  - assert (Hnone : forall w', In w' writes -> destIndex w' <> destIndex w).
    { intros w' Hw' Heq.
      assert (Hex : existsb (fun w' => destIndex w' =? destIndex w) writes = true).
      { apply existsb_exists. exists w'. split; [exact Hw' | apply Z.eqb_eq; exact Heq]. }
      congruence. }
    destruct Hin as [->|Hin]; [|exfalso; apply (Hnone w Hin); reflexivity].
    apply vec_store_inv in Hs as Hrange. destruct Hrange as [Hrange _].
    rewrite (stores_frame value writes s1 screen' H).
    + rewrite (vec_store_nth _ _ _ _ Hs).
      rewrite Z2Nat.id by lia. rewrite Z.eqb_refl. reflexivity.
    + intros w' Hw'. rewrite Z2Nat.id by lia. apply Hnone. exact Hw'.
Qed.

Lemma copyToScreen_pixel_index (srcX srcY destX destY x y : Z) :
  0 <= destX -> 0 <= destY -> 0 <= x -> 0 <= y ->
  destX + x < PUSH_SCREEN_WIDTH -> destY + y < PUSH_SCREEN_HEIGHT ->
  destIndex (copyToScreen_pixel srcX srcY destX destY x y)
  = destX + x + (destY + y) * PUSH_SCREEN_STRIDE.
Proof.
  unfold PUSH_SCREEN_WIDTH, PUSH_SCREEN_HEIGHT. intros HdX HdY Hx Hy Hcol Hrow.
  unfold copyToScreen_pixel, destIndex, int_add, int_mul, PUSH_SCREEN_STRIDE.
  rewrite (int_wrap_small (destX + x)) by (unfold is_int, INT_MIN, INT_MAX; lia).
  rewrite (int_wrap_small (y + destY)) by (unfold is_int, INT_MIN, INT_MAX; lia).
  rewrite (int_wrap_small ((y + destY) * 1024))
    by (unfold is_int, INT_MIN, INT_MAX; lia).
  rewrite int_wrap_small by (unfold is_int, INT_MIN, INT_MAX; lia).
  lia.
Qed.

Lemma copyToScreen_rect (srcBuffer : Z -> Z)
  (srcX srcY srcWidth srcHeight destX destY : Z) (hw : PushHardware) :
  is_int srcWidth -> is_int srcHeight -> is_int destX -> is_int destY ->
  0 <= destX -> 0 <= destY ->
  destX + srcWidth <= INT_MAX -> destY + srcHeight <= INT_MAX ->
  Z.of_nat (List.length (mScreenBuffer hw)) = screenPixels ->
  exists hw',
    copyToScreen srcBuffer srcX srcY srcWidth srcHeight destX destY hw = Some hw' /\
    List.length (mScreenBuffer hw') = List.length (mScreenBuffer hw) /\
    mMessageBuffer hw' = mMessageBuffer hw /\
    midiOut hw' = midiOut hw /\
    mDisplayData hw' = mDisplayData hw /\
    usbSubmitted hw' = usbSubmitted hw /\
    forall col row,
      0 <= col < PUSH_SCREEN_STRIDE -> 0 <= row < PUSH_SCREEN_HEIGHT ->
      let width := clampExtent destX srcWidth PUSH_SCREEN_WIDTH in
      let height := clampExtent destY srcHeight PUSH_SCREEN_HEIGHT in
      let inside := destX <= col < destX + width /\ destY <= row < destY + height in
      (inside ->
       nth_error (mScreenBuffer hw') (Z.to_nat (col + row * PUSH_SCREEN_STRIDE))
       = Some (toBGR565
                 (srcBuffer
                    (srcIndex (copyToScreen_pixel srcX srcY destX destY
                                 (col - destX) (row - destY)))))) /\
      (~ inside ->
       nth_error (mScreenBuffer hw') (Z.to_nat (col + row * PUSH_SCREEN_STRIDE))
       = nth_error (mScreenBuffer hw) (Z.to_nat (col + row * PUSH_SCREEN_STRIDE))).
Proof.
  intros Hw Hh HdXi HdYi HdX HdY HsumX HsumY Hlen.
  assert (HlimX : 0 <= PUSH_SCREEN_WIDTH <= INT_MAX)
    by (unfold PUSH_SCREEN_WIDTH, INT_MAX; lia).
  assert (HlimY : 0 <= PUSH_SCREEN_HEIGHT <= INT_MAX)
    by (unfold PUSH_SCREEN_HEIGHT, INT_MAX; lia).
  set (writes := copyToScreen_writes srcX srcY srcWidth srcHeight destX destY).
  set (value := fun w => toBGR565 (srcBuffer (srcIndex w))).
  assert (Hpix : forall w, In w writes ->
            exists x y,
              0 <= x /\ 0 <= y /\
              x < clampExtent destX srcWidth PUSH_SCREEN_WIDTH /\
              y < clampExtent destY srcHeight PUSH_SCREEN_HEIGHT /\
              destX + x < PUSH_SCREEN_WIDTH /\ destY + y < PUSH_SCREEN_HEIGHT /\
              w = copyToScreen_pixel srcX srcY destX destY x y /\
              destIndex w = destX + x + (destY + y) * PUSH_SCREEN_STRIDE).
  { intros w Hin. apply in_copyToScreen_writes in Hin.
    destruct Hin as [x [y [Hy [Hx ->]]]].
    assert (Hcol : destX + x < PUSH_SCREEN_WIDTH)
      by (apply (clampExtent_bound destX srcWidth); assumption).
    assert (Hrow : destY + y < PUSH_SCREEN_HEIGHT)
      by (apply (clampExtent_bound destY srcHeight); assumption).
    exists x, y. repeat split; try lia.
    apply copyToScreen_pixel_index; lia. }
  destruct (stores_succeed value writes (mScreenBuffer hw)) as [screen' [Hs Hl]].
  { apply Forall_forall. intros w Hin.
    destruct (Hpix w Hin) as [x [y [Hx [Hy [_ [_ [Hcol [Hrow [_ Hidx]]]]]]]]].
    rewrite Hlen, Hidx.
    unfold screenPixels, PUSH_SCREEN_WIDTH, PUSH_SCREEN_HEIGHT, PUSH_SCREEN_STRIDE in *.
    lia. }
  exists (set_mScreenBuffer screen' hw).
  split.
  { pose proof Hs as Hs0. unfold value, writes in Hs0.
    unfold copyToScreen. rewrite Hs0. reflexivity. }
  split; [exact Hl|]. do 4 (split; [reflexivity|]).
  intros col row Hc Hr width height inside.
  cbn [mScreenBuffer set_mScreenBuffer]. split.
  - intros [HinX HinY].
    set (w := copyToScreen_pixel srcX srcY destX destY (col - destX) (row - destY)).
    assert (Hin : In w writes).
    { apply in_copyToScreen_writes. exists (col - destX), (row - destY).
      fold width. fold height. repeat split; try lia. }
    destruct (Hpix w Hin) as [x [y [Hx [Hy [_ [_ [Hcol [Hrow [Hwxy Hidx]]]]]]]]].
    assert (Hcol' : destX + (col - destX) < PUSH_SCREEN_WIDTH)
      by (apply (clampExtent_bound destX srcWidth); try assumption; fold width; lia).
    assert (Hrow' : destY + (row - destY) < PUSH_SCREEN_HEIGHT)
      by (apply (clampExtent_bound destY srcHeight); try assumption; fold height; lia).
    assert (Hidx' : destIndex w = col + row * PUSH_SCREEN_STRIDE).
    { unfold w. rewrite copyToScreen_pixel_index by lia. lia. }
    rewrite <- Hidx'.
    apply (stores_content value writes (mScreenBuffer hw) screen' w Hs Hin).
    intros w' Hin' Heq.
    destruct (Hpix w' Hin') as [x' [y' [Hx' [Hy' [_ [_ [Hc' [Hr' [Hw' Hi']]]]]]]]].
    assert (Hxy : x' = col - destX /\ y' = row - destY).
    { rewrite Hi', Hidx' in Heq.
      unfold PUSH_SCREEN_WIDTH, PUSH_SCREEN_HEIGHT, PUSH_SCREEN_STRIDE in *. lia. }
    destruct Hxy as [-> ->]. rewrite Hw'. reflexivity.
  - intros Hout.
    apply (stores_frame value writes (mScreenBuffer hw) screen' Hs).
    intros w' Hin' Heq.
    destruct (Hpix w' Hin') as [x' [y' [Hx' [Hy' [Hxw [Hyh [Hc' [Hr' [_ Hi']]]]]]]]].
    apply Hout. unfold inside. fold width in Hxw. fold height in Hyh.
    rewrite Hi', Z2Nat.id in Heq
      by (unfold PUSH_SCREEN_STRIDE, PUSH_SCREEN_HEIGHT in *; lia).
    unfold PUSH_SCREEN_WIDTH, PUSH_SCREEN_HEIGHT, PUSH_SCREEN_STRIDE in *. lia.
Qed.

(** X12: under the preconditions of the in-bounds blit, [copyToScreen]
    leaves in every pixel of the clamped destination rectangle the
    conversion of the source pixel it copies there, leaves every screen
    pixel outside that rectangle as it was, and touches nothing but the
    screen buffer. *)
Theorem copyToScreen_fills_rectangle (srcBuffer : Z -> Z)
  (srcX srcY srcWidth srcHeight destX destY : Z) (hw : PushHardware) :
  is_int srcWidth -> is_int srcHeight -> is_int destX -> is_int destY ->
  0 <= destX -> 0 <= destY ->
  destX + srcWidth <= INT_MAX -> destY + srcHeight <= INT_MAX ->
  Z.of_nat (List.length (mScreenBuffer hw)) = screenPixels ->
  exists hw',
    copyToScreen srcBuffer srcX srcY srcWidth srcHeight destX destY hw = Some hw' /\
    List.length (mScreenBuffer hw') = List.length (mScreenBuffer hw) /\
    mMessageBuffer hw' = mMessageBuffer hw /\
    midiOut hw' = midiOut hw /\
    mDisplayData hw' = mDisplayData hw /\
    usbSubmitted hw' = usbSubmitted hw /\
    forall col row,
      0 <= col < PUSH_SCREEN_STRIDE -> 0 <= row < PUSH_SCREEN_HEIGHT ->
      let width := clampExtent destX srcWidth PUSH_SCREEN_WIDTH in
      let height := clampExtent destY srcHeight PUSH_SCREEN_HEIGHT in
      let inside := destX <= col < destX + width /\ destY <= row < destY + height in
      (inside ->
       nth_error (mScreenBuffer hw') (Z.to_nat (col + row * PUSH_SCREEN_STRIDE))
       = Some (toBGR565
                 (srcBuffer
                    (srcIndex (copyToScreen_pixel srcX srcY destX destY
                                 (col - destX) (row - destY)))))) /\
      (~ inside ->
       nth_error (mScreenBuffer hw') (Z.to_nat (col + row * PUSH_SCREEN_STRIDE))
       = nth_error (mScreenBuffer hw) (Z.to_nat (col + row * PUSH_SCREEN_STRIDE))).
Proof. apply copyToScreen_rect. Qed.

Lemma copyToScreen_fills_rectangle_witness :
  exists hw',
    copyToScreen (fun _ => 0xFF0000) 0 0 320 160 320 0 constructed = Some hw' /\
    nth_error (mScreenBuffer hw') (Z.to_nat (320 + 0 * PUSH_SCREEN_STRIDE)) = Some 0x1F /\
    nth_error (mScreenBuffer hw') (Z.to_nat (319 + 0 * PUSH_SCREEN_STRIDE))
    = nth_error (mScreenBuffer constructed) (Z.to_nat (319 + 0 * PUSH_SCREEN_STRIDE)).
Proof.
  assert (H320 : is_int 320) by (unfold is_int, INT_MIN, INT_MAX; lia).
  assert (H160 : is_int 160) by (unfold is_int, INT_MIN, INT_MAX; lia).
  assert (H0 : is_int 0) by (unfold is_int, INT_MIN, INT_MAX; lia).
  assert (HX : 320 + 320 <= INT_MAX) by (unfold INT_MAX; lia).
  assert (HY : 0 + 160 <= INT_MAX) by (unfold INT_MAX; lia).
  destruct (copyToScreen_fills_rectangle (fun _ => 0xFF0000) 0 0 320 160 320 0
              constructed H320 H160 H320 H0 ltac:(lia) ltac:(lia) HX HY
              screenBuffer_constructed)
    as [hw' [Hc [_ [_ [_ [_ [_ Hpix]]]]]]].
  assert (Hrow : 0 <= 0 < PUSH_SCREEN_HEIGHT) by (unfold PUSH_SCREEN_HEIGHT; lia).
  exists hw'. split; [exact Hc|]. split.
  - apply (proj1 (Hpix 320 0 ltac:(unfold PUSH_SCREEN_STRIDE; lia) Hrow)).
    change (clampExtent 320 320 PUSH_SCREEN_WIDTH) with 320.
    change (clampExtent 0 160 PUSH_SCREEN_HEIGHT) with 160. lia.
  - apply (proj2 (Hpix 319 0 ltac:(unfold PUSH_SCREEN_STRIDE; lia) Hrow)).
    change (clampExtent 320 320 PUSH_SCREEN_WIDTH) with 320.
    change (clampExtent 0 160 PUSH_SCREEN_HEIGHT) with 160. lia.
Defined.

Lemma frame_index (x y : Z) :
  0 <= x < 320 -> 0 <= y < 200 ->
  int_add (int_add x 0) (int_mul y DOOMGENERIC_RESX) = x + y * 320.
Proof.
  intros Hx Hy. unfold int_add, int_mul, DOOMGENERIC_RESX.
  rewrite (int_wrap_small (x + 0)) by (unfold is_int, INT_MIN, INT_MAX; lia).
  rewrite (int_wrap_small (y * 320)) by (unfold is_int, INT_MIN, INT_MAX; lia).
  rewrite int_wrap_small by (unfold is_int, INT_MIN, INT_MAX; lia). lia.
Qed.

Lemma drawFrame_blits_pixels (pFrameBuffer : Z -> Z) (hw : PushHardware) :
  Z.of_nat (List.length (mScreenBuffer hw)) = screenPixels ->
  exists hw',
    drawFrame_blits pFrameBuffer hw = Some hw' /\
    List.length (mScreenBuffer hw') = List.length (mScreenBuffer hw) /\
    midiOut hw' = midiOut hw /\
    mDisplayData hw' = mDisplayData hw /\
    usbSubmitted hw' = usbSubmitted hw /\
    forall col row,
      0 <= col < PUSH_SCREEN_STRIDE -> 0 <= row < PUSH_SCREEN_HEIGHT ->
      let pixel :=
        nth_error (mScreenBuffer hw') (Z.to_nat (col + row * PUSH_SCREEN_STRIDE)) in
      (320 <= col < 640 ->
       pixel = Some (toBGR565 (pFrameBuffer (col - 320 + row * 320)))) /\
      (640 <= col < 960 -> row < 40 ->
       pixel = Some (toBGR565 (pFrameBuffer (col - 640 + (row + 160) * 320)))) /\
      (col < 320 \/ 960 <= col \/ (640 <= col /\ 40 <= row) ->
       pixel = nth_error (mScreenBuffer hw) (Z.to_nat (col + row * PUSH_SCREEN_STRIDE))).
Proof.
  intros Hlen.
  assert (H320 : is_int 320) by (unfold is_int, INT_MIN, INT_MAX; lia).
  assert (H160 : is_int 160) by (unfold is_int, INT_MIN, INT_MAX; lia).
  assert (H640 : is_int 640) by (unfold is_int, INT_MIN, INT_MAX; lia).
  assert (H40 : is_int 40) by (unfold is_int, INT_MIN, INT_MAX; lia).
  assert (H0 : is_int 0) by (unfold is_int, INT_MIN, INT_MAX; lia).
  destruct (copyToScreen_rect pFrameBuffer 0 0 320 160 320 0 hw
              H320 H160 H320 H0 ltac:(lia) ltac:(lia)
              ltac:(unfold INT_MAX; lia) ltac:(unfold INT_MAX; lia) Hlen)
    as [hw1 [Hc1 [Hl1 [_ [Ho1 [Hd1 [Hu1 Hpix1]]]]]]].
  assert (Hlen1 : Z.of_nat (List.length (mScreenBuffer hw1)) = screenPixels)
    by (rewrite Hl1; exact Hlen).
  destruct (copyToScreen_rect pFrameBuffer 0 160 320 40 640 0 hw1
              H320 H40 H640 H0 ltac:(lia) ltac:(lia)
              ltac:(unfold INT_MAX; lia) ltac:(unfold INT_MAX; lia) Hlen1)
    as [hw2 [Hc2 [Hl2 [_ [Ho2 [Hd2 [Hu2 Hpix2]]]]]]].
  exists hw2. split.
  { unfold drawFrame_blits. cbv zeta.
    change (Z.quot (PUSH_SCREEN_WIDTH - DOOMGENERIC_RESX) 2) with 320.
    change DOOMGENERIC_RESX with 320. change PUSH_SCREEN_HEIGHT with 160.
    change (int_sub DOOMGENERIC_RESY 160) with 40.
    change (int_add 320 320) with 640.
    rewrite Hc1. cbn [bind]. exact Hc2. }
  split; [congruence|]. split; [congruence|]. split; [congruence|].
  split; [congruence|].
  intros col row Hc Hr pixel.
  specialize (Hpix1 col row Hc Hr). specialize (Hpix2 col row Hc Hr).
  cbv zeta in Hpix1, Hpix2.
  change (clampExtent 320 320 PUSH_SCREEN_WIDTH) with 320 in Hpix1.
  change (clampExtent 0 160 PUSH_SCREEN_HEIGHT) with 160 in Hpix1.
  change (clampExtent 640 320 PUSH_SCREEN_WIDTH) with 320 in Hpix2.
  change (clampExtent 0 40 PUSH_SCREEN_HEIGHT) with 40 in Hpix2.
  destruct Hpix1 as [In1 Out1]. destruct Hpix2 as [In2 Out2].
  unfold PUSH_SCREEN_HEIGHT in Hr.
  assert (Hsrc1 : 320 <= col < 640 ->
            srcIndex (copyToScreen_pixel 0 0 320 0 (col - 320) (row - 0))
            = col - 320 + row * 320).
  { intros Hcol. unfold copyToScreen_pixel, srcIndex.
    replace (int_add (row - 0) 0) with row
      by (unfold int_add; rewrite int_wrap_small;
          [lia | unfold is_int, INT_MIN, INT_MAX; lia]).
    apply frame_index; lia. }
  assert (Hsrc2 : 640 <= col < 960 -> row < 40 ->
            srcIndex (copyToScreen_pixel 0 160 640 0 (col - 640) (row - 0))
            = col - 640 + (row + 160) * 320).
  { intros Hcol Hrow. unfold copyToScreen_pixel, srcIndex.
    replace (int_add (row - 0) 160) with (row + 160)
      by (unfold int_add; rewrite int_wrap_small;
          [lia | unfold is_int, INT_MIN, INT_MAX; lia]).
    apply frame_index; lia. }
  unfold pixel. split; [|split].
  - intros Hcol. rewrite Out2 by lia. rewrite In1 by lia.
    rewrite (Hsrc1 Hcol). reflexivity.
  - intros Hcol Hrow. rewrite In2 by lia. rewrite (Hsrc2 Hcol Hrow). reflexivity.
  - intros Hbg. rewrite Out2 by lia. apply Out1. lia.
Qed.


(** X13: the two blits of [drawFrame] always run to their end on the
    device-sized screen buffer and lay the 320 x 200 frame out as follows:
    rows 0..159 of the frame in columns 320..639, rows 160..199 of the frame
    in columns 640..959 of screen rows 0..39. Every other screen pixel - all
    of columns 0..319, where the controls image is - keeps its value. *)
Theorem drawFrame_blits_layout (pFrameBuffer : Z -> Z) (hw : PushHardware) :
  Z.of_nat (List.length (mScreenBuffer hw)) = screenPixels ->
  exists hw',
    drawFrame_blits pFrameBuffer hw = Some hw' /\
    List.length (mScreenBuffer hw') = List.length (mScreenBuffer hw) /\
    midiOut hw' = midiOut hw /\
    mDisplayData hw' = mDisplayData hw /\
    usbSubmitted hw' = usbSubmitted hw /\
    forall col row,
      0 <= col < PUSH_SCREEN_STRIDE -> 0 <= row < PUSH_SCREEN_HEIGHT ->
      let pixel :=
        nth_error (mScreenBuffer hw') (Z.to_nat (col + row * PUSH_SCREEN_STRIDE)) in
      (320 <= col < 640 ->
       pixel = Some (toBGR565 (pFrameBuffer (col - 320 + row * 320)))) /\
      (640 <= col < 960 -> row < 40 ->
       pixel = Some (toBGR565 (pFrameBuffer (col - 640 + (row + 160) * 320)))) /\
      (col < 320 \/ 960 <= col \/ (640 <= col /\ 40 <= row) ->
       pixel = nth_error (mScreenBuffer hw) (Z.to_nat (col + row * PUSH_SCREEN_STRIDE))).
Proof. apply drawFrame_blits_pixels. Qed.

Lemma drawFrame_blits_layout_witness :
  exists hw',
    drawFrame_blits (fun i => if i <? 51200 then 0xFF0000 else 0x0000FF)
      constructed = Some hw' /\
    nth_error (mScreenBuffer hw') (Z.to_nat (320 + 5 * PUSH_SCREEN_STRIDE)) = Some 0x001F /\
    nth_error (mScreenBuffer hw') (Z.to_nat (640 + 5 * PUSH_SCREEN_STRIDE)) = Some 0xF800.
Proof.
  destruct (drawFrame_blits_layout
              (fun i => if i <? 51200 then 0xFF0000 else 0x0000FF)
              constructed screenBuffer_constructed)
    as [hw' [Hb [_ [_ [_ [_ Hpix]]]]]].
  exists hw'. split; [exact Hb|].
  pose proof (Hpix 320 5 ltac:(unfold PUSH_SCREEN_STRIDE; lia)
                ltac:(unfold PUSH_SCREEN_HEIGHT; lia)) as [Hmain _].
  pose proof (Hpix 640 5 ltac:(unfold PUSH_SCREEN_STRIDE; lia)
                ltac:(unfold PUSH_SCREEN_HEIGHT; lia)) as [_ [Hside _]].
  split; [exact (Hmain ltac:(lia)) | exact (Hside ltac:(lia) ltac:(lia))].
Defined.

(** ** Key-event queue *)

Section QueueProperties.
Context `{keys : DoomKeys}.

Lemma onInput_queue (input : PushInputEvent) (self : AbleDoom) :
  mHardware (onInput input self) = mHardware self /\
  exists new,
    mEventQueue (onInput input self) = mEventQueue self ++ new /\
    map dPressed new = if isMapped input then [pressed input] else [].
Proof.
  unfold onInput, isMapped.
  destruct (findMapping (id input)) as [m|]; cbn [mHardware mEventQueue].
  - split; [reflexivity|]. eexists. split; reflexivity.
  - split; [reflexivity|]. exists []. rewrite app_nil_r. split; reflexivity.
Qed.

Lemma onInputs_queue (inputs : list PushInputEvent) :
  forall self,
    mHardware (onInputs inputs self) = mHardware self /\
    exists new,
      mEventQueue (onInputs inputs self) = mEventQueue self ++ new /\
      map dPressed new = map pressed (filter isMapped inputs).
Proof.
  induction inputs as [|input rest IH]; intros self.
  - split; [reflexivity|]. exists []. rewrite app_nil_r. split; reflexivity.
  - destruct (onInput_queue input self) as [Hh [new1 [Hq1 Hp1]]].
    destruct (IH (onInput input self)) as [Hh' [new2 [Hq2 Hp2]]].
    change (onInputs (input :: rest) self) with (onInputs rest (onInput input self)).
    split; [congruence|]. exists (new1 ++ new2).
    rewrite Hq2, Hq1, <- app_assoc. split; [reflexivity|].
    rewrite map_app, Hp1, Hp2. cbn [filter].
    destruct (isMapped input); reflexivity.
Qed.

End QueueProperties.

Lemma drain_all (n : nat) :
  forall self, (List.length (mEventQueue self) <= n)%nat ->
    drain n self
    = (mEventQueue self,
       {| mEventQueue := []; mHardware := mHardware self;
          mShiftHeld := mShiftHeld self |}).
Proof.
  induction n as [|n IH]; intros [queue hw held] Hlen; cbn [mEventQueue] in Hlen.
  - destruct queue; [reflexivity | simpl in Hlen; lia].
  - destruct queue as [|event rest]; [reflexivity|].
    cbn [drain fetchEvent mEventQueue mHardware mShiftHeld].
    rewrite IH by (simpl in *; lia). reflexivity.
Qed.

(** X14: the control mapper keeps arrival order and loses nothing. A run of
    input events appends to the queue one key event for each event whose
    control is in the mapping table, in order and with its press flag, and
    nothing for the others; it never touches the hardware facade. Pulling
    with [fetchEvent] then returns the queued key events oldest first and
    leaves the queue empty, after which [fetchEvent] returns nothing and
    changes nothing. *)
Theorem key_events_fifo {keys : DoomKeys} (inputs : list PushInputEvent)
  (self : AbleDoom) (n : nat) :
  (List.length (mEventQueue self) + List.length inputs <= n)%nat ->
  let after := onInputs inputs self in
  mHardware after = mHardware self /\
  exists new,
    mEventQueue after = mEventQueue self ++ new /\
    map dPressed new = map pressed (filter isMapped inputs) /\
    fst (drain n after) = mEventQueue self ++ new /\
    mEventQueue (snd (drain n after)) = [] /\
    fetchEvent (snd (drain n after)) = (None, snd (drain n after)).
Proof.
  intros Hn after.
  destruct (onInputs_queue inputs self) as [Hh [new [Hq Hp]]].
  split; [exact Hh|]. exists new. split; [exact Hq|]. split; [exact Hp|].
  assert (Hlen : (List.length (mEventQueue after) <= n)%nat).
  { unfold after. rewrite Hq, length_app.
    assert (Hnew : (List.length new <= List.length inputs)%nat).
    { rewrite <- (length_map dPressed new), Hp, length_map. apply filter_length_le. }
    lia. }
  rewrite (drain_all n after Hlen). cbn [fst snd mEventQueue].
  split; [exact Hq|]. split; reflexivity.
Qed.

Lemma key_events_fifo_witness :
  let app := {| mEventQueue := []; mHardware := powerOn; mShiftHeld := false |} in
  let inputs := [ {| id := Button 91; pressed := true |};
                  {| id := Button 50; pressed := true |};
                  {| id := Button 91; pressed := false |} ] in
  fst (drain 3 (@onInputs doomkeys_h inputs app))
  = [ {| key := 13; dPressed := true |}; {| key := 13; dPressed := false |} ].
Proof.
  intros app inputs.
  destruct (@key_events_fifo doomkeys_h inputs app 3 ltac:(simpl; lia))
    as [_ [new [Hq [_ [Hd _]]]]].
  rewrite Hd. rewrite <- Hq. reflexivity.
Defined.

(** ** Decoder: the controls it can name *)

Lemma pad_coordinate_in_grid (n : Z) :
  36 <= n <= 99 ->
  0 <= fst (noteNumberToPadCoordinate n) < 8 /\
  0 <= snd (noteNumberToPadCoordinate n) < 8.
Proof.
  intros Hn.
  assert (Hb : is_uint8 n) by (unfold is_uint8; lia).
  assert (Hw : (36 <=? n) && (n <=? 99) = true)
    by (apply andb_true_iff; split; apply Z.leb_le; lia).
  pose proof (byte_cases
                (fun n => negb ((36 <=? n) && (n <=? 99))
                          || ((0 <=? fst (noteNumberToPadCoordinate n))
                              && (fst (noteNumberToPadCoordinate n) <? 8)
                              && (0 <=? snd (noteNumberToPadCoordinate n))
                              && (snd (noteNumberToPadCoordinate n) <? 8)))
                ltac:(vm_compute; reflexivity) n Hb) as Hall.
  cbv beta in Hall. rewrite Hw in Hall.
  change (negb true) with false in Hall. rewrite orb_false_l in Hall.
  rewrite !andb_true_iff in Hall. lia.
Qed.

(** X15: every event the decoder makes of a message of bytes names a
    control that exists: a pad event has both coordinates in 0..7, a button
    event has a byte as its number. *)
Theorem decoded_control_exists (pMessage : list Z) (e : PushInputEvent) :
  Forall is_uint8 pMessage ->
  onMessage_event pMessage = Some e ->
  match id e with
  | Pad p => 0 <= padX p < 8 /\ 0 <= padY p < 8
  | Button b => is_uint8 b
  end.
Proof.
  intros Hbytes He.
  destruct pMessage as [|b0 [|b1 [|b2 [|b3 rest]]]]; simpl in He; try discriminate.
  inversion Hbytes as [|? ? _ Hb1]; subst. inversion Hb1 as [|? ? H1 _]; subst.
  unfold decodeEvent in He.
  destruct (Z.land b0 240 =? 144).
  - destruct (isPad b1) eqn:Hpad; [|discriminate]. apply isPad_spec in Hpad.
    pose proof (pad_coordinate_in_grid b1 Hpad) as Hgrid.
    destruct (noteNumberToPadCoordinate b1) as [x y].
    inversion He; subst. exact Hgrid.
  - destruct (Z.land b0 240 =? 128).
    + destruct (isPad b1) eqn:Hpad; [|discriminate]. apply isPad_spec in Hpad.
      pose proof (pad_coordinate_in_grid b1 Hpad) as Hgrid.
      destruct (noteNumberToPadCoordinate b1) as [x y].
      inversion He; subst. exact Hgrid.
    + destruct (Z.land b0 240 =? 176); [|discriminate].
      inversion He; subst. exact H1.
Qed.

Lemma decoded_control_exists_witness :
  Forall is_uint8 [0x80; 99; 64] /\
  onMessage_event [0x80; 99; 64]
  = Some {| id := Pad {| padX := 7; padY := 0 |}; pressed := false |} /\
  (0 <= 7 < 8 /\ 0 <= 0 < 8).
Proof.
  assert (Hb : Forall is_uint8 [0x80; 99; 64])
    by (repeat constructor; unfold is_uint8; lia).
  split; [exact Hb|]. split; [reflexivity|].
  exact (decoded_control_exists [0x80; 99; 64] _ Hb eq_refl).
Defined.

(** X16: outside the pad window [noteNumberToPadCoordinate] still answers,
    and its answer names another pad or none: a note number below 36 gives
    (0, 0), the coordinate of note 92, and a byte from 100 on gives row 0
    with a column of 8 or more. It is the [isPad] test of the caller that
    keeps these out. *)
Theorem noteNumberToPadCoordinate_outside_window (n : Z) :
  is_uint8 n ->
  (n < 36 -> noteNumberToPadCoordinate n = (0, 0)) /\
  (100 <= n -> noteNumberToPadCoordinate n = (n - 92, 0) /\ 8 <= n - 92) /\
  noteNumberToPadCoordinate 92 = (0, 0).
Proof.
  intros Hn. split; [|split; [|reflexivity]].
  - intros Hlow. unfold noteNumberToPadCoordinate, find_if. cbn [Y_TO_PAD_ROW_START find_if_from].
    repeat match goal with
           | |- context [n >=? ?k] =>
               replace (n >=? k) with false
                 by (symmetry; rewrite Z.geb_leb; apply Z.leb_gt; lia)
           end.
    reflexivity.
  - intros Hhigh. split; [|lia].
    unfold noteNumberToPadCoordinate, find_if. cbn [Y_TO_PAD_ROW_START find_if_from].
    replace (n >=? 92) with true
      by (symmetry; rewrite Z.geb_leb; apply Z.leb_le; lia).
    rewrite uint8_small by (unfold is_uint8 in *; lia). reflexivity.
Qed.

Lemma noteNumberToPadCoordinate_outside_window_witness :
  is_uint8 100 /\ noteNumberToPadCoordinate 100 = (8, 0) /\
  is_uint8 35 /\ noteNumberToPadCoordinate 35 = (0, 0).
Proof.
  assert (H100 : is_uint8 100) by (unfold is_uint8; lia).
  assert (H35 : is_uint8 35) by (unfold is_uint8; lia).
  split; [exact H100|]. split.
  - exact (proj1 (proj1 (proj2 (noteNumberToPadCoordinate_outside_window 100 H100))
                    ltac:(lia))).
  - split; [exact H35|].
    exact (proj1 (noteNumberToPadCoordinate_outside_window 35 H35) ltac:(lia)).
Defined.

(** ** MIDI port selection *)

Lemma find_if_from_first {A : Type} (p : A -> bool) (l : list A) :
  forall i j a, find_if_from p l i = Some (j, a) ->
    forall k b, (k < j - i)%nat -> nth_error l k = Some b -> p b = false.
Proof.
  induction l as [|x l IH]; intros i j a H k b Hk Hb; simpl in H.
  - discriminate.
  - destruct (p x) eqn:Hp.
    + inversion H; subst. lia.
    + destruct k as [|k]; [simpl in Hb; congruence|].
      apply find_if_from_some in H as Hle. destruct Hle as [Hle _].
      apply (IH (S i) j a H k b); [lia | exact Hb].
Qed.

Lemma find_if_from_none {A : Type} (p : A -> bool) (l : list A) :
  forall i, find_if_from p l i = None -> forall a, In a l -> p a = false.
Proof.
  intros i H a Hin. destruct (p a) eqn:Hp; [|reflexivity].
  exfalso. apply (find_if_from_exists p l a Hin Hp i). exact H.
Qed.

Section MidiPortProperties.
Variable isPushPort : string -> bool.

Lemma findPushPort_some (portNames : list string) (i : nat) :
  findPushPort isPushPort portNames = Some i <-> firstMatch isPushPort portNames i.
Proof.
  unfold findPushPort, find_if, firstMatch. split.
  - destruct (find_if_from isPushPort portNames 0) as [[j name]|] eqn:Hf;
      [|discriminate].
    intros Hi. inversion Hi; subst.
    pose proof (find_if_from_some _ _ _ _ _ Hf) as [_ [Hnth Hp]].
    rewrite Nat.sub_0_r in Hnth. split; [exists name; auto|].
    intros k b Hk Hb. apply (find_if_from_first _ _ _ _ _ Hf k b); [lia | exact Hb].
  - intros [[name [Hnth Hp]] Hfirst].
    destruct (find_if_from isPushPort portNames 0) as [[j name']|] eqn:Hf.
    + pose proof (find_if_from_some _ _ _ _ _ Hf) as [_ [Hnth' Hp']].
      rewrite Nat.sub_0_r in Hnth'.
      destruct (Nat.lt_trichotomy i j) as [Hlt|[->|Hgt]]; [|reflexivity|].
      * pose proof (find_if_from_first _ _ _ _ _ Hf i name ltac:(lia) Hnth). congruence.
      * pose proof (Hfirst j name' Hgt Hnth'). congruence.
    + pose proof (find_if_from_none _ _ _ Hf name (nth_error_In _ _ Hnth)). congruence.
Qed.

Lemma findPushPort_none (portNames : list string) :
  findPushPort isPushPort portNames = None <->
  forall name, In name portNames -> isPushPort name = false.
Proof.
  unfold findPushPort, find_if. split.
  - destruct (find_if_from isPushPort portNames 0) as [[j name]|] eqn:Hf;
      [discriminate|].
    intros _. apply (find_if_from_none _ _ _ Hf).
  - intros Hnone.
    destruct (find_if_from isPushPort portNames 0) as [[j name]|] eqn:Hf;
      [|reflexivity].
    pose proof (find_if_from_some _ _ _ _ _ Hf) as [_ [Hnth Hp]].
    rewrite (Hnone name (nth_error_In _ _ Hnth)) in Hp. discriminate.
Qed.

End MidiPortProperties.

(** X17: [initializeMidiIo] opens, on each side, the first port whose name
    is a Push port name, and nothing else decides the choice. It throws
    "Couldn't open MIDI in port" exactly when no input port matches -
    whatever the output ports are - and "Couldn't open MIDI out port"
    exactly when an input port matches and no output port does. *)
Theorem initializeMidiIo_first_ports (isPushPort : string -> bool)
  (inPortNames outPortNames : list string) :
  (forall i j,
     initializeMidiIo isPushPort inPortNames outPortNames = inl (i, j) <->
     firstMatch isPushPort inPortNames i /\ firstMatch isPushPort outPortNames j) /\
  (initializeMidiIo isPushPort inPortNames outPortNames
   = inr "Couldn't open MIDI in port"%string <->
   forall name, In name inPortNames -> isPushPort name = false) /\
  (initializeMidiIo isPushPort inPortNames outPortNames
   = inr "Couldn't open MIDI out port"%string <->
   (exists name, In name inPortNames /\ isPushPort name = true) /\
   forall name, In name outPortNames -> isPushPort name = false).
Proof.
  unfold initializeMidiIo.
  pose proof (findPushPort_none isPushPort inPortNames) as Nin.
  pose proof (findPushPort_none isPushPort outPortNames) as Nout.
  destruct (findPushPort isPushPort inPortNames) as [i0|] eqn:Fin;
    [destruct (findPushPort isPushPort outPortNames) as [j0|] eqn:Fout|].
  - apply findPushPort_some in Fin as Min. apply findPushPort_some in Fout as Mout.
    split; [|split].
    + intros i j. split.
      * intros H. inversion H; subst. auto.
      * intros [Hi Hj]. apply findPushPort_some in Hi, Hj. congruence.
    + split; [discriminate|]. intros H. apply Nin in H. discriminate.
    + split; [discriminate|]. intros [_ H]. apply Nout in H. discriminate.
  - apply findPushPort_some in Fin as Min.
    split; [|split].
    + intros i j. split; [discriminate|].
      intros [_ Hj]. apply findPushPort_some in Hj. congruence.
    + split; [discriminate|]. intros H. apply Nin in H. discriminate.
    + split; [|reflexivity]. intros _. split; [|apply Nout; reflexivity].
      destruct Min as [[name [Hnth Hp]] _]. exists name.
      split; [apply (nth_error_In _ _ Hnth) | exact Hp].
  - split; [|split].
    + intros i j. split; [discriminate|].
      intros [Hi _]. apply findPushPort_some in Hi. congruence.
    + split; [|reflexivity]. intros _. apply Nin. reflexivity.
    + split; [discriminate|].
      intros [[name [Hin Hp]] _].
      assert (Hnone : isPushPort name = false) by (apply Nin; auto). congruence.
Qed.

Lemma initializeMidiIo_first_ports_witness :
  let isPush := String.eqb "Ableton Push 3 Live Port" in
  let inputs := ["Midi Through Port-0"; "Ableton Push 3 Live Port";
                 "Ableton Push 3 Live Port"]%string in
  let outputs := ["Ableton Push 3 Live Port"]%string in
  initializeMidiIo isPush inputs outputs = inl (1%nat, 0%nat) /\
  firstMatch isPush inputs 1 /\
  initializeMidiIo isPush inputs [] = inr "Couldn't open MIDI out port"%string.
Proof.
  intros isPush inputs outputs.
  split; [reflexivity|]. split.
  - exact (proj1 (proj1 (proj1 (initializeMidiIo_first_ports isPush inputs outputs)
                           1%nat 0%nat) eq_refl)).
  - apply (proj2 (proj2 (initializeMidiIo_first_ports isPush inputs []))).
    split.
    + exists "Ableton Push 3 Live Port"%string. split; [simpl; auto | reflexivity].
    + intros name [].
Defined.

(** ** Opening the display device *)

Lemma findPushDisplay_calls (devices : list UsbDeviceInfo) :
  forall i0, Forall isDescriptorCall (snd (findPushDisplay devices i0)).
Proof.
  induction devices as [|d rest IH]; intros i0; simpl.
  - constructor.
  - destruct (descriptorResult d <? 0); [repeat constructor|].
    destruct (isPushDisplay d); [repeat constructor|].
    specialize (IH (S i0)). destruct (findPushDisplay rest (S i0)) as [r calls].
    simpl in *. constructor; [exact I | exact IH].
Qed.

Lemma findPushDisplay_found (devices : list UsbDeviceInfo) :
  forall i0 i d, fst (findPushDisplay devices i0) = inl (Some (i, d)) ->
    (i0 <= i)%nat /\
    nth_error devices (i - i0) = Some d /\
    isPushDisplay d = true /\ 0 <= descriptorResult d /\
    forall k d', (k < i - i0)%nat -> nth_error devices k = Some d' ->
      isPushDisplay d' = false /\ 0 <= descriptorResult d'.
Proof.
  induction devices as [|a rest IH]; intros i0 i d H; simpl in H.
  - discriminate.
  - destruct (Z.ltb_spec (descriptorResult a) 0) as [Hneg|Hpos];
      [simpl in H; discriminate|].
    destruct (isPushDisplay a) eqn:Hp.
    + simpl in H. inversion H; subst. rewrite Nat.sub_diag.
      split; [lia|]. split; [reflexivity|]. split; [exact Hp|].
      split; [exact Hpos|]. intros k d' Hk. lia.
    + specialize (IH (S i0) i d).
      destruct (findPushDisplay rest (S i0)) as [r calls]. simpl in H, IH.
      destruct (IH H) as [Hle [Hnth [Hd [Hdr Hfirst]]]].
      split; [lia|]. split.
      { replace (i - i0)%nat with (S (i - S i0)) by lia. exact Hnth. }
      split; [exact Hd|]. split; [exact Hdr|].
      intros k d' Hk Hk'. destruct k as [|k'].
      * simpl in Hk'. inversion Hk'; subst. auto.
      * apply (Hfirst k' d'); [lia | exact Hk'].
Qed.

(** Closes a goal in which a call that is no descriptor read is said to
    be among the calls of the device search. *)
Ltac absurd_search :=
  match goal with
  | Hno : forall c, ~ isDescriptorCall c -> ~ In c ?search,
    Hin : In ?c ?search |- _ =>
      exact (False_ind _ (Hno c (fun H => H) Hin))
  end.

(** X18: [openPushDisplayUsbDevice] leaks neither the device list nor a
    handle. If the list could not be got, nothing is freed; otherwise the
    list is freed exactly once, as the last call, on every path. A handle is
    returned only for the first device of the list with the Push display's
    vendor, product and class, after its open and its interface claim
    succeeded, and it is not closed; when the function throws, every device
    it had opened has been closed again. *)
Theorem openPushDisplayUsbDevice_releases (count : Z) (devices : list UsbDeviceInfo) :
  let outcome := fst (openPushDisplayUsbDevice count devices) in
  let calls := snd (openPushDisplayUsbDevice count devices) in
  (count < 0 ->
   outcome = OpenThrew (ThrowLibUsbError (int_wrap count)) /\ calls = [GetDeviceList]) /\
  (0 <= count ->
   exists between,
     calls = GetDeviceList :: between ++ [FreeDeviceList] /\
     ~ In FreeDeviceList between /\ ~ In GetDeviceList between) /\
  (forall i, outcome = Opened i ->
     (exists d, nth_error devices i = Some d /\ isPushDisplay d = true /\
                0 <= openResult d /\ 0 <= claimResult d) /\
     (forall k d', (k < i)%nat -> nth_error devices k = Some d' ->
        isPushDisplay d' = false /\ 0 <= descriptorResult d') /\
     In (Open i) calls /\ In (ClaimInterface i) calls /\
     forall k, ~ In (Close k) calls) /\
  (forall o, outcome = OpenThrew o ->
     forall i d, In (Open i) calls -> nth_error devices i = Some d ->
       0 <= openResult d -> In (Close i) calls).
Proof.
  intros outcome calls. unfold outcome, calls, openPushDisplayUsbDevice.
  destruct (Z.ltb_spec count 0) as [Hneg|Hpos].
  { cbn [fst snd]. split; [auto|]. split; [lia|]. split; [discriminate|].
    intros o _ i d [H|[]]. discriminate. }
  pose proof (findPushDisplay_calls devices 0) as Hcalls.
  pose proof (findPushDisplay_found devices 0) as Hfound.
  destruct (findPushDisplay devices 0) as [found search].
  cbn [fst snd] in Hcalls, Hfound.
  assert (Hsearch : forall c, In c search -> isDescriptorCall c)
    by (apply Forall_forall; exact Hcalls).
  assert (Hno : forall c, ~ isDescriptorCall c -> ~ In c search)
    by (intros c Hc Hin; apply Hc, Hsearch, Hin).
  split; [lia|].
  destruct found as [[[i d]|]|result].
  - destruct (Hfound i d eq_refl) as [_ [Hnth [Hd [Hdr Hfirst]]]].
    rewrite Nat.sub_0_r in Hnth, Hfirst.
    destruct (Z.ltb_spec (openResult d) 0) as [Ho|Ho];
      [|destruct (Z.ltb_spec (claimResult d) 0) as [Hc|Hc]]; cbn [fst snd].
    + split.
      { intros _. exists (search ++ [Open i]). rewrite <- app_assoc.
        split; [reflexivity|].
        split; intros Hin; apply in_app_or in Hin;
          destruct Hin as [Hin|[Hin|[]]]; try discriminate;
          absurd_search. }
      split; [discriminate|].
      intros o _ j d' Hin Hj Hopen.
      destruct Hin as [Hin|Hin]; [discriminate|].
      apply in_app_or in Hin. destruct Hin as [Hin|Hin];
        [exfalso; absurd_search|].
      apply in_app_or in Hin. destruct Hin as [[Hin|[]]|[Hin|[]]];
        [|discriminate].
      inversion Hin; subst. rewrite Hnth in Hj. inversion Hj; subst. lia.
    + split.
      { intros _. exists (search ++ [Open i; ClaimInterface i; Close i]).
        rewrite <- app_assoc. split; [reflexivity|].
        split; intros Hin; apply in_app_or in Hin;
          destruct Hin as [Hin|[Hin|[Hin|[Hin|[]]]]]; try discriminate;
          absurd_search. }
      split; [discriminate|].
      intros o _ j d' Hin Hj Hopen.
      destruct Hin as [Hin|Hin]; [discriminate|].
      apply in_app_or in Hin. destruct Hin as [Hin|Hin];
        [exfalso; absurd_search|].
      apply in_app_or in Hin.
      destruct Hin as [[Hin|[Hin|[Hin|[]]]]|[Hin|[]]]; try discriminate.
      inversion Hin; subst. right. apply in_or_app. right.
      apply in_or_app. left. simpl. auto.
    + split.
      { intros _. exists (search ++ [Open i; ClaimInterface i]).
        rewrite <- app_assoc. split; [reflexivity|].
        split; intros Hin; apply in_app_or in Hin;
          destruct Hin as [Hin|[Hin|[Hin|[]]]]; try discriminate;
          absurd_search. }
      split; [|discriminate].
      intros j Hj. inversion Hj; subst j.
      split; [exists d; auto|]. split; [exact Hfirst|].
      split; [right; apply in_or_app; right; simpl; auto|].
      split; [right; apply in_or_app; right; simpl; auto|].
      intros k [Hin|Hin]; [discriminate|].
      apply in_app_or in Hin. destruct Hin as [Hin|Hin];
        [absurd_search|].
      apply in_app_or in Hin.
      destruct Hin as [[Hin|[Hin|[]]]|[Hin|[]]]; discriminate.
  - cbn [fst snd]. split.
    { intros _. exists search. rewrite app_nil_l. split; [reflexivity|].
      split; apply Hno; intros H; exact H. }
    split; [discriminate|].
    intros o _ j d' Hin Hj Hopen. exfalso.
    destruct Hin as [Hin|Hin]; [discriminate|].
    apply in_app_or in Hin. destruct Hin as [Hin|[Hin|[]]]; [|discriminate].
    absurd_search.
  - cbn [fst snd]. split.
    { intros _. exists search. rewrite app_nil_l. split; [reflexivity|].
      split; apply Hno; intros H; exact H. }
    split; [discriminate|].
    intros o _ j d' Hin Hj Hopen. exfalso.
    destruct Hin as [Hin|Hin]; [discriminate|].
    apply in_app_or in Hin. destruct Hin as [Hin|[Hin|[]]]; [|discriminate].
    absurd_search.
Qed.

Lemma openPushDisplayUsbDevice_releases_witness :
  let other := {| descriptorResult := 0; idVendor := 0x1d6b; idProduct := 2;
                  bDeviceClass := 9; openResult := 0; claimResult := 0 |} in
  let busy := {| descriptorResult := 0; idVendor := 0x2982; idProduct := 0x1969;
                 bDeviceClass := 0xEF; openResult := 0; claimResult := -6 |} in
  openPushDisplayUsbDevice 2 [other; busy]
  = (OpenThrew (ThrowLibUsbError (-6)),
     [GetDeviceList; GetDeviceDescriptor 0; GetDeviceDescriptor 1;
      Open 1; ClaimInterface 1; Close 1; FreeDeviceList]) /\
  In (Close 1) (snd (openPushDisplayUsbDevice 2 [other; busy])).
Proof.
  intros other busy. split; [reflexivity|].
  apply (proj2 (proj2 (proj2 (openPushDisplayUsbDevice_releases 2 [other; busy])))
           (ThrowLibUsbError (-6)) eq_refl 1%nat busy).
  - simpl. auto.
  - reflexivity.
  - simpl. lia.
Defined.

(** ** Clock *)

Lemma long_wrap_small (z : Z) :
  - 9223372036854775808 <= z <= 9223372036854775807 -> long_wrap z = z.
Proof. intros H. unfold long_wrap. rewrite Z.mod_small; lia. Qed.

Lemma ticks_unwrapped (startTime now : timespec) :
  normalized startTime -> normalized now ->
  plausible startTime -> plausible now ->
  DG_GetTicksMs startTime now
  = uint32 ((tv_sec now - tv_sec startTime) * 1000
            + Z.quot (tv_nsec now - tv_nsec startTime) 1000000).
Proof.
  unfold normalized, plausible, DG_GetTicksMs. intros Hs Hn Hps Hpn.
  assert (Hq : - 1000 <= Z.quot (tv_nsec now - tv_nsec startTime) 1000000 <= 1000).
  { Z.to_euclidean_division_equations. lia. }
  rewrite (long_wrap_small (tv_sec now - tv_sec startTime)) by lia.
  rewrite (long_wrap_small (tv_nsec now - tv_nsec startTime)) by lia.
  rewrite (long_wrap_small ((tv_sec now - tv_sec startTime) * 1000)) by lia.
  rewrite long_wrap_small by lia. reflexivity.
Qed.

(** X19: for clock readings [startTime] and [now] with [now] not before
    [startTime], [DG_GetTicksMs] is, modulo 2^32, the elapsed time in whole
    milliseconds or one more: it is exact when the nanosecond field of [now]
    is not below that of [startTime], and otherwise may run one millisecond
    ahead, never behind. *)
Theorem DG_GetTicksMs_accuracy (startTime now : timespec) :
  normalized startTime -> normalized now ->
  plausible startTime -> plausible now ->
  0 <= elapsedNanos startTime now ->
  exists ticks,
    DG_GetTicksMs startTime now = uint32 ticks /\
    elapsedNanos startTime now / 1000000 <= ticks
      <= elapsedNanos startTime now / 1000000 + 1 /\
    (tv_nsec startTime <= tv_nsec now ->
     ticks = elapsedNanos startTime now / 1000000).
Proof.
  intros Hs Hn Hps Hpn Hel.
  rewrite (ticks_unwrapped startTime now Hs Hn Hps Hpn).
  eexists. split; [reflexivity|].
  unfold normalized, elapsedNanos in *.
  split; [|intros Hge]; Z.to_euclidean_division_equations; lia.
Qed.

Lemma DG_GetTicksMs_accuracy_witness :
  let startTime := {| tv_sec := 100; tv_nsec := 500000 |} in
  let now := {| tv_sec := 101; tv_nsec := 0 |} in
  elapsedNanos startTime now / 1000000 = 999 /\
  DG_GetTicksMs startTime now = 1000 /\
  exists ticks,
    DG_GetTicksMs startTime now = uint32 ticks /\
    999 <= ticks <= 999 + 1.
Proof.
  intros startTime now.
  split; [reflexivity|]. split; [reflexivity|].
  destruct (DG_GetTicksMs_accuracy startTime now
              ltac:(unfold normalized; simpl; lia)
              ltac:(unfold normalized; simpl; lia)
              ltac:(unfold plausible; simpl; lia)
              ltac:(unfold plausible; simpl; lia)
              ltac:(unfold elapsedNanos; simpl; lia))
    as [ticks [Ht [Hb _]]].
  exists ticks. split; [exact Ht | exact Hb].
Defined.

(** X20: [DG_GetTicksMs] does not run backwards: of two clock readings
    after [startTime], the later one gives the larger or equal tick count,
    as long as less than 2^32 milliseconds have elapsed. *)
Theorem DG_GetTicksMs_monotone (startTime earlier later : timespec) :
  normalized startTime -> normalized earlier -> normalized later ->
  plausible startTime -> plausible earlier -> plausible later ->
  0 <= elapsedNanos startTime earlier ->
  elapsedNanos startTime earlier <= elapsedNanos startTime later ->
  elapsedNanos startTime later < 4294967295 * 1000000 ->
  DG_GetTicksMs startTime earlier <= DG_GetTicksMs startTime later.
Proof.
  intros Hs He Hl Hps Hpe Hpl H0 Hle Hmax.
  rewrite (ticks_unwrapped startTime earlier Hs He Hps Hpe).
  rewrite (ticks_unwrapped startTime later Hs Hl Hps Hpl).
  unfold normalized, elapsedNanos, uint32 in *.
  rewrite !Z.mod_small.
  - Z.to_euclidean_division_equations. lia.
  - Z.to_euclidean_division_equations. lia.
  - Z.to_euclidean_division_equations. lia.
Qed.

Lemma DG_GetTicksMs_monotone_witness :
  let startTime := {| tv_sec := 100; tv_nsec := 500000000 |} in
  let earlier := {| tv_sec := 100; tv_nsec := 999999999 |} in
  let later := {| tv_sec := 101; tv_nsec := 0 |} in
  DG_GetTicksMs startTime earlier = 499 /\
  DG_GetTicksMs startTime later = 500 /\
  DG_GetTicksMs startTime earlier <= DG_GetTicksMs startTime later.
Proof.
  intros startTime earlier later.
  split; [reflexivity|]. split; [reflexivity|].
  apply DG_GetTicksMs_monotone;
    unfold normalized, plausible, elapsedNanos; simpl; lia.
Defined.

(** ** Pixel converter: what a pixel keeps of a colour *)

Lemma toBGR565_packed (color : Z) :
  toBGR565 color
  = Z.lor (Z.lor (Z.shiftl (Z.land (blueByte color) 0xF8) 8)
                 (Z.shiftl (Z.land (greenByte color) 0xFC) 3))
          (Z.shiftr (redByte color) 3).
Proof.
  unfold toBGR565. cbv zeta.
  destruct (color_bytes color) as [-> [-> ->]].
  destruct (blue_part _ (byte_is_uint8 color)) as [HX _].
  destruct (green_part _ (byte_is_uint8 (Z.shiftr color 8))) as [HY _].
  destruct (red_part _ (byte_is_uint8 (Z.shiftr color 16))) as [HW _].
  fold (blueByte color) in HX. fold (greenByte color) in HY.
  fold (redByte color) in HW.
  unfold uint16. change 65536 with (2 ^ 16).
  rewrite <- Z.land_ones by lia. change (Z.ones 16) with 0xFFFF.
  rewrite !Z.land_lor_distr_l, HX, HY, HW. reflexivity.
Qed.

Lemma toBGR565_field_values (color : Z) :
  blueField (toBGR565 color) = Z.shiftr (blueByte color) 3 /\
  greenField (toBGR565 color) = Z.shiftr (greenByte color) 2 /\
  redField (toBGR565 color) = Z.shiftr (redByte color) 3.
Proof.
  destruct (blue_part _ (byte_is_uint8 color)) as [_ [Xb [Xg Xr]]].
  destruct (green_part _ (byte_is_uint8 (Z.shiftr color 8))) as [_ [Yb [Yg Yr]]].
  destruct (red_part _ (byte_is_uint8 (Z.shiftr color 16))) as [_ [Wb [Wg Wr]]].
  fold (blueByte color) in Xb, Xg, Xr. fold (greenByte color) in Yb, Yg, Yr.
  fold (redByte color) in Wb, Wg, Wr.
  unfold blueField, greenField, redField.
  rewrite toBGR565_packed, !Z.shiftr_lor, !Z.land_lor_distr_l.
  rewrite Xb, Yb, Wb, Xg, Yg, Wg, Xr, Yr, Wr.
  rewrite ?Z.lor_0_l, ?Z.lor_0_r. auto.
Qed.

Lemma top_bits_of_byte (b : Z) :
  is_uint8 b ->
  Z.land b 0xF8 = Z.shiftl (Z.shiftr b 3) 3 /\
  Z.land b 0xFC = Z.shiftl (Z.shiftr b 2) 2.
Proof. intros Hb. split; by_byte_cases b Hb. Qed.

(** X21: two colours give the same device pixel exactly when they agree in
    the top five bits of red, the top six of green and the top five of
    blue: the low bits of each byte and the fourth (alpha) byte never
    reach the screen, and nothing else is lost. *)
Theorem toBGR565_same_pixel (c1 c2 : Z) :
  toBGR565 c1 = toBGR565 c2 <->
  Z.shiftr (redByte c1) 3 = Z.shiftr (redByte c2) 3 /\
  Z.shiftr (greenByte c1) 2 = Z.shiftr (greenByte c2) 2 /\
  Z.shiftr (blueByte c1) 3 = Z.shiftr (blueByte c2) 3.
Proof.
  split.
  - intros Heq.
    destruct (toBGR565_field_values c1) as [B1 [G1 R1]].
    destruct (toBGR565_field_values c2) as [B2 [G2 R2]].
    rewrite <- R1, <- G1, <- B1, <- R2, <- G2, <- B2, Heq. auto.
  - intros [Hr [Hg Hb]].
    rewrite !toBGR565_packed.
    destruct (top_bits_of_byte (blueByte c1) (byte_is_uint8 c1)) as [-> _].
    destruct (top_bits_of_byte (blueByte c2) (byte_is_uint8 c2)) as [-> _].
    destruct (top_bits_of_byte (greenByte c1) (byte_is_uint8 (Z.shiftr c1 8)))
      as [_ ->].
    destruct (top_bits_of_byte (greenByte c2) (byte_is_uint8 (Z.shiftr c2 8)))
      as [_ ->].
    rewrite Hr, Hg, Hb. reflexivity.
Qed.

Lemma toBGR565_same_pixel_witness :
  toBGR565 0xFF123456 = toBGR565 0x00103450 /\ toBGR565 0x123456 <> toBGR565 0x123856.
Proof.
  split.
  - apply (proj2 (toBGR565_same_pixel 0xFF123456 0x00103450)).
    repeat split; reflexivity.
  - intros Heq. apply (proj1 (toBGR565_same_pixel 0x123456 0x123856)) in Heq.
    destruct Heq as [_ [Hg _]]. discriminate Hg.
Defined.

Lemma field_bounds (pixel : Z) :
  0 <= redField pixel < 32 /\ 0 <= greenField pixel < 64 /\
  0 <= blueField pixel < 32.
Proof.
  unfold redField, greenField, blueField.
  change 0x1F with (Z.ones 5). change 0x3F with (Z.ones 6).
  rewrite !Z.land_ones by lia.
  repeat split; apply Z.mod_pos_bound; lia.
Qed.

Lemma pixel_of_fields (pixel : Z) :
  0 <= pixel < 65536 ->
  pixel = 2048 * blueField pixel + 32 * greenField pixel + redField pixel.
Proof.
  intros Hp. unfold blueField, greenField, redField.
  change 0x1F with (Z.ones 5). change 0x3F with (Z.ones 6).
  rewrite !Z.land_ones, !Z.shiftr_div_pow2 by lia.
  change (2 ^ 5) with 32. change (2 ^ 6) with 64. change (2 ^ 11) with 2048.
  Z.div_mod_to_equations. lia.
Qed.

Lemma lor_below (a b n : Z) :
  0 < n -> 0 <= a < 2 ^ n -> 0 <= b < 2 ^ n -> 0 <= Z.lor a b < 2 ^ n.
Proof.
  intros Hn Ha Hb.
  assert (Hlo : 0 <= Z.lor a b) by (apply Z.lor_nonneg; lia).
  split; [exact Hlo|].
  destruct (Z.eq_dec (Z.lor a b) 0) as [->|Hnz]; [lia|].
  apply Z.log2_lt_pow2; [lia|].
  rewrite Z.log2_lor by lia.
  assert (La : Z.log2 a < n).
  { destruct (Z.eq_dec a 0) as [->|]; [simpl; lia | apply Z.log2_lt_pow2; lia]. }
  assert (Lb : Z.log2 b < n).
  { destruct (Z.eq_dec b 0) as [->|]; [simpl; lia | apply Z.log2_lt_pow2; lia]. }
  lia.
Qed.

Lemma colorOfPixel_bytes (pixel : Z) :
  redByte (colorOfPixel pixel) = Z.shiftl (redField pixel) 3 /\
  greenByte (colorOfPixel pixel) = Z.shiftl (greenField pixel) 2 /\
  blueByte (colorOfPixel pixel) = Z.shiftl (blueField pixel) 3.
Proof.
  destruct (field_bounds pixel) as [Hr [Hg Hb]].
  assert (Br : is_uint8 (redField pixel)) by (unfold is_uint8; lia).
  assert (Bg : is_uint8 (greenField pixel)) by (unfold is_uint8; lia).
  assert (Bb : is_uint8 (blueField pixel)) by (unfold is_uint8; lia).
  assert (Ir : Z.land (redField pixel) 0x1F = redField pixel).
  { unfold redField. rewrite <- Z.land_assoc. reflexivity. }
  assert (Ig : Z.land (greenField pixel) 0x3F = greenField pixel).
  { unfold greenField. rewrite <- Z.land_assoc. reflexivity. }
  assert (Ib : Z.land (blueField pixel) 0x1F = blueField pixel).
  { unfold blueField. rewrite <- Z.land_assoc. reflexivity. }
  unfold colorOfPixel, redByte, greenByte, blueByte.
  change 256 with (2 ^ 8). rewrite <- !Z.land_ones by lia.
  change (Z.ones 8) with 0xFF.
  rewrite !Z.shiftr_lor, !Z.land_lor_distr_l.
  rewrite <- Ir, <- Ig, <- Ib.
  generalize (redField pixel) Br. intros r Hr8.
  generalize (greenField pixel) Bg. intros g Hg8.
  generalize (blueField pixel) Bb. intros b Hb8.
  replace (Z.land (Z.shiftr (Z.shiftl (Z.land r 0x1F) 19) 16) 0xFF)
    with (Z.shiftl (Z.land r 0x1F) 3) by by_byte_cases r Hr8.
  replace (Z.land (Z.shiftr (Z.shiftl (Z.land g 0x3F) 10) 16) 0xFF) with 0
    by by_byte_cases g Hg8.
  replace (Z.land (Z.shiftr (Z.shiftl (Z.land b 0x1F) 3) 16) 0xFF) with 0
    by by_byte_cases b Hb8.
  replace (Z.land (Z.shiftr (Z.shiftl (Z.land r 0x1F) 19) 8) 0xFF) with 0
    by by_byte_cases r Hr8.
  replace (Z.land (Z.shiftr (Z.shiftl (Z.land g 0x3F) 10) 8) 0xFF)
    with (Z.shiftl (Z.land g 0x3F) 2) by by_byte_cases g Hg8.
  replace (Z.land (Z.shiftr (Z.shiftl (Z.land b 0x1F) 3) 8) 0xFF) with 0
    by by_byte_cases b Hb8.
  replace (Z.land (Z.shiftl (Z.land r 0x1F) 19) 0xFF) with 0
    by by_byte_cases r Hr8.
  replace (Z.land (Z.shiftl (Z.land g 0x3F) 10) 0xFF) with 0
    by by_byte_cases g Hg8.
  replace (Z.land (Z.shiftl (Z.land b 0x1F) 3) 0xFF)
    with (Z.shiftl (Z.land b 0x1F) 3) by by_byte_cases b Hb8.
  rewrite ?Z.lor_0_l, ?Z.lor_0_r. auto.
Qed.

(** X22: every 16-bit value is the pixel of some colour: converting the
    colour that carries a pixel's three fields in the top bits of its bytes
    gives the pixel back. *)
Theorem toBGR565_onto (pixel : Z) :
  0 <= pixel < 65536 ->
  toBGR565 (colorOfPixel pixel) = pixel /\ is_uint32 (colorOfPixel pixel).
Proof.
  intros Hp.
  destruct (field_bounds pixel) as [Hr [Hg Hb]].
  split.
  - assert (Hq : 0 <= toBGR565 (colorOfPixel pixel) < 65536)
      by (unfold toBGR565, uint16; apply Z.mod_pos_bound; lia).
    destruct (toBGR565_field_values (colorOfPixel pixel)) as [Fb [Fg Fr]].
    destruct (colorOfPixel_bytes pixel) as [Cr [Cg Cb]].
    rewrite Cb in Fb. rewrite Cg in Fg. rewrite Cr in Fr.
    rewrite Z.shiftr_shiftl_l, Z.sub_diag, Z.shiftl_0_r in Fb, Fg, Fr by lia.
    rewrite (pixel_of_fields _ Hq), Fb, Fg, Fr.
    symmetry. apply pixel_of_fields. exact Hp.
  - unfold is_uint32, colorOfPixel.
    change 4294967296 with (2 ^ 32).
    apply lor_below; [lia| |rewrite Z.shiftl_mul_pow2 by lia; lia].
    apply lor_below; [lia| |]; rewrite Z.shiftl_mul_pow2 by lia; lia.
Qed.

Lemma toBGR565_onto_witness :
  0 <= 0xABCD < 65536 /\ colorOfPixel 0xABCD = 0x6878A8 /\
  toBGR565 0x6878A8 = 0xABCD.
Proof.
  split; [lia|]. split; [reflexivity|].
  exact (proj1 (toBGR565_onto 0xABCD ltac:(lia))).
Defined.

(** ** Drawing a frame *)






(** ** Start-up lights *)

Lemma sends_setPadLight (x y value note : Z) :
  padNoteNumber x y = Some note ->
  sends (setPadLight x y value)
    [[if value =? 0 then 0x80 else 0x90; uint8 note;
      if value =? 0 then 0 else uint8 value]].
Proof.
  intros Hnote hw Hlen. unfold setPadLight. rewrite Hnote. cbn [bind].
  destruct (value =? 0).
  - destruct (storeMessage_sent 0x80 (uint8 note) 0 hw Hlen)
      as [hw' [Hs [Hm [Ho [Hsc [Hd Hu]]]]]].
    exists (sendMessage hw'). rewrite Hs. simpl. rewrite Hm, Ho. auto 6.
  - destruct (storeMessage_sent 0x90 (uint8 note) (uint8 value) hw Hlen)
      as [hw' [Hs [Hm [Ho [Hsc [Hd Hu]]]]]].
    exists (sendMessage hw'). rewrite Hs. simpl. rewrite Hm, Ho. auto 6.
Qed.

Lemma sends_setPadLight_defined (x y value : Z) :
  padNoteNumber x y <> None ->
  sends (setPadLight x y value)
    (match padNoteNumber x y with
     | Some note =>
         [[if value =? 0 then 0x80 else 0x90; uint8 note;
           if value =? 0 then 0 else uint8 value]]
     | None => []
     end).
Proof.
  intros Hdef. destruct (padNoteNumber x y) as [note|] eqn:Hnote; [|congruence].
  apply sends_setPadLight. exact Hnote.
Qed.

Section StartupLightsProperties.
Context `{keys : DoomKeys}.

Lemma findMapping_row (c : ControlId) (m : InputMapping) :
  findMapping c = Some m -> In m INPUT_MAPPING_TABLE /\ mId m = c.
Proof.
  unfold findMapping.
  destruct (find_if (fun mapping => ControlId_eqb (mId mapping) c) INPUT_MAPPING_TABLE)
    as [[j row]|] eqn:Hf; [|discriminate].
  intros H. inversion H; subst. apply find_if_some in Hf. destruct Hf as [Hnth Heq].
  split; [apply (nth_error_In _ _ Hnth) | apply ControlId_eqb_eq; exact Heq].
Qed.

(** Runs a tactic on each row of the mapping table. *)
Ltac each_row Hin tac :=
  cbn [INPUT_MAPPING_TABLE In] in Hin;
  repeat (destruct Hin as [Hin|Hin]; [subst; tac|]);
  try contradiction.

Lemma row_light_sends (row : InputMapping) :
  In row INPUT_MAPPING_TABLE ->
  sends (setLight (mId row) (match color row with Some c => c | None => 122 end))
    (lightMessage row).
Proof.
  intros Hin.
  each_row Hin
    ltac:(first [ apply sends_setButtonLight
                | apply sends_setPadLight_defined; vm_compute; discriminate ]).
Qed.

Lemma row_light_decodes (row : InputMapping) :
  In row INPUT_MAPPING_TABLE ->
  exists message e,
    lightMessage row = [message] /\ nth 2 message 0 <> 0 /\
    onMessage_event message = Some e /\ id e = mId row.
Proof.
  intros Hin.
  each_row Hin
    ltac:(eexists; eexists; split; [reflexivity|]; split; [discriminate|];
          split; reflexivity).
Qed.

Lemma lightMappedControls_sends :
  sends lightMappedControls
    (flat_map lightMessage INPUT_MAPPING_TABLE ++ [[0xB0; uint8 49; uint8 122]]).
Proof.
  apply (sends_seq
           (for_each
              (fun mapping h =>
                 setLight (mId mapping)
                   (match color mapping with Some c => c | None => 122 end) h)
              INPUT_MAPPING_TABLE)
           (setButtonLight 49 122)).
  - apply sends_for_each. intros row Hin. apply row_light_sends. exact Hin.
  - apply sends_setButtonLight.
Qed.

End StartupLightsProperties.

(** X24: the lights the [AbleDoom] constructor turns on are those of the
    controls that do something. Its lighting loop runs to its end, every
    message it sends has a non-zero value, and the controls these messages
    address - as the input decoder names them - are exactly the controls
    with a row in the mapping table, and the modifier button 49. *)
Theorem startup_lights_match_mapping {keys : DoomKeys} (hw : PushHardware) :
  List.length (mMessageBuffer hw) = 3%nat ->
  exists hw' sent,
    lightMappedControls hw = Some hw' /\
    midiOut hw' = midiOut hw ++ sent /\
    Forall (fun message => nth 2 message 0 <> 0) sent /\
    forall c : ControlId,
      (exists message e,
         In message sent /\ onMessage_event message = Some e /\ id e = c)
      <-> (findMapping c <> None \/ c = Button 49).
Proof.
  intros Hlen.
  destruct (lightMappedControls_sends hw Hlen) as [hw' [Hs [Ho _]]].
  exists hw', (flat_map lightMessage INPUT_MAPPING_TABLE ++ [[0xB0; uint8 49; uint8 122]]).
  split; [exact Hs|]. split; [exact Ho|]. split.
  - apply Forall_app. split.
    + apply Forall_forall. intros message Hin. apply in_flat_map in Hin.
      destruct Hin as [row [Hrow Hmsg]].
      destruct (row_light_decodes row Hrow) as [m [e [Hl [Hv _]]]].
      rewrite Hl in Hmsg. destruct Hmsg as [<-|[]]. exact Hv.
    + constructor; [discriminate | constructor].
  - intros c. split.
    + intros [message [e [Hin [He Hid]]]]. apply in_app_or in Hin.
      destruct Hin as [Hin|[<-|[]]].
      * left. apply in_flat_map in Hin. destruct Hin as [row [Hrow Hmsg]].
        destruct (row_light_decodes row Hrow) as [m [e' [Hl [_ [He' Hid']]]]].
        rewrite Hl in Hmsg. destruct Hmsg as [<-|[]].
        assert (e' = e) by congruence. subst e'.
        rewrite <- Hid, Hid'. clear - Hrow.
        cbn [INPUT_MAPPING_TABLE In] in Hrow.
        repeat (destruct Hrow as [Hrow|Hrow]; [subst; discriminate|]).
        contradiction.
      * right. simpl in He. inversion He; subst. reflexivity.
    + intros [Hmapped| ->].
      * destruct (findMapping c) as [row|] eqn:Hf; [|congruence].
        apply findMapping_row in Hf. destruct Hf as [Hrow <-].
        destruct (row_light_decodes row Hrow) as [m [e [Hl [_ [He Hid]]]]].
        exists m, e. split; [|auto].
        apply in_or_app. left. apply in_flat_map. exists row.
        split; [exact Hrow | rewrite Hl; left; reflexivity].
      * exists [0xB0; uint8 49; uint8 122], {| id := Button 49; pressed := false |}.
        split; [apply in_or_app; right; left; reflexivity|].
        split; reflexivity.
Qed.

Lemma startup_lights_match_mapping_witness :
  exists hw' sent,
    @lightMappedControls doomkeys_h powerOn = Some hw' /\
    midiOut hw' = midiOut powerOn ++ sent /\
    exists message e,
      In message sent /\ onMessage_event message = Some e /\ id e = Button 82.
Proof.
  destruct (@startup_lights_match_mapping doomkeys_h powerOn eq_refl)
    as [hw' [sent [Hs [Ho [_ Hiff]]]]].
  exists hw', sent. split; [exact Hs|]. split; [exact Ho|].
  apply (proj2 (Hiff (Button 82))). left. discriminate.
Defined.

(** ** The background image *)

Lemma copyToScreen_raw_copies (data : list Z) (hw : PushHardware) :
  List.length data = List.length (mScreenBuffer hw) ->
  mScreenBuffer (copyToScreen_raw data hw) = data /\
  mMessageBuffer (copyToScreen_raw data hw) = mMessageBuffer hw /\
  midiOut (copyToScreen_raw data hw) = midiOut hw /\
  mDisplayData (copyToScreen_raw data hw) = mDisplayData hw /\
  usbSubmitted (copyToScreen_raw data hw) = usbSubmitted hw.
Proof.
  intros Hlen. unfold copyToScreen_raw.
  cbn [mScreenBuffer mMessageBuffer midiOut mDisplayData usbSubmitted set_mScreenBuffer].
  split; [|auto]. apply memcpy_all; lia.
Qed.

Lemma frames_keep_background (frames : list (Z -> Z)) :
  forall hw, Z.of_nat (List.length (mScreenBuffer hw)) = screenPixels ->
    exists hw',
      for_each drawFrame_blits frames hw = Some hw' /\
      List.length (mScreenBuffer hw') = List.length (mScreenBuffer hw) /\
      forall col row,
        0 <= col < 320 -> 0 <= row < PUSH_SCREEN_HEIGHT ->
        nth_error (mScreenBuffer hw') (Z.to_nat (col + row * PUSH_SCREEN_STRIDE))
        = nth_error (mScreenBuffer hw) (Z.to_nat (col + row * PUSH_SCREEN_STRIDE)).
Proof.
  induction frames as [|frame rest IH]; intros hw Hlen.
  - exists hw. auto.
  - destruct (drawFrame_blits_pixels frame hw Hlen)
      as [hw1 [Hb [Hl1 [_ [_ [_ Hpix]]]]]].
    destruct (IH hw1 ltac:(rewrite Hl1; exact Hlen)) as [hw2 [Hrest [Hl2 Hbg]]].
    exists hw2. cbn [for_each]. rewrite Hb. cbn [bind].
    split; [exact Hrest|]. split; [congruence|].
    intros col row Hc Hr. rewrite (Hbg col row Hc Hr).
    apply (Hpix col row ltac:(unfold PUSH_SCREEN_STRIDE; lia) Hr). lia.
Qed.

(** X25: the controls image stays on the screen. After the raw copy of an
    image of the screen buffer's size, the screen buffer is that image; and
    whatever frames are then drawn, and however many, their blits run to
    their end and every pixel of columns 0..319 is still the image's. *)
Theorem background_survives (image : list Z) (frames : list (Z -> Z))
  (hw : PushHardware) :
  Z.of_nat (List.length (mScreenBuffer hw)) = screenPixels ->
  List.length image = List.length (mScreenBuffer hw) ->
  mScreenBuffer (copyToScreen_raw image hw) = image /\
  exists hw',
    for_each drawFrame_blits frames (copyToScreen_raw image hw) = Some hw' /\
    forall col row,
      0 <= col < 320 -> 0 <= row < PUSH_SCREEN_HEIGHT ->
      nth_error (mScreenBuffer hw') (Z.to_nat (col + row * PUSH_SCREEN_STRIDE))
      = nth_error image (Z.to_nat (col + row * PUSH_SCREEN_STRIDE)).
Proof.
  intros Hlen Himage.
  destruct (copyToScreen_raw_copies image hw Himage) as [Hcopy _].
  split; [exact Hcopy|].
  destruct (frames_keep_background frames (copyToScreen_raw image hw))
    as [hw' [Hrun [_ Hbg]]].
  { rewrite Hcopy, Himage. exact Hlen. }
  exists hw'. split; [exact Hrun|].
  intros col row Hc Hr. rewrite (Hbg col row Hc Hr), Hcopy. reflexivity.
Qed.

Lemma background_survives_witness :
  let image := repeat 0x1234 (Z.to_nat screenPixels) in
  exists hw',
    for_each drawFrame_blits [fun _ => 0xFFFFFF; fun _ => 0]
      (copyToScreen_raw image constructed) = Some hw' /\
    nth_error (mScreenBuffer hw') (Z.to_nat (319 + 159 * PUSH_SCREEN_STRIDE))
    = nth_error image (Z.to_nat (319 + 159 * PUSH_SCREEN_STRIDE)).
Proof.
  intros image.
  assert (Himage : List.length image = List.length (mScreenBuffer constructed)).
  { apply Nat2Z.inj. rewrite screenBuffer_constructed. unfold image.
    rewrite repeat_length. apply Z2Nat.id.
    unfold screenPixels, PUSH_SCREEN_HEIGHT, PUSH_SCREEN_STRIDE. lia. }
  destruct (background_survives image [fun _ => 0xFFFFFF; fun _ => 0] constructed
              screenBuffer_constructed Himage) as [_ [hw' [Hrun Hbg]]].
  exists hw'. split; [exact Hrun|].
  apply Hbg; unfold PUSH_SCREEN_HEIGHT; lia.
Defined.

(** ** From a message to a key *)

(** X26: from the wire to the engine. A message arriving while the queue is
    empty, decoded to an event whose control has a table row, makes the
    next [DG_GetKey] return 1 with that row's key - [KEY_F9] in place of
    [KEY_F6] while the modifier is held - and the event's press flag, and
    leaves the queue empty; a message that decodes to nothing, or to a
    control without a row, makes it return 0 and leave both outputs as
    they were. *)
Theorem message_to_key {keys : DoomKeys} (pMessage : list Z) (app : AbleDoom)
  (pressed0 doomKey0 : Z) :
  mEventQueue app = [] ->
  let polled := DG_GetKey pressed0 doomKey0 (receive pMessage app) in
  mEventQueue (snd polled) = [] /\
  (forall input m,
     onMessage_event pMessage = Some input -> findMapping (id input) = Some m ->
     fst polled
     = (1, if pressed input then 1 else 0,
        if (doomKey m =? KEY_F6) && mShiftHeld app then uint8 KEY_F9 else doomKey m)) /\
  (onMessage_event pMessage = None \/
   (exists input, onMessage_event pMessage = Some input /\
                  findMapping (id input) = None) ->
   fst polled = (0, pressed0, doomKey0)).
Proof.
  intros Hempty polled. unfold polled, receive, onMessage, DG_GetKey.
  destruct (onMessage_event pMessage) as [input|] eqn:Hdec.
  - destruct (findMapping (id input)) as [m|] eqn:Hmap.
    + pose proof (onInput_mapped input app m Hmap) as Hq. rewrite Hempty in Hq.
      rewrite app_nil_l in Hq. unfold fetchEvent. rewrite Hq. cbn [fst snd mEventQueue].
      split; [reflexivity|]. split.
      * intros input' m' Hi Hm. inversion Hi; subst input'.
        assert (m' = m) by congruence. subst m'. reflexivity.
      * intros [H|[input' [Hi Hm]]]; [discriminate|].
        inversion Hi; subst input'. congruence.
    + assert (Hq : mEventQueue (onInput input app) = []).
      { unfold onInput. rewrite Hmap. exact Hempty. }
      unfold fetchEvent. rewrite Hq. cbn [fst snd].
      split; [exact Hq|]. split; [|reflexivity].
      intros input' m' Hi Hm. inversion Hi; subst input'. congruence.
  - unfold fetchEvent. rewrite Hempty. cbn [fst snd].
    split; [exact Hempty|]. split; [discriminate | reflexivity].
Qed.

Lemma message_to_key_witness :
  let app := {| mEventQueue := []; mHardware := powerOn; mShiftHeld := true |} in
  fst (DG_GetKey 0 0 (@receive doomkeys_h [0xB0; 82; 127] app)) = (1, 1, 0xc3).
Proof.
  intros app.
  destruct (@message_to_key doomkeys_h [0xB0; 82; 127] app 0 0 eq_refl)
    as [_ [Hkey _]].
  exact (Hkey {| id := Button 82; pressed := true |}
              (buttonMapping 82 (@KEY_F6 doomkeys_h)) eq_refl eq_refl).
Defined.

(** ** Buffer sizes *)

Lemma sized_sends (op : PushHardware -> option PushHardware)
  (msgs : list (list Z)) (hw hw' : PushHardware) :
  sends op msgs -> sized hw -> op hw = Some hw' -> sized hw'.
Proof.
  intros Hsends [Hm [Hs Hu]] Hop.
  destruct (Hsends hw Hm) as [hw1 [H1 [_ [Hm1 [Hs1 [Hd1 _]]]]]].
  assert (hw' = hw1) by congruence. subst hw1.
  unfold sized. rewrite Hs1, Hd1. auto.
Qed.

Lemma sized_setPadLight (x y value : Z) (hw hw' : PushHardware) :
  sized hw -> setPadLight x y value hw = Some hw' -> sized hw'.
Proof.
  intros Hsized Hop.
  destruct (padNoteNumber x y) as [note|] eqn:Hnote.
  - exact (sized_sends _ _ hw hw' (sends_setPadLight x y value note Hnote) Hsized Hop).
  - unfold setPadLight in Hop. rewrite Hnote in Hop. discriminate Hop.
Qed.

Lemma stores_length (value : PixelCopy -> Z) (writes : list PixelCopy) :
  forall screen screen',
    for_each (fun w s => vec_store (destIndex w) (value w) s) writes screen
    = Some screen' ->
    List.length screen' = List.length screen.
Proof.
  induction writes as [|a writes IH]; intros screen screen' H; simpl in H.
  - inversion H. reflexivity.
  - destruct (vec_store (destIndex a) (value a) screen) as [s1|] eqn:Hs;
      simpl in H; [|discriminate].
    apply vec_store_inv in Hs. rewrite (IH s1 screen' H). tauto.
Qed.

Lemma xorWords_length (words : nat) :
  forall pBuffer, List.length (xorWords words pBuffer) = List.length pBuffer.
Proof.
  induction words as [|words IH]; intros pBuffer; [destruct pBuffer; reflexivity|].
  destruct pBuffer as [|b0 [|b1 [|b2 [|b3 rest]]]]; try reflexivity.
  cbn [xorWords]. rewrite length_app, IH. reflexivity.
Qed.

Lemma memcpy_length {A : Type} (dest src : list A) (n : Z) :
  (Z.to_nat n <= List.length src)%nat -> (Z.to_nat n <= List.length dest)%nat ->
  List.length (memcpy dest src n) = List.length dest.
Proof.
  intros Hs Hd. unfold memcpy.
  rewrite length_app, length_firstn, length_skipn. lia.
Qed.

Lemma sized_submitScreen (ev : HandleEvents) (headerResult dataResult : Z)
  (hw : PushHardware) :
  sized hw -> sized (snd (submitScreen ev headerResult dataResult hw)).
Proof.
  intros [Hm [Hs Hu]]. unfold submitScreen.
  set (pump := negb (mTransferFailed (mDisplayData hw))
               && (mDisplayError (mDisplayData hw) >=? 0)).
  set (hw1 := if pump then set_mDisplayData (deliver ev (mDisplayData hw)) hw else hw).
  assert (H1 : sized hw1).
  { unfold hw1. destruct pump; [|unfold sized; auto].
    destruct (deliver_keeps ev (mDisplayData hw)) as [_ [Hb _]].
    unfold sized. cbn [set_mDisplayData mMessageBuffer mScreenBuffer mDisplayData].
    rewrite Hb. auto. }
  destruct H1 as [Hm1 [Hs1 Hu1]].
  destruct (pump && (handleEventsResult ev <? 0)); [unfold sized; auto|].
  destruct (mDisplayError (mDisplayData hw1) <? 0); [unfold sized; auto|].
  destruct (mTransferFailed (mDisplayData hw1)); [unfold sized; auto|].
  destruct (mTransferInProgress (mDisplayData hw1)); [unfold sized; auto|].
  cbn [snd]. unfold submitDisplayFrameTransfer, applySignalShapingPattern.
  assert (Hlen : Z.of_nat
                   (List.length
                      (xorWords (Z.to_nat (PUSH_SCREEN_SIZE_BYTES / 4))
                         (memcpy (mUsbTransferBuffer (mDisplayData hw1))
                            (flat_map uint16_bytes (mScreenBuffer hw1))
                            PUSH_SCREEN_SIZE_BYTES)))
                 = PUSH_SCREEN_SIZE_BYTES).
  { rewrite xorWords_length, memcpy_length; [exact Hu1| |lia].
    rewrite uint16_bytes_length.
    unfold screenPixels, PUSH_SCREEN_SIZE_BYTES in *. lia. }
  destruct (headerResult <? 0); [|destruct (dataResult <? 0)];
    unfold sized;
    cbn [set_mDisplayData set_usbSubmitted set_mUsbTransferBuffer set_mDisplayError
         set_mTransferInProgress mMessageBuffer mScreenBuffer mDisplayData
         mUsbTransferBuffer];
    auto.
Qed.

Lemma sized_construct (hw : PushHardware) : construct = Some hw -> sized hw.
Proof.
  unfold construct. intros H.
  destruct (resetLEDs_sends powerOn eq_refl) as [hw1 [H1 [_ [Hm1 _]]]].
  rewrite H1 in H. cbn [bind] in H. inversion H; subst hw.
  split; [exact Hm1|]. split.
  - apply screenBuffer_initDisplay.
  - apply usbBuffer_initDisplay.
Qed.

(** X27: the buffers of the facade never change size. In every state a
    client can bring about - the constructor followed by any calls of the
    public member functions - the message buffer has three bytes, the screen
    buffer has 1024 x 160 pixels and the transfer buffer twice as many bytes:
    no LED call, blit, raw copy, frame submission or delivered completion
    resizes them, whether it succeeds, drops the frame or throws. *)
Theorem buffers_keep_size (hw : PushHardware) : reachable hw -> sized hw.
Proof.
  induction 1 as [hw Hc
                 |number value hw hw' _ IH Hop
                 |x y value hw hw' _ IH Hop
                 |c value hw hw' _ IH Hop
                 |hw hw' _ IH Hop
                 |srcBuffer srcX srcY srcWidth srcHeight destX destY hw hw' _ IH Hop
                 |data hw _ IH Hdata
                 |ev headerResult dataResult hw _ IH].
  - exact (sized_construct hw Hc).
  - exact (sized_sends _ _ hw hw' (sends_setButtonLight number value) IH Hop).
  - exact (sized_setPadLight x y value hw hw' IH Hop).
  - destruct c as [p|b]; cbn [setLight] in Hop.
    + exact (sized_setPadLight _ _ value hw hw' IH Hop).
    + exact (sized_sends _ _ hw hw' (sends_setButtonLight b value) IH Hop).
  - exact (sized_sends _ _ hw hw' resetLEDs_sends IH Hop).
  - destruct IH as [Hm [Hs Hu]]. unfold copyToScreen in Hop.
    destruct (for_each _ _ (mScreenBuffer hw)) as [screen|] eqn:Hstores;
      [|discriminate Hop].
    cbn [bind] in Hop. inversion Hop; subst hw'.
    apply stores_length in Hstores.
    unfold sized. cbn [set_mScreenBuffer mMessageBuffer mScreenBuffer mDisplayData].
    rewrite Hstores. auto.
  - destruct IH as [Hm [Hs Hu]]. unfold sized, copyToScreen_raw.
    cbn [set_mScreenBuffer mMessageBuffer mScreenBuffer mDisplayData].
    rewrite memcpy_length by lia. auto.
  - exact (sized_submitScreen ev headerResult dataResult hw IH).
Qed.

Lemma buffers_keep_size_witness :
  reachable firstFrameInFlight /\ sized firstFrameInFlight.
Proof.
  assert (R : reachable firstFrameInFlight).
  { unfold firstFrameInFlight. apply after_submitScreen. apply after_constructor.
    unfold construct.
    replace (resetLEDs powerOn) with (Some ledsOff) by (vm_compute; reflexivity).
    reflexivity. }
  split; [exact R | exact (buffers_keep_size firstFrameInFlight R)].
Defined.
